(* ===== verification/_CoqProject ===== *)
-Q . S2P
Prelude.v
SqpTypes.v
DenseVector.v
SparseMatrix.v
SolverInterface.v
OldInterface.v
QPhandler.v
RestartQpHandler.v
OptTest.v
ActiveSet.v
Algorithm.v
Optimality.v
Penalty.v
Driver.v
TrustRegion.v
DefaultOptions.v
QpSolve.v
