(* ===== verification/Prelude.v ===== *)
(** * RestartSQP / SQPhotstart: a verified model of the trust-region SQP core

    This development models in Rocq the C++ core of the repository
    kingdwd/RestartSQP (namespaces [SQPhotstart] and [RestartSqp]): the
    dense [Vector] class, the QP-solver data store of the qpOASES backend,
    the two generations of the QP subproblem builder ([QPhandler] and
    [RestartSqp::QpHandler]), the NLP optimality test ([NLP_OptTest]) and
    the SQP driver [Algorithm] with its ratio test, trust-region update,
    penalty update, second-order correction and main loop.

    ** Parts of the program and how they interact

    [Algorithm] (src/src/Algorithm.cpp) owns the iterate (x_k, c_k, the
    bounds, gradient, Jacobian, Hessian, multipliers), the radius [delta_]
    and the penalty [rho_], and a record of dirty flags [QPinfoFlag_].
    Each iteration it asks its [QPhandler] (src/src/QPhandler.cpp) to
    build or update the QP subproblem (bounds, linear objective, Hessian,
    Jacobian with slack columns) inside a solver interface object
    (src/src/qpOASESInterface.cpp), solves it through the external QP
    engine, extracts the step, adapts the penalty with an auxiliary LP,
    evaluates the trial point through the NLP oracle, runs the ratio test,
    possibly a second-order correction, checks the KKT conditions and
    updates the radius.  [QpHandler] (src/src/QpHandler.cpp) is the later
    builder of the RestartSqp solver: a second formulation with slacks for
    the variable bounds, slack bounds written once, a cache of the last
    penalty and an in-place shrink of the trust region.  [NLP_OptTest]
    (src/src/OptTest.cpp) is a stand-alone KKT tester with activity tags.
    Both builders talk to the solver only through the setters of the
    interface, so they are proved against the type class of
    [SolverInterface], whose laws say what each setter does to the QP.

    ** Files, in dependency order

    - [Prelude] (this file): numbers ([Q] models [double]), vectors as
      [list Q] with [v.[i]], the [for_range] loop combinator and its
      lemmas (loop invariants, projections, writes by index), sums, the
      tactics [qcase], [qlin], [qdecide] and the hint databases [sqp] and
      [sqp_rw].
    - [SqpTypes]: the enumerations of Types.hpp (exit flags, constraint
      kinds, activity tags, solver choice, QP type), [INF], the
      single-constraint classifier of Utils.hpp, the dirty flags
      [UpdateFlags].  Types.hpp and Utils.hpp are not in the repository:
      these declarations are reconstructed from their uses.
    - [DenseVector]: Vector.cpp (assign, add/subtract, copy, sub-vectors,
      norms, dot product) and the equivalence [veq] up to [Qeq].
    - [SparseMatrix]: the triplet matrix of Matrix.hpp, the identity
      blocks of the QP Jacobian and the matrix-vector products; the
      members of the Harwell-Boeing matrix [SpHbMat], its [set_zero] and
      the sort rule of its conversion.
    - [SolverInterface]: the solver contract as a [Class] with a data view
      [qp_data] and its laws; the plain data [QpData] and the qpOASES
      interface are its instances.  The interface record holds the data,
      the change flags, the two matrix statuses, the solution buffers
      [x_qp_], [y_qp_] and [status_]; its operations are the indexed and
      whole-vector setters, [reset_flags], [get_Matrix_change_status],
      [obtain_status], [handler_error], [optimizeQP] and [optimizeLP].
      The qpOASES object is an engine of any state type [E]: a function
      of the call ([init] or one of the [hotstart]s), the limit [nWSR],
      the data and its state, returning its report ([EngineRun]).
    - [OldInterface] (Module [Old]): QPsolverInterface.cpp, the earlier
      version of the qpOASES interface (no change flags, no recovery),
      with the setter calls both versions share ([SetterCall]).
    - [QPhandler]: QPhandler.cpp over any lawful interface, with the
      simulation lemmas [*_data] that reduce every statement to [QpData].
    - [RestartQpHandler] (Module [RQ]): QpHandler.cpp; configuration
      [QpHandlerCfg], mutable record [QpHandler] (interface, penalty cache,
      last KKT error), every live member function, the public calls as
      the inductive [Call] run in sequence by [run_calls], and [solve]
      over the solver's [optimize], status and KKT error as parameters.
    - [OptTest]: OptTest.cpp; fixed data [OptTestData], state
      [OptTestState] (activity arrays, flags), every member function; the
      hierarchy [OptTest] / [NLP_OptTest] / [QP_OptTest] as a type class
      with one instance per class, [vcall] being a call through an
      [OptTest*].
    - [ActiveSet]: [QPhandler::get_active_set] and
      [qpOASESInterface::GetWorkingSet], the activity tags of a QP
      solution.
    - [Algorithm]: the options, the oracles ([Env]), the driver state
      [AlgState] (one field per member), the exceptions as the result type
      [Res], and the step functions of Algorithm.cpp.
    - [Optimality]: [Algorithm::check_optimality] loop by loop.
    - [Penalty]: [Algorithm::update_penalty_parameter] with its two while
      loops.
    - [Driver]: the second-order correction, one iteration, the main loop
      [Optimize] and [initialization].
    - [TrustRegion]: the iterations of the main loop seen through
      [update_radius] ([radius_run]), for the liveness theorem.
    - [DefaultOptions]: [Algorithm::setDefaultOption], the calls that
      register the options with Ipopt, argument by argument, and the
      registry they build.
    - [QpSolve]: [QPhandler::solveQP] and [QPhandler::solveLP] over the
      qpOASES interface of [SolverInterface], with the getters the driver
      reads the step through.

    ** What the theorems show

    - Driver: [Optimize] terminates (enough fuel is given), never reports
      [UNKNOWN], keeps the penalty monotone, and overwrites an [OPTIMAL]
      of the last iteration with [EXCEED_MAX_ITER].
    - Step functions: the ratio test accepts exactly on its two conditions
      and never accepts a merit increase beyond [tol]; the radius stays in
      [[delta_min, delta_max]], shrinks and grows on the code's tests and
      raises the dirty flag; [setupQP] writes exactly the dirty parts;
      [check_optimality] reports [OPTIMAL] at a KKT point and keeps stale
      tags of the bounds; the penalty loop may diverge when [rho_ = 0].
    - Builders: the QP that [set_bounds] assembles; the incremental
      updates are refinements of a rebuild except [update_bounds], which
      keeps a stale [ubA]; in [RQ], [decrease_trust_region] refines
      [set_bounds] with the smaller radius (up to [Qeq], [qp_equiv]),
      keeps the step box in [[-tr, tr]], every call sequence keeps the
      slack bounds, the penalty cache is sound for
      [set_linear_qp_objective_coefficients] and is made stale by
      [update_penalty_parameter]; [solve] returns [OPTIMAL] whatever the
      KKT error and its failure paths depend on [NDEBUG].
    - Liveness: when every step is rejected the radius collapses and the
      run reaches [TRUST_REGION_TOO_SMALL] within
      [delta / ((1 - gamma_c) delta_min) + 1] iterations.
    - Solver interface: the hotstart choice follows the dirty flags; a
      failure is thrown only after a cold retry; a first QP solve copies
      the solution out, a first LP solve does not; a hot start recovered
      by the retry leaves the previous solution in [x_qp_] and [y_qp_].
      The older version dereferences the Hessian of an LP and makes a
      single attempt, and its status codes agree with the newer ones
      exactly on the cases [status_codes_agree] lists.
    - Activity: [get_active_set] gives the variables (and, for QORE, the
      constraints, by the rows of [lb], [ub]) the tags of the
      specification's tolerance tests ([activity_spec]); for the other
      engines it reads the lower constraint bounds from [ubA];
      [GetWorkingSet] swaps the two working sets.
    - Sparse matrices: [set_zero] leaves an empty compressed-column
      matrix with the identity [order_]; [tuple_sort_rule] is a strict
      weak ordering, as [std::sort] requires.
    - Options: no option is registered twice; the default trust-region
      parameters satisfy the hypotheses of the radius theorems.
    - OptTest: [IdentifyActiveSet] never clears a tag and misses a lower
      bound because it reads [cons_type_]; [Check_KKTConditions] declares
      every iterate feasible; the flags an [OptTest*] reads are never
      set, since both derived classes redeclare them, and a [QP_OptTest]
      certifies every condition without testing any.
    - Vectors: round trips of add/subtract and assign/get, the infinity
      norm as the maximum of absolute values.

    ** Modelling choices, bounds and fuel

    - A [double] is a rational [Q]; arithmetic is exact, so theorems hold
      for the real-number semantics of the code, not for rounding.  All
      comparisons of the code are kept with their strictness; [!=] on
      doubles is [Qeq_bool].
    - A [Vector] or C array is a [list Q] updated by index with stdpp's
      [<[i:=x]>]; C++ out-of-range writes are undefined behaviour, the
      model leaves the list unchanged there and the theorems say which
      indices are in range.  [new int[n]()] is [replicate n 0].
    - A C++ [for] loop is [for_range lo n body], a left fold over
      [seq lo n]; a [while] loop is a [Fixpoint] on fuel whose exhaustion
      is the result [OutOfFuel].  [Optimize] runs its loop with fuel
      [iter_max - iter], which suffices because every iteration increments
      [iter] and the loop stops at [iter_max]; the penalty loops get
      [penalty_fuel], the number of raises by [increase_parm > 1] that
      take a positive [rho_] past [rho_max], plus the trial budget; both
      are proved enough ([Optimize_terminates]).
    - Exceptions are values of the result type [Res]; [assert] is a
      constructor of [RQ.SolveOutcome] taken unless [NDEBUG].
    - The QP and LP engines and the NLP oracle are not modelled: they are
      functions of [Env] or section variables.  The engine of the solver
      interface carries its own state, so hot starts may depend on the
      history; what [getPrimalSolution] copies follows the qpOASES
      documentation (only in a solved status).
    - [radius_run] bounds the collapse with
      [collapse_bound = ceil(delta / ((1 - gamma_c) delta_min)) + 1]: each
      rejected step lowers a radius still above [delta_min] by at least
      [(1 - gamma_c) delta_min].
    - [multiplier_vars_ == nullptr] in [check_optimality] is the constant
      [false] ([multiplier_vars_is_null]): [allocate] creates the vector
      before the loop runs and [check_optimality] dereferences it anyway
      in its dual loop; this is an assumption of the model, not a theorem,
      so no claim rests on the branch it guards.
    - The single-constraint classifier of Utils.hpp (absent) follows
      section 4.2 of the specification: two finite bounds, equal or not,
      give [BOUNDED]; [EQUAL] is tested by the code but not produced.
    - [SpTripletMat] models the members the products read; its [order_]
      array, used only by the conversion in Matrix.cpp, is left out.  The
      [reset_constraints] calls of [update_bounds] for Gurobi and CPLEX
      change no data of the QP and are not modelled.

    ** Not modelled

    - The external engines (qpOASES, QORE, Gurobi, CPLEX) and the Ipopt
      adapter [LazySqpTNlp]: libraries and I/O, seen as oracles.
    - [qpOASESInterface::setQP_options] (print and reliability options of
      the engine), the file writers [WriteQPDataToFile] and
      [QPhandler::WriteQPData], and the getters compiled only under DEBUG.
    - [LPhandler] (LPhandler.hpp) and [LazySqpTNlp] (LazySqpTNlp.hpp):
      their .cpp files are not among the sources; the headers declare the
      members and their only bodies return constants.  The driver never
      creates an [LPhandler]: its LP object is a [QPhandler].
    - The constructors, [setStructure] and [setMatVal] of [SpHbMat]
      (Matrix.cpp is not among the sources).
    - Printing, journals, timing other than the time budget, and the code
      under [#if 0] or [#ifdef DEBUG], which is not compiled. *)

From stdpp Require Export base list decidable.
From Stdlib Require Export QArith Qminmax Qabs Lqa.

Declare Scope sqp_scope.
Delimit Scope sqp_scope with sqp.

(** ** Decidability on [Q] *)

#[export] Instance Q_eq_dec : EqDecision Q.
Proof. intros x y. unfold Decision. decide equality; [apply Pos.eq_dec | apply Z.eq_dec]. Defined.

#[export] Instance Qle_dec' (x y : Q) : Decision (x <= y)%Q.
Proof. destruct (Qlt_le_dec y x); [right; by apply Qlt_not_le | by left]. Defined.

#[export] Instance Qlt_dec' (x y : Q) : Decision (x < y)%Q.
Proof. destruct (Qlt_le_dec x y); [by left | right; by apply Qle_not_lt]. Defined.

(** Boolean comparisons as the code writes them. *)
Definition Qleb (x y : Q) : bool := Qle_bool x y.
Definition Qltb (x y : Q) : bool := negb (Qle_bool y x).

Lemma Qleb_spec (x y : Q) : reflect (x <= y)%Q (Qleb x y).
Proof.
  unfold Qleb. destruct (Qle_bool x y) eqn:E; constructor.
  - by apply Qle_bool_iff.
  - intros H. apply Qle_bool_iff in H. congruence.
Qed.

Lemma Qltb_spec (x y : Q) : reflect (x < y)%Q (Qltb x y).
Proof.
  unfold Qltb. destruct (Qle_bool y x) eqn:E; constructor.
  - apply Qle_bool_iff in E. by apply Qle_not_lt.
  - apply Qnot_le_lt. intros H. apply Qle_bool_iff in H. congruence.
Qed.

(** Case analysis on the comparisons of a goal. *)
Lemma Qltb_true_iff (x y : Q) : Qltb x y = true <-> (x < y)%Q.
Proof. symmetry. apply reflect_iff, Qltb_spec. Qed.

Lemma Qleb_true_iff (x y : Q) : Qleb x y = true <-> (x <= y)%Q.
Proof. symmetry. apply reflect_iff, Qleb_spec. Qed.

Ltac qcase :=
  repeat match goal with
  | |- context [Qltb ?a ?b] => destruct (Qltb_spec a b)
  | |- context [Qleb ?a ?b] => destruct (Qleb_spec a b)
  | H : context [Qltb ?a ?b] |- _ => destruct (Qltb_spec a b)
  | H : context [Qleb ?a ?b] |- _ => destruct (Qleb_spec a b)
  end.

(** ** Vectors *)

(** Reading entry [i] of a vector ([values_[i]]); outside the vector the
    model reads [0]. *)
Definition vget (v : list Q) (i : nat) : Q := default 0%Q (v !! i).
Notation "v .[ i ]" := (vget v i) (at level 1, format "v .[ i ]") : sqp_scope.
Open Scope sqp_scope.

Lemma vget_insert_eq (v : list Q) i x : (i < length v)%nat -> (<[i:=x]> v).[i] = x.
Proof. intros H. unfold vget. by rewrite list_lookup_insert_eq. Qed.

Lemma vget_insert_ne (v : list Q) i j x : i ≠ j -> (<[i:=x]> v).[j] = v.[j].
Proof. intros H. unfold vget. by rewrite list_lookup_insert_ne. Qed.

Lemma vget_lookup (v : list Q) i x : v !! i = Some x -> v.[i] = x.
Proof. unfold vget. by intros ->. Qed.

Lemma vget_of_lookup (v w : list Q) i : v !! i = w !! i -> v.[i] = w.[i].
Proof. unfold vget. by intros ->. Qed.

(** ** The [for] loop *)

(** [for (i = lo; i < lo + n; i++) a = body i a]. *)
Definition for_range {A} (lo n : nat) (body : nat -> A -> A) (a : A) : A :=
  fold_left (fun acc i => body i acc) (seq lo n) a.

Lemma for_range_0 {A} lo body (a : A) : for_range lo 0 body a = a.
Proof. reflexivity. Qed.

Lemma for_range_S {A} lo n body (a : A) :
  for_range lo (S n) body a = body (lo + n)%nat (for_range lo n body a).
Proof. unfold for_range. by rewrite seq_S, fold_left_app. Qed.

Lemma for_range_ext {A} lo n (b1 b2 : nat -> A -> A) (a : A) :
  (forall i x, (lo ≤ i < lo + n)%nat -> b1 i x = b2 i x) ->
  for_range lo n b1 a = for_range lo n b2 a.
Proof.
  intros H. induction n as [|n IH]; [done|].
  rewrite !for_range_S, H by lia. f_equal. apply IH. intros; apply H; lia.
Qed.

(** A loop invariant. *)
Lemma for_range_ind {A} (P : A -> Prop) lo n body (a : A) :
  P a -> (forall i x, (lo ≤ i < lo + n)%nat -> P x -> P (body i x)) ->
  P (for_range lo n body a).
Proof.
  intros Ha Hb. induction n as [|n IH]; [done|].
  rewrite for_range_S. apply Hb; [lia|]. apply IH. intros; apply Hb; [lia|done].
Qed.

(** Projecting a loop: when [proj] of one step depends only on [proj] of
    the state, the loop commutes with [proj]. *)
Lemma for_range_proj {A B} (proj : A -> B) lo n (body : nat -> A -> A)
    (g : nat -> B -> B) (a : A) :
  (forall i x, (lo ≤ i < lo + n)%nat -> proj (body i x) = g i (proj x)) ->
  proj (for_range lo n body a) = for_range lo n g (proj a).
Proof.
  intros H. induction n as [|n IH]; [done|].
  rewrite !for_range_S, H by lia. f_equal. apply IH. intros; apply H; lia.
Qed.

(** A loop that leaves [proj] unchanged. *)
Lemma for_range_proj_id {A B} (proj : A -> B) lo n (body : nat -> A -> A) (a : A) :
  (forall i x, (lo ≤ i < lo + n)%nat -> proj (body i x) = proj x) ->
  proj (for_range lo n body a) = proj a.
Proof.
  intros H. apply (for_range_ind (fun x => proj x = proj a)); [done|].
  intros i x Hi <-. by apply H.
Qed.

Lemma length_for_range_insert {A} off lo n (f : nat -> A) (v : list A) :
  length (for_range lo n (fun i w => <[(off + i)%nat := f i]> w) v) = length v.
Proof.
  apply (for_range_ind (fun w => length w = length v)); [done|].
  intros i w _ <-. apply length_insert.
Qed.

(** The writes of [for (i = lo; i < lo+n; i++) v[off+i] = f(i)]. *)
Lemma for_range_insert_lookup {A} off lo n (f : nat -> A) (v : list A) k :
  for_range lo n (fun i w => <[(off + i)%nat := f i]> w) v !! k =
  if decide ((off + lo ≤ k < off + lo + n)%nat ∧ (k < length v)%nat)
  then Some (f (k - off)%nat) else v !! k.
Proof.
  induction n as [|n IH].
  - rewrite for_range_0. case_decide; [lia|done].
  - rewrite for_range_S, list_lookup_insert, length_for_range_insert, IH.
    repeat case_decide; try done; try lia.
    all: try (f_equal; f_equal; lia).
Qed.

Lemma for_range_insert_vget off lo n (f : nat -> Q) (v : list Q) k :
  (for_range lo n (fun i w => <[(off + i)%nat := f i]> w) v).[k] =
  if decide ((off + lo ≤ k < off + lo + n)%nat ∧ (k < length v)%nat)
  then f (k - off)%nat else v.[k].
Proof. unfold vget. rewrite for_range_insert_lookup. by case_decide. Qed.

(** The writes of [for (i = lo; i < lo+n; i++) v[off+i] = h(i, v[off+i])]:
    each entry is read before it is written, so it sees its old value. *)
Lemma for_range_update_lookup off lo n (h : nat -> Q -> Q) (v : list Q) k :
  for_range lo n (fun i w => <[(off + i)%nat := h i w.[off + i]]> w) v !! k =
  if decide ((off + lo ≤ k < off + lo + n)%nat ∧ (k < length v)%nat)
  then Some (h (k - off)%nat v.[k]) else v !! k.
Proof.
  revert k. induction n as [|n IH]; intros k.
  - rewrite for_range_0. case_decide; [lia|done].
  - assert (Hlen : forall m, length (for_range lo m
        (fun i w => <[(off + i)%nat := h i w.[off + i]]> w) v) = length v).
    { intros m. apply (for_range_ind (fun w => length w = length v)); [done|].
      intros i w _ <-. apply length_insert. }
    rewrite for_range_S. cbv beta. rewrite list_lookup_insert, Hlen, IH.
    assert (Hold : (for_range lo n (fun i w => <[(off + i)%nat := h i w.[off + i]]> w) v)
                     .[off + (lo + n)] = v.[off + (lo + n)]).
    { apply vget_of_lookup. rewrite IH. case_decide; [lia|done]. }
    rewrite Hold. repeat case_decide; try done; try lia.
    all: repeat f_equal; lia.
Qed.

Lemma for_range_update_length off lo n (h : nat -> Q -> Q) (v : list Q) :
  length (for_range lo n (fun i w => <[(off + i)%nat := h i w.[off + i]]> w) v) = length v.
Proof.
  apply (for_range_ind (fun w => length w = length v)); [done|].
  intros i w _ <-. apply length_insert.
Qed.

(** ** Sums of rationals *)

Definition sumQ (l : list Q) : Q := fold_right Qplus 0%Q l.

Lemma sumQ_nonneg (l : list Q) : Forall (fun x => 0 <= x)%Q l -> (0 <= sumQ l)%Q.
Proof.
  induction 1 as [|x l Hx _ IH]; simpl; [apply Qle_refl|].
  rewrite <- (Qplus_0_l 0). by apply Qplus_le_compat.
Qed.

(** A sum of non-negative terms is zero only when every term is. *)
Lemma sumQ_zero_iff (l : list Q) :
  Forall (fun x => 0 <= x)%Q l -> ((sumQ l == 0)%Q <-> Forall (fun x => x == 0)%Q l).
Proof.
  induction 1 as [|x l Hx Hl IH]; simpl.
  - split; [constructor|done].
  - pose proof (sumQ_nonneg l Hl) as Hs. split.
    + intros Hsum. assert (x == 0)%Q by lra.
      constructor; [done|]. apply IH. lra.
    + intros Hf. inversion Hf as [|? ? Hx0 Hl0]; subst.
      apply IH in Hl0. lra.
Qed.

Lemma sumQ_app (l1 l2 : list Q) : (sumQ (l1 ++ l2) == sumQ l1 + sumQ l2)%Q.
Proof. induction l1 as [|x l IH]; simpl; [lra|]. rewrite IH. lra. Qed.

(** An accumulation loop whose body adds a term to the accumulator
    computes the sum of the terms. *)
Lemma for_range_Qsum lo n (body : nat -> Q -> Q) (t : nat -> Q) (a : Q) :
  (forall i acc, (lo ≤ i < lo + n)%nat -> (body i acc == acc + t i)%Q) ->
  (for_range lo n body a == a + sumQ (map t (seq lo n)))%Q.
Proof.
  intros H. induction n as [|n IH]; [rewrite for_range_0; unfold sumQ; cbn; lra|].
  rewrite for_range_S, H by lia. rewrite IH by (intros; apply H; lia).
  rewrite seq_S, map_app, sumQ_app. unfold sumQ at 3. cbn [map fold_right]. lra.
Qed.

(** A sum of nonnegative terms over an index range is zero exactly when
    every term is. *)
Lemma sumQ_seq_zero_iff lo n (t : nat -> Q) :
  (forall i, (lo ≤ i < lo + n)%nat -> (0 <= t i)%Q) ->
  ((sumQ (map t (seq lo n)) == 0)%Q <-> forall i, (lo ≤ i < lo + n)%nat -> (t i == 0)%Q).
Proof.
  intros H. rewrite sumQ_zero_iff, Forall_fmap, Forall_forall.
  - setoid_rewrite in_seq. split; intros Hz i Hi; apply Hz; lia.
  - apply Forall_fmap, Forall_forall. intros i Hi. apply in_seq in Hi. apply H. lia.
Qed.

(** A loop whose body [i] changes at most entry [i] of a list: entry [k]
    is changed once, by step [k]. *)
Lemma for_range_local_lookup {A} n (body : nat -> list A -> list A) (h : nat -> option A -> option A)
    (W : list A) k :
  (forall i w j, j ≠ i -> body i w !! j = w !! j) ->
  (forall i w, body i w !! i = h i (w !! i)) ->
  for_range 0 n body W !! k = if decide (k < n)%nat then h k (W !! k) else W !! k.
Proof.
  intros Hother Hself. induction n as [|n IH]; [rewrite for_range_0; case_decide; [lia|done]|].
  rewrite for_range_S. simpl. destruct (decide (k = n)) as [->|Hne].
  - rewrite Hself, IH. repeat case_decide; done || lia.
  - rewrite Hother by done. rewrite IH. repeat case_decide; done || lia.
Qed.

(** Entry [i] of [<[i:=x]> w] is [x] inside the list. *)
Lemma list_lookup_insert_self {A} (w : list A) i (x : A) : <[i:=x]> w !! i = (fun _ => x) <$> w !! i.
Proof.
  rewrite list_lookup_insert. destruct (w !! i) eqn:Hy; simpl; case_decide as Hd; try done.
  - apply lookup_lt_Some in Hy. exfalso. by apply Hd.
  - destruct Hd as [_ Hlt]. apply lookup_ge_None_1 in Hy. lia.
Qed.

(** ** Automation *)

Create HintDb sqp.
Create Rewrite HintDb sqp_rw.
#[export] Hint Resolve sumQ_nonneg Qabs_nonneg Qle_refl : sqp.
#[export] Hint Rewrite @for_range_0 @for_range_S @length_insert @length_for_range_insert : sqp_rw.

(** Replace [Qmax] and [Qabs] by fresh variables with their defining
    disjunctions, so that [lra] can finish. *)
Ltac qlin_abstract t :=
  lazymatch t with
  | Qmax ?a ?b =>
      let m := fresh "m" in let Hm := fresh "Hm" in
      pose proof (Q.max_spec a b) as Hm; generalize dependent (Qmax a b); intros m Hm
  | Qmin ?a ?b =>
      let m := fresh "m" in let Hm := fresh "Hm" in
      pose proof (Q.min_spec a b) as Hm; generalize dependent (Qmin a b); intros m Hm
  | Qabs ?a =>
      let m := fresh "m" in let H1 := fresh "Ha" in let H2 := fresh "Ha" in
      pose proof (Qabs_pos a) as H1; pose proof (Qabs_neg a) as H2;
      generalize dependent (Qabs a); intros m H1 H2
  end.

Ltac qabstract :=
  repeat match goal with
  | |- context [?t] => lazymatch t with Qmax _ _ => qlin_abstract t | Qmin _ _ => qlin_abstract t | Qabs _ => qlin_abstract t end
  | H : context [?t] |- _ => lazymatch t with Qmax _ _ => qlin_abstract t | Qmin _ _ => qlin_abstract t | Qabs _ => qlin_abstract t end
  end.

(** Linear, and nonlinear, arithmetic on [Q] with max, min and absolute value. *)
Ltac qlin := qabstract; lra.
Ltac qnra := qabstract; nra.

(** Decide a closed comparison of rationals by evaluation. *)
Ltac qdecide :=
  first [ apply Qleb_true_iff | apply Qltb_true_iff | idtac ];
  vm_compute; first [ reflexivity | intro; discriminate | discriminate ].

(** Close a goal about a projection of a state record after [simpl]. *)
Ltac sqp_simpl := simpl in *; autorewrite with sqp_rw in *; try done.
