(* ===== verification/SqpTypes.v ===== *)
(** * Enumerations shared by the components

    The declarations of Types.hpp are not part of the sources; the
    enumerations below are reconstructed from their uses in Algorithm.cpp,
    QPhandler.cpp and OptTest.cpp and from the specification.  The exit
    flag follows the [switch] of [Algorithm::print_final_stats], which
    names every code.  The constraint classifier [classify_single_constraint]
    (Utils.hpp, also absent) follows section 4.2 of the specification: two
    finite bounds give [BOUNDED], equal or not; the kind [EQUAL], which
    the [switch]es of Algorithm.cpp and OptTest.cpp test, is not produced
    by it. *)

From S2P Require Import Prelude.

(** Exit status of the SQP run. *)
Inductive Exitflag :=
| OPTIMAL | PRED_REDUCTION_NEGATIVE | INVALID_NLP | EXCEED_MAX_ITER
| EXCEED_TIME_LIMITS | QP_OPTIMAL | QPERROR_INTERNAL_ERROR | QPERROR_INFEASIBLE
| QPERROR_UNBOUNDED | QPERROR_EXCEED_MAX_ITER | QPERROR_NOTINITIALISED
| AUXINPUT_NOT_OPTIMAL | CONVERGE_TO_NONOPTIMAL | QPERROR_PREPARINGAUXILIARYQP
| QPERROR_AUXILIARYQPSOLVED | QPERROR_PERFORMINGHOMOTOPY | QPERROR_HOMOTOPYQPSOLVED
| TRUST_REGION_TOO_SMALL | STEP_LARGER_THAN_TRUST_REGION | QPERROR_UNKNOWN
| UNKNOWN.

#[export] Instance Exitflag_eq_dec : EqDecision Exitflag.
Proof. solve_decision. Defined.

(** How a constraint or a variable is bounded. *)
Inductive ConstraintType := BOUNDED_ABOVE | BOUNDED_BELOW | EQUAL | BOUNDED | UNBOUNDED.

#[export] Instance ConstraintType_eq_dec : EqDecision ConstraintType.
Proof. solve_decision. Defined.

(** Activity of a bound or constraint at a point. *)
Inductive ActiveType := INACTIVE | ACTIVE_ABOVE | ACTIVE_BELOW | ACTIVE_BOTH_SIDE.

#[export] Instance ActiveType_eq_dec : EqDecision ActiveType.
Proof. solve_decision. Defined.

(** Backend selection and problem type. *)
Inductive Solver := QPOASES | QORE | GUROBI | CPLEX.

#[export] Instance Solver_eq_dec : EqDecision Solver.
Proof. solve_decision. Defined.

Inductive QPType := QP | LP | SOC.

#[export] Instance QPType_eq_dec : EqDecision QPType.
Proof. solve_decision. Defined.

(** The value the code uses for an infinite bound. *)
Definition INF : Q := 10 ^ 20.

Definition is_finite (x : Q) : bool := Qltb (- INF) x && Qltb x INF.

(** [classify_single_constraint(lower, upper)], as section 4.2 of the
    specification describes it: bounded-both covers the equalities. *)
Definition classify_single_constraint (lower upper : Q) : ConstraintType :=
  if is_finite lower then
    if is_finite upper then BOUNDED else BOUNDED_BELOW
  else if is_finite upper then BOUNDED_ABOVE else UNBOUNDED.

(** The dirty flags of the QP data ([UpdateQPInfo] of Types.hpp), used by
    [Algorithm::QPinfoFlag_] and by the solver interface. *)
Record UpdateFlags := mkUpdateFlags {
  Update_A : bool; Update_H : bool; Update_bounds : bool;
  Update_delta : bool; Update_penalty : bool; Update_g : bool
}.

Definition no_flags : UpdateFlags := mkUpdateFlags false false false false false false.

(** The assignments [QPinfoFlag_.Update_X = b]. *)
Definition set_Update_A (f : UpdateFlags) (b : bool) : UpdateFlags :=
  mkUpdateFlags b (Update_H f) (Update_bounds f) (Update_delta f) (Update_penalty f) (Update_g f).
Definition set_Update_H (f : UpdateFlags) (b : bool) : UpdateFlags :=
  mkUpdateFlags (Update_A f) b (Update_bounds f) (Update_delta f) (Update_penalty f) (Update_g f).
Definition set_Update_bounds (f : UpdateFlags) (b : bool) : UpdateFlags :=
  mkUpdateFlags (Update_A f) (Update_H f) b (Update_delta f) (Update_penalty f) (Update_g f).
Definition set_Update_delta (f : UpdateFlags) (b : bool) : UpdateFlags :=
  mkUpdateFlags (Update_A f) (Update_H f) (Update_bounds f) b (Update_penalty f) (Update_g f).
Definition set_Update_penalty (f : UpdateFlags) (b : bool) : UpdateFlags :=
  mkUpdateFlags (Update_A f) (Update_H f) (Update_bounds f) (Update_delta f) b (Update_g f).
Definition set_Update_g (f : UpdateFlags) (b : bool) : UpdateFlags :=
  mkUpdateFlags (Update_A f) (Update_H f) (Update_bounds f) (Update_delta f) (Update_penalty f) b.

(** Whether the matrices of the QP changed between two solves. *)
Inductive QPMatrixType := UNDEFINED | FIXED | VARIED.

#[export] Instance QPMatrixType_eq_dec : EqDecision QPMatrixType.
Proof. solve_decision. Defined.
