(* ===== verification/DenseVector.v ===== *)
(** * The dense vector of Vector.cpp

    A [Vector] is its array [values_] of fixed size [size_], modelled as a
    [list Q] whose length is the size.  Every member function that changes
    the array is a function returning the new array; the sub-range
    operations keep the code's 1-based [Location] arguments.  The
    theorems give each loop its effect entry by entry, prove the
    infinity norm equal to the maximum of the absolute values, and the
    round trip of [add_vector] and [subtract_vector]. *)

From S2P Require Import Prelude.
Local Open Scope Q_scope.

(** ** Operations (Vector.cpp) *)

(** [assign(Location, subvector_size, subvector)]:
    [values_[Location + i - 1] = subvector[i]]. *)
Definition assign (v : list Q) (Location subvector_size : nat) (subvector : list Q) : list Q :=
  for_range 0 subvector_size (fun i w => <[(Location + i - 1)%nat := subvector.[i]]> w) v.

(** [assign_n(Location, subvector_size, scaling_factor)]. *)
Definition assign_n (v : list Q) (Location subvector_size : nat) (scaling_factor : Q) : list Q :=
  for_range 0 subvector_size (fun i w => <[(Location + i - 1)%nat := scaling_factor]> w) v.

(** [addNumber(increase_amount)]: every entry is increased. *)
Definition addNumber (v : list Q) (increase_amount : Q) : list Q :=
  for_range 0 (length v) (fun i w => <[(0 + i)%nat := w.[0 + i] + increase_amount]> w) v.

(** [addNumberAt(Location, increase_amount)] (0-based). *)
Definition addNumberAt (v : list Q) (Location : nat) (increase_amount : Q) : list Q :=
  <[Location := v.[Location] + increase_amount]> v.

(** [add_number(initloc, endloc, increase_amount)]: the 1-based
    inclusive range [initloc .. endloc]. *)
Definition add_number (v : list Q) (initloc endloc : nat) (increase_amount : Q) : list Q :=
  for_range (initloc - 1) (endloc - (initloc - 1))
    (fun i w => <[(0 + i)%nat := w.[0 + i] + increase_amount]> w) v.

(** [add_vector(rhs)] and [subtract_vector(rhs)]. *)
Definition add_vector (v rhs : list Q) : list Q :=
  for_range 0 (length v) (fun i w => <[(0 + i)%nat := w.[0 + i] + rhs.[i]]> w) v.

Definition subtract_vector (v rhs : list Q) : list Q :=
  for_range 0 (length v) (fun i w => <[(0 + i)%nat := w.[0 + i] - rhs.[i]]> w) v.

(** [subtract_subvector(iloc, subvec_size, subvector)]:
    [values_[i + iloc - 1] -= subvector[i]]. *)
Definition subtract_subvector (v : list Q) (iloc subvec_size : nat) (subvector : list Q)
  : list Q :=
  for_range 0 subvec_size
    (fun i w => <[(iloc - 1 + i)%nat := w.[iloc - 1 + i] - subvector.[i]]> w) v.

(** [copy_vector(rhs)]: the first [size_] entries of [rhs]. *)
Definition copy_vector (v rhs : list Q) : list Q :=
  for_range 0 (length v) (fun i w => <[(0 + i)%nat := rhs.[i]]> w) v.

(** [get_subVector(Location, subvector_size, rhs)]: writes
    [values_[Location-1 ..]] into [rhs] with [rhs->assign(1, ...)]. *)
Definition get_subVector (v : list Q) (Location subvector_size : nat) (rhs : list Q) : list Q :=
  assign rhs 1 subvector_size (drop (Location - 1) v).

(** [getInfNorm()]: the loop with its explicit absolute value. *)
Definition getInfNorm (v : list Q) : Q :=
  fold_left (fun infnorm x =>
    let absxk := if Qltb x 0 then - x else x in
    if Qltb infnorm absxk then absxk else infnorm) v 0.

(** [set_zeros()]. *)
Definition set_zeros (v : list Q) : list Q :=
  for_range 0 (length v) (fun i w => <[(0 + i)%nat := 0]> w) v.

(** [times(rhs)]: the inner product. *)
Definition times (v rhs : list Q) : Q :=
  for_range 0 (length v) (fun i product => product + v.[i] * rhs.[i]) 0.

(** [getOneNorm()] is declared in Vector.hpp, which is not among the
    sources; it is the sum of the absolute values. *)
Definition getOneNorm (v : list Q) : Q := sumQ (map Qabs v).

(** ** Reference definitions *)

(** The maximum of the absolute values, by structural recursion. *)
Definition max_abs (v : list Q) : Q := fold_right (fun x m => Qmax (Qabs x) m) 0 v.

(** Pointwise equality of vectors up to [Qeq]. *)
Definition veq : list Q -> list Q -> Prop := Forall2 Qeq.

(** ** Lemmas *)

Lemma assign_lookup (v : list Q) Location n sub k :
  (1 ≤ Location)%nat ->
  assign v Location n sub !! k =
  if decide ((Location - 1 ≤ k < Location - 1 + n)%nat ∧ (k < length v)%nat)
  then Some sub.[k - (Location - 1)] else v !! k.
Proof.
  intros H. unfold assign.
  rewrite (for_range_ext _ _ _ (fun i w => <[(Location - 1 + i)%nat := sub.[i]]> w)).
  - rewrite for_range_insert_lookup. by rewrite Nat.add_0_r.
  - intros i w _. by replace (Location + i - 1)%nat with (Location - 1 + i)%nat by lia.
Qed.

(** The whole-vector loops: entry [k] is updated from its old value. *)
Lemma elementwise_lookup (v : list Q) (h : nat -> Q -> Q) k :
  for_range 0 (length v) (fun i w => <[(0 + i)%nat := h i w.[0 + i]]> w) v !! k =
  (fun x => h k x) <$> v !! k.
Proof.
  rewrite for_range_update_lookup. case_decide as Hk.
  - rewrite Nat.sub_0_r. destruct (lookup_lt_is_Some_2 v k) as [x Hx]; [lia|].
    by rewrite Hx, (vget_lookup _ _ _ Hx).
  - rewrite lookup_ge_None_2; [done|lia].
Qed.

Lemma elementwise_length (v : list Q) (h : nat -> Q -> Q) :
  length (for_range 0 (length v) (fun i w => <[(0 + i)%nat := h i w.[0 + i]]> w) v)
  = length v.
Proof. apply for_range_update_length. Qed.

Lemma add_vector_lookup (v rhs : list Q) k :
  add_vector v rhs !! k = (fun x => x + rhs.[k]) <$> v !! k.
Proof. apply (elementwise_lookup v (fun i x => x + rhs.[i])). Qed.

Lemma subtract_vector_lookup (v rhs : list Q) k :
  subtract_vector v rhs !! k = (fun x => x - rhs.[k]) <$> v !! k.
Proof. apply (elementwise_lookup v (fun i x => x - rhs.[i])). Qed.

Lemma add_vector_length (v rhs : list Q) : length (add_vector v rhs) = length v.
Proof. apply (elementwise_length v (fun i x => x + rhs.[i])). Qed.

Lemma veq_lookup (v w : list Q) :
  length v = length w ->
  (forall k x y, v !! k = Some x -> w !! k = Some y -> x == y) -> veq v w.
Proof.
  revert w. induction v as [|x v IH]; intros [|y w] Hl H; simpl in *; try done.
  constructor.
  - by apply (H 0%nat).
  - apply IH; [lia|]. intros k. apply (H (S k)).
Qed.

(** [veq] is an equivalence, so that [rewrite] works under it. *)
#[export] Instance veq_Equivalence : Equivalence veq.
Proof. unfold veq. split; apply _. Qed.

(** One step of the infinity-norm loop is a maximum. *)
Lemma infnorm_step (acc x : Q) :
  (if Qltb acc (if Qltb x 0 then - x else x) then (if Qltb x 0 then - x else x) else acc)
  == Qmax acc (Qabs x).
Proof. qcase; qlin. Qed.

Lemma getInfNorm_acc (v : list Q) (acc : Q) :
  0 <= acc ->
  fold_left (fun infnorm x =>
    let absxk := if Qltb x 0 then - x else x in
    if Qltb infnorm absxk then absxk else infnorm) v acc == Qmax acc (max_abs v).
Proof.
  revert acc. induction v as [|x v IH]; intros acc Hacc; simpl.
  - qlin.
  - rewrite IH.
    + pose proof (infnorm_step acc x). revert H. qcase; qlin.
    + qcase; qlin.
Qed.

Lemma max_abs_nonneg (v : list Q) : 0 <= max_abs v.
Proof. induction v as [|x v IH]; simpl; [lra|]. qlin. Qed.

Lemma max_abs_ge (v : list Q) k x : v !! k = Some x -> Qabs x <= max_abs v.
Proof.
  revert k. induction v as [|y v IH]; intros [|k] Hk; simpl in *; try done.
  - injection Hk as ->. pose proof (max_abs_nonneg v). qlin.
  - specialize (IH k Hk). revert IH. pose proof (max_abs_nonneg v). qlin.
Qed.

(** ** Theorems *)

(** The loop of [Vector::getInfNorm], with its hand-written absolute
    value and strict comparison, computes the maximum of the absolute
    values of the entries (zero for the empty vector). *)
Theorem getInfNorm_max_abs (v : list Q) : getInfNorm v == max_abs v.
Proof.
  unfold getInfNorm. rewrite getInfNorm_acc by lra.
  pose proof (max_abs_nonneg v). qlin.
Qed.

(** Every entry is bounded by the infinity norm. *)
Corollary getInfNorm_ge (v : list Q) k x : v !! k = Some x -> Qabs x <= getInfNorm v.
Proof. intros Hk. rewrite getInfNorm_max_abs. by apply (max_abs_ge v k). Qed.

(** [add_vector] followed by [subtract_vector] with the same right-hand
    side gives back the original vector, entry by entry. *)
Theorem add_subtract_vector_roundtrip (v rhs : list Q) :
  veq (subtract_vector (add_vector v rhs) rhs) v.
Proof.
  apply veq_lookup.
  - unfold subtract_vector. rewrite (elementwise_length _ (fun i x => x - rhs.[i])).
    apply add_vector_length.
  - intros k x y. rewrite subtract_vector_lookup, add_vector_lookup.
    destruct (v !! k); simpl; intros Hx Hy; simplify_eq; lra.
Qed.

(** C37: [get_subVector] reads back, at the same 1-based location, the
    entries that [assign] wrote, when both ranges fit in the vectors. *)
Theorem assign_get_subVector_roundtrip (v sub rhs : list Q) Location n k :
  (1 ≤ Location)%nat -> (Location - 1 + n ≤ length v)%nat -> (n ≤ length rhs)%nat ->
  (k < n)%nat ->
  get_subVector (assign v Location n sub) Location n rhs !! k = Some sub.[k].
Proof.
  intros H1 Hv Hr Hk. unfold get_subVector.
  rewrite assign_lookup by lia. rewrite decide_True by lia.
  f_equal. rewrite Nat.sub_0_r. apply vget_lookup.
  rewrite lookup_drop, assign_lookup by lia. rewrite decide_True by lia.
  f_equal. f_equal. lia.
Qed.

Lemma assign_get_subVector_roundtrip_witness :
  get_subVector (assign [1; 2; 3] 2 2 [7; 8]) 2 2 [0; 0] !! 1%nat = Some 8.
Proof. apply (assign_get_subVector_roundtrip [1; 2; 3] [7; 8] [0; 0] 2 2 1); simpl; lia. Defined.
