(* ===== verification/SparseMatrix.v ===== *)
(** * Sparse matrices (Matrix.hpp)

    [SpTripletMat] stores [EntryNum_] nonzeros as the parallel arrays
    [RowIndex_], [ColIndex_], [MatVal_] (1-based indices, as the
    identity-block descriptor [Identity2Info] of Matrix.hpp uses) and a
    flag [isSymmetric_]: a symmetric matrix stores one entry of each
    off-diagonal pair.  Matrix.cpp is not among the sources, so the
    products [times] and [transposed_times] follow the contract of the
    specification (section 4.1), including the implicit mirroring of a
    symmetric matrix.  Of the Harwell-Boeing (compressed column) matrix
    [SpHbMat], the members, the inline [set_zero] and the sort rule
    [tuple_sort_rule] of its conversion are translated from Matrix.hpp;
    its other members are in Matrix.cpp, which is not among the
    sources. *)

From S2P Require Import Prelude.
Local Open Scope Q_scope.

Record SpTripletMat := mkSpTripletMat {
  RowNum : nat;
  ColNum : nat;
  isSymmetric : bool;
  RowIndex : list nat;
  ColIndex : list nat;
  MatVal : list Q
}.

Definition EntryNum (A : SpTripletMat) : nat := length (MatVal A).

(** The entries as (row, column, value) triples, 1-based. *)
Definition entries (A : SpTripletMat) : list (nat * nat * Q) :=
  zip (zip (RowIndex A) (ColIndex A)) (MatVal A).

(** The placement of the identity blocks of the QP Jacobian. *)
Record Identity2Info := mkIdentity2Info {
  irow1 : nat; jcol1 : nat; isize : nat; irow2 : nat; jcol2 : nat
}.

(** The identity blocks a builder places in the QP Jacobian: a block of
    [ib_size] ones (times [ib_value]) whose first entry is at row
    [ib_row], column [ib_col] (1-based).  [ib_value] is [None] where the
    code leaves it unset. *)
Record IdentityBlock := mkIdentityBlock {
  ib_row : nat; ib_col : nat; ib_size : nat; ib_value : option Q
}.

Definition IdentityInfo := list IdentityBlock.

(** The products of [SpTripletMat] (Matrix.cpp). *)
Module SpTripletMat.

(** [times(p, result)]: [result = A p]; a symmetric matrix adds the
    mirror of each off-diagonal entry. *)
Definition times (A : SpTripletMat) (p : list Q) : list Q :=
  fold_left (fun res e =>
    let '(r, c, v) := e in
    let res1 := <[(r - 1)%nat := res.[r - 1] + v * p.[c - 1]]> res in
    if isSymmetric A && negb (Nat.eqb r c)
    then <[(c - 1)%nat := res1.[c - 1] + v * p.[r - 1]]> res1 else res1)
    (entries A) (replicate (RowNum A) 0).

(** [transposed_times(p, result)]: [result = A^T p]. *)
Definition transposed_times (A : SpTripletMat) (p : list Q) : list Q :=
  fold_left (fun res e =>
    let '(r, c, v) := e in
    let res1 := <[(c - 1)%nat := res.[c - 1] + v * p.[r - 1]]> res in
    if isSymmetric A && negb (Nat.eqb r c)
    then <[(r - 1)%nat := res1.[r - 1] + v * p.[c - 1]]> res1 else res1)
    (entries A) (replicate (ColNum A) 0).

End SpTripletMat.

(** [SpHbMat::tuple_sort_rule]: order by column, then by row; the tuple
    is (row, column, original position). *)
Definition tuple_sort_rule (left right : nat * nat * nat) : bool :=
  let '(r1, c1, _) := left in
  let '(r2, c2, _) := right in
  if Nat.ltb c1 c2 then true
  else if Nat.ltb c2 c1 then false
  else Nat.ltb r1 r2.

(** [SpHbMat]: the Harwell-Boeing (compressed column) form qpOASES
    reads.  [MatVal_], [RowIndex_] and [order_] have [EntryNum_] entries,
    [ColIndex_] has [ColNum_ + 1]; [order_] maps the sorted position of an
    entry to its position in the triplet arrays. *)
Record SpHbMat := mkSpHbMat {
  isInitialised_ : bool;
  isSymmetric_ : bool;
  ColNum_ : nat;
  EntryNum_ : nat;
  RowNum_ : nat;
  order_ : list nat;
  MatVal_ : list Q;
  ColIndex_ : list nat;
  RowIndex_ : list nat
}.

(** The sizes the constructors allocate. *)
Definition hb_wf (m : SpHbMat) : Prop :=
  length (MatVal_ m) = EntryNum_ m ∧ length (RowIndex_ m) = EntryNum_ m ∧
  length (order_ m) = EntryNum_ m ∧ length (ColIndex_ m) = S (ColNum_ m).

(** One pass of the first loop of [set_zero]:
    [MatVal_[i] = 0; RowIndex_[i] = 0; order_[i] = i]. *)
Definition zero_entry (i : nat) (m : SpHbMat) : SpHbMat :=
  mkSpHbMat (isInitialised_ m) (isSymmetric_ m) (ColNum_ m) (EntryNum_ m) (RowNum_ m)
    (<[i := i]> (order_ m)) (<[i := 0]> (MatVal_ m)) (ColIndex_ m) (<[i := 0%nat]> (RowIndex_ m)).

(** One pass of the second loop: [ColIndex_[i] = 0]. *)
Definition zero_column (i : nat) (m : SpHbMat) : SpHbMat :=
  mkSpHbMat (isInitialised_ m) (isSymmetric_ m) (ColNum_ m) (EntryNum_ m) (RowNum_ m)
    (order_ m) (MatVal_ m) (<[i := 0%nat]> (ColIndex_ m)) (RowIndex_ m).

(** [SpHbMat::set_zero()]. *)
Definition set_zero (m : SpHbMat) : SpHbMat :=
  let m1 := for_range 0 (EntryNum_ m) zero_entry m in
  for_range 0 (ColNum_ m1 + 1) zero_column m1.

Lemma length_times (A : SpTripletMat) p : length (SpTripletMat.times A p) = RowNum A.
Proof.
  unfold SpTripletMat.times. generalize (entries A) (replicate (RowNum A) 0%Q) (length_replicate (RowNum A) 0%Q).
  intros l. induction l as [|[[r c] v] l IH]; intros res Hres; simpl; [done|].
  apply IH. destruct (_ && _); rewrite ?length_insert; done.
Qed.

Lemma length_transposed_times (A : SpTripletMat) p : length (SpTripletMat.transposed_times A p) = ColNum A.
Proof.
  unfold SpTripletMat.transposed_times. generalize (entries A) (replicate (ColNum A) 0%Q) (length_replicate (ColNum A) 0%Q).
  intros l. induction l as [|[[r c] v] l IH]; intros res Hres; simpl; [done|].
  apply IH. destruct (_ && _); rewrite ?length_insert; done.
Qed.

(** A loop writing [f i] into every entry [i < n] of an array of length
    [n] leaves the array [f <$> seq 0 n]. *)
Lemma for_range_insert_all {A} n (f : nat -> A) (v : list A) :
  length v = n -> for_range 0 n (fun i w => <[(0 + i)%nat := f i]> w) v = f <$> seq 0 n.
Proof.
  intros Hl. apply list_eq. intros k. rewrite for_range_insert_lookup, list_lookup_fmap.
  case_decide.
  - rewrite lookup_seq_lt by lia. simpl. do 2 f_equal. lia.
  - rewrite lookup_seq_ge by lia. apply lookup_ge_None_2. lia.
Qed.

Lemma for_range_insert_const {A} n (x : A) (v : list A) :
  length v = n -> for_range 0 n (fun i w => <[(0 + i)%nat := x]> w) v = replicate n x.
Proof.
  intros Hl. rewrite (for_range_insert_all n (fun _ => x)) by done.
  rewrite (const_fmap (fun _ => x) (seq 0 n) x) by done. by rewrite length_seq.
Qed.

(** [set_zero] clears the matrix: no value, no row index, an empty
    column pointer array, and [order_] the identity permutation; the
    sizes and flags are kept. *)
Lemma set_zero_spec m :
  hb_wf m ->
  let m' := set_zero m in
  hb_wf m' ∧ MatVal_ m' = replicate (EntryNum_ m) 0 ∧
  RowIndex_ m' = replicate (EntryNum_ m) 0%nat ∧ order_ m' = seq 0 (EntryNum_ m) ∧
  ColIndex_ m' = replicate (S (ColNum_ m)) 0%nat ∧
  EntryNum_ m' = EntryNum_ m ∧ ColNum_ m' = ColNum_ m ∧ RowNum_ m' = RowNum_ m ∧
  isSymmetric_ m' = isSymmetric_ m ∧ isInitialised_ m' = isInitialised_ m.
Proof.
  intros (HV & HR & HO & HC). unfold set_zero. cbv zeta.
  set (m1 := for_range 0 (EntryNum_ m) zero_entry m).
  assert (Hsz : forall {B} (proj : SpHbMat -> B), (forall i x, proj (zero_entry i x) = proj x) ->
                  proj m1 = proj m) by (intros; by apply for_range_proj_id).
  assert (Hsz2 : forall {B} (proj : SpHbMat -> B), (forall i x, proj (zero_column i x) = proj x) ->
                   proj (for_range 0 (ColNum_ m1 + 1) zero_column m1) = proj m1)
    by (intros; by apply for_range_proj_id).
  assert (HV1 : MatVal_ m1 = replicate (EntryNum_ m) 0).
  { rewrite <- (for_range_insert_const _ 0 (MatVal_ m)) by done.
    by apply (for_range_proj MatVal_). }
  assert (HR1 : RowIndex_ m1 = replicate (EntryNum_ m) 0%nat).
  { rewrite <- (for_range_insert_const _ 0%nat (RowIndex_ m)) by done.
    by apply (for_range_proj RowIndex_). }
  assert (HO1 : order_ m1 = seq 0 (EntryNum_ m)).
  { rewrite <- list_fmap_id, <- (for_range_insert_all _ id (order_ m)) by done.
    by apply (for_range_proj order_). }
  assert (HC1 : ColIndex_ m1 = ColIndex_ m) by (apply Hsz; by intros).
  assert (HN1 : ColNum_ m1 = ColNum_ m) by (apply Hsz; by intros).
  set (m2 := for_range 0 (ColNum_ m1 + 1) zero_column m1) in *.
  assert (HC2 : ColIndex_ m2 = replicate (S (ColNum_ m)) 0%nat).
  { rewrite <- HN1, <- Nat.add_1_r, <- (for_range_insert_const _ 0%nat (ColIndex_ m1)) by (rewrite HC1; lia).
    by apply (for_range_proj ColIndex_). }
  unfold hb_wf. rewrite HC2, (Hsz2 _ MatVal_), (Hsz2 _ RowIndex_), (Hsz2 _ order_),
    (Hsz2 _ EntryNum_), (Hsz2 _ ColNum_), (Hsz2 _ RowNum_), (Hsz2 _ isSymmetric_),
    (Hsz2 _ isInitialised_) by by intros.
  rewrite (Hsz _ EntryNum_), (Hsz _ RowNum_), (Hsz _ isSymmetric_), (Hsz _ isInitialised_)
    by by intros.
  rewrite HV1, HR1, HO1, HN1, length_replicate, length_seq, length_replicate.
  repeat split; try done. apply length_replicate.
Qed.

(** The relation [std::sort] receives: [left] sorts before [right]. *)
Definition tuple_lt (left right : nat * nat * nat) : Prop := tuple_sort_rule left right = true.

Lemma tuple_sort_rule_irrefl t : tuple_sort_rule t t = false.
Proof. destruct t as [[r c] k]. unfold tuple_sort_rule. by rewrite !Nat.ltb_irrefl. Qed.

Lemma tuple_sort_rule_trans a b c :
  tuple_sort_rule a b = true -> tuple_sort_rule b c = true -> tuple_sort_rule a c = true.
Proof.
  destruct a as [[r1 c1] k1], b as [[r2 c2] k2], c as [[r3 c3] k3]. simpl.
  repeat case Nat.ltb_spec; intros; simplify_eq/=; try done; lia.
Qed.

#[export] Instance tuple_lt_strict : StrictOrder tuple_lt.
Proof.
  split.
  - intros t H. unfold tuple_lt in H. by rewrite tuple_sort_rule_irrefl in H.
  - intros a b c. apply tuple_sort_rule_trans.
Qed.

(** ** Theorems *)

(** C22: [SpHbMat::tuple_sort_rule] is a strict weak ordering, the
    precondition of [std::sort]: it is a strict order (irreflexive and
    transitive), and two tuples are incomparable exactly when they have
    the same row and column, so incomparability is an equivalence. *)
Theorem tuple_sort_rule_strict_weak_order :
  StrictOrder tuple_lt ∧
  (forall a b, ~ tuple_lt a b -> ~ tuple_lt b a -> a.1 = b.1) ∧
  (forall a b, a.1 = b.1 -> ~ tuple_lt a b).
Proof.
  split; [apply _|split].
  - intros [[r1 c1] k1] [[r2 c2] k2]. unfold tuple_lt. simpl.
    repeat case Nat.ltb_spec; intros; simplify_eq/=; try done; f_equal; lia.
  - intros [[r1 c1] k1] [[r2 c2] k2] [= -> ->]. unfold tuple_lt. simpl.
    by rewrite !Nat.ltb_irrefl.
Qed.

(** C26: [SpHbMat::set_zero] clears a matrix whose arrays have the sizes
    the constructors allocate: every value and row index is [0], the
    column pointers are the [ColNum_ + 1] zeros of a matrix without
    entries, [order_] is the identity permutation, and the sizes and
    flags are kept. *)
Theorem set_zero_clears m :
  hb_wf m ->
  let m' := set_zero m in
  hb_wf m' ∧ MatVal_ m' = replicate (EntryNum_ m) 0 ∧
  RowIndex_ m' = replicate (EntryNum_ m) 0%nat ∧ order_ m' = seq 0 (EntryNum_ m) ∧
  ColIndex_ m' = replicate (S (ColNum_ m)) 0%nat ∧
  EntryNum_ m' = EntryNum_ m ∧ ColNum_ m' = ColNum_ m ∧ RowNum_ m' = RowNum_ m ∧
  isSymmetric_ m' = isSymmetric_ m ∧ isInitialised_ m' = isInitialised_ m.
Proof. apply set_zero_spec. Qed.

(** Witness: a 2 x 2 matrix with two stored entries. *)
Definition ex_hb : SpHbMat := mkSpHbMat true false 2 2 2 [1; 0]%nat [3; 4] [0; 1; 2]%nat [1; 2]%nat.

Lemma set_zero_clears_witness :
  hb_wf ex_hb ∧ MatVal_ (set_zero ex_hb) = [0; 0] ∧ order_ (set_zero ex_hb) = [0; 1]%nat ∧
  ColIndex_ (set_zero ex_hb) = [0; 0; 0]%nat.
Proof.
  assert (Hw : hb_wf ex_hb) by (repeat split).
  destruct (set_zero_clears ex_hb Hw) as (_ & HV & _ & HO & HC & _).
  split; [exact Hw|]. rewrite HV, HO, HC. done.
Defined.
