(* ===== verification/SolverInterface.v ===== *)
(** * The QP solver interface and its qpOASES implementation

    The builder ([QPhandler]) talks to the QP engine through the abstract
    class [QPSolverInterface] of the sources (QPsolverInterface.hpp is not
    among them): set a bound, a constraint bound or an objective
    coefficient by index, install the Hessian and the Jacobian.  Here the
    contract is the class [QPSolverInterface] with a data view
    [qp_data : S -> QpData] (the QP the engine will solve) and the laws
    [QPSolverInterfaceLaws] saying how each setter changes the view; the
    builder's theorems are proved against these laws only.

    The qpOASES backend (src/src/qpOASESInterface.cpp) is the instance
    [qpOASES_instance]: besides the data it keeps [firstQPsolved_], the
    change flags [data_change_flags_] raised by the setters once a first
    QP has been solved, and the two matrix statuses that
    [get_Matrix_change_status] updates to choose between a cold [init] and
    the two [hotstart] calls of [optimizeQP].  The numerical engine is a
    parameter [engine] of the [Optimize] section. *)

From S2P Require Import Prelude SqpTypes DenseVector SparseMatrix.
Local Open Scope Q_scope.

(** ** The QP as the engine sees it *)

Record QpData := mkQpData {
  qd_lb : list Q; qd_ub : list Q; qd_lbA : list Q; qd_ubA : list Q; qd_g : list Q;
  qd_H : option SpTripletMat; qd_A : option (SpTripletMat * IdentityInfo)
}.

Definition qd_set_lb (i : nat) (v : Q) (d : QpData) : QpData :=
  mkQpData (<[i:=v]> (qd_lb d)) (qd_ub d) (qd_lbA d) (qd_ubA d) (qd_g d) (qd_H d) (qd_A d).
Definition qd_set_ub (i : nat) (v : Q) (d : QpData) : QpData :=
  mkQpData (qd_lb d) (<[i:=v]> (qd_ub d)) (qd_lbA d) (qd_ubA d) (qd_g d) (qd_H d) (qd_A d).
Definition qd_set_lbA (i : nat) (v : Q) (d : QpData) : QpData :=
  mkQpData (qd_lb d) (qd_ub d) (<[i:=v]> (qd_lbA d)) (qd_ubA d) (qd_g d) (qd_H d) (qd_A d).
Definition qd_set_ubA (i : nat) (v : Q) (d : QpData) : QpData :=
  mkQpData (qd_lb d) (qd_ub d) (qd_lbA d) (<[i:=v]> (qd_ubA d)) (qd_g d) (qd_H d) (qd_A d).
Definition qd_set_g (i : nat) (v : Q) (d : QpData) : QpData :=
  mkQpData (qd_lb d) (qd_ub d) (qd_lbA d) (qd_ubA d) (<[i:=v]> (qd_g d)) (qd_H d) (qd_A d).
Definition qd_set_H (h : SpTripletMat) (d : QpData) : QpData :=
  mkQpData (qd_lb d) (qd_ub d) (qd_lbA d) (qd_ubA d) (qd_g d) (Some h) (qd_A d).
Definition qd_set_A (a : SpTripletMat) (I : IdentityInfo) (d : QpData) : QpData :=
  mkQpData (qd_lb d) (qd_ub d) (qd_lbA d) (qd_ubA d) (qd_g d) (qd_H d) (Some (a, I)).

(** ** The abstract contract *)

Class QPSolverInterface (S : Type) := {
  qp_data : S -> QpData;
  set_lb : S -> nat -> Q -> S;
  set_ub : S -> nat -> Q -> S;
  set_lbA : S -> nat -> Q -> S;
  set_ubA : S -> nat -> Q -> S;
  set_g : S -> nat -> Q -> S;
  set_H_structure : S -> SpTripletMat -> S;
  set_H_values : S -> SpTripletMat -> S;
  set_A_structure : S -> SpTripletMat -> IdentityInfo -> S;
  set_A_values : S -> SpTripletMat -> IdentityInfo -> S
}.

Class QPSolverInterfaceLaws (S : Type) `{!QPSolverInterface S} := {
  set_lb_law s i v : qp_data (set_lb s i v) = qd_set_lb i v (qp_data s);
  set_ub_law s i v : qp_data (set_ub s i v) = qd_set_ub i v (qp_data s);
  set_lbA_law s i v : qp_data (set_lbA s i v) = qd_set_lbA i v (qp_data s);
  set_ubA_law s i v : qp_data (set_ubA s i v) = qd_set_ubA i v (qp_data s);
  set_g_law s i v : qp_data (set_g s i v) = qd_set_g i v (qp_data s);
  set_H_structure_law s h : qp_data (set_H_structure s h) = qd_set_H h (qp_data s);
  set_H_values_law s h : qp_data (set_H_values s h) = qd_set_H h (qp_data s);
  set_A_structure_law s a I : qp_data (set_A_structure s a I) = qd_set_A a I (qp_data s);
  set_A_values_law s a I : qp_data (set_A_values s a I) = qd_set_A a I (qp_data s)
}.

#[export] Hint Rewrite @set_lb_law @set_ub_law @set_lbA_law @set_ubA_law @set_g_law
  @set_H_structure_law @set_H_values_law @set_A_structure_law @set_A_values_law : sqp_rw.

(** The reference implementation: the data itself.  Every lawful
    interface behaves like it under [qp_data]. *)
#[export] Instance QpData_instance : QPSolverInterface QpData := {
  qp_data := fun d => d;
  set_lb := fun d i v => qd_set_lb i v d; set_ub := fun d i v => qd_set_ub i v d;
  set_lbA := fun d i v => qd_set_lbA i v d; set_ubA := fun d i v => qd_set_ubA i v d;
  set_g := fun d i v => qd_set_g i v d;
  set_H_structure := fun d h => qd_set_H h d; set_H_values := fun d h => qd_set_H h d;
  set_A_structure := fun d a I => qd_set_A a I d; set_A_values := fun d a I => qd_set_A a I d
}.

#[export] Instance QpData_laws : QPSolverInterfaceLaws QpData.
Proof. by split. Qed.

(** ** The qpOASES backend *)

(** The status [status_] the interface reports ([QPReturnType] of
    Types.hpp, not in the repository; the values the code assigns). *)
Inductive QPReturnType :=
| UNSOLVED | QP_OPTIMAL | QP_INFEASIBLE | QP_UNBOUNDED | QP_NOTINITIALISED
| QP_PREPARINGAUXILIARYQP | QP_AUXILIARYQPSOLVED | QP_PERFORMINGHOMOTOPY
| QP_HOMOTOPYQPSOLVED | QP_UNKNOWN_ERROR.

#[export] Instance QPReturnType_eq_dec : EqDecision QPReturnType.
Proof. solve_decision. Defined.

Record qpOASESInterface := mkqpOASES {
  oa_data : QpData;
  firstQPsolved_ : bool;
  data_change_flags_ : UpdateFlags;
  old_QP_matrix_status_ : QPMatrixType;
  new_QP_matrix_status_ : QPMatrixType;
  (** [x_qp_] and [y_qp_]: the solution buffers the getters return. *)
  x_qp_ : list Q;
  y_qp_ : list Q;
  status_ : QPReturnType
}.

(** The constructor: [nConstr_QP_ = nCon], [nVar_QP_ = nVar + 2 nCon],
    [status_(UNSOLVED)], and [allocate] creates zero vectors of these
    sizes ([y_qp_] has [nConstr_QP_ + nVar_QP_] entries). *)
Definition qpOASESInterface_new (nVar nCon : nat) : qpOASESInterface :=
  let nVar_QP := (nVar + 2 * nCon)%nat in
  mkqpOASES (mkQpData (replicate nVar_QP 0) (replicate nVar_QP 0)
                      (replicate nCon 0) (replicate nCon 0) (replicate nVar_QP 0) None None)
            false no_flags UNDEFINED UNDEFINED
            (replicate nVar_QP 0) (replicate (nCon + nVar_QP) 0) UNSOLVED.

Definition with_data (s : qpOASESInterface) (d : QpData) : qpOASESInterface :=
  mkqpOASES d (firstQPsolved_ s) (data_change_flags_ s)
    (old_QP_matrix_status_ s) (new_QP_matrix_status_ s) (x_qp_ s) (y_qp_ s) (status_ s).

Definition with_flags (s : qpOASESInterface) (f : UpdateFlags) : qpOASESInterface :=
  mkqpOASES (oa_data s) (firstQPsolved_ s) f (old_QP_matrix_status_ s) (new_QP_matrix_status_ s)
    (x_qp_ s) (y_qp_ s) (status_ s).

Definition with_status (s : qpOASESInterface) (o n : QPMatrixType) : qpOASESInterface :=
  mkqpOASES (oa_data s) (firstQPsolved_ s) (data_change_flags_ s) o n
    (x_qp_ s) (y_qp_ s) (status_ s).

(** [firstQPsolved_ = true]. *)
Definition set_first_solved (s : qpOASESInterface) : qpOASESInterface :=
  mkqpOASES (oa_data s) true (data_change_flags_ s) (old_QP_matrix_status_ s)
    (new_QP_matrix_status_ s) (x_qp_ s) (y_qp_ s) (status_ s).

(** [status_ = v]. *)
Definition with_return_status (s : qpOASESInterface) (v : QPReturnType) : qpOASESInterface :=
  mkqpOASES (oa_data s) (firstQPsolved_ s) (data_change_flags_ s) (old_QP_matrix_status_ s)
    (new_QP_matrix_status_ s) (x_qp_ s) (y_qp_ s) v.

(** The two solution buffers after [getPrimalSolution] and [getDualSolution]. *)
Definition with_solution (s : qpOASESInterface) (x y : list Q) : qpOASESInterface :=
  mkqpOASES (oa_data s) (firstQPsolved_ s) (data_change_flags_ s) (old_QP_matrix_status_ s)
    (new_QP_matrix_status_ s) x y (status_ s).

(** [if (firstQPsolved_ && !data_change_flags_.Update_bounds)
       data_change_flags_.Update_bounds = true;] *)
Definition raise_bounds (s : qpOASESInterface) : qpOASESInterface :=
  let f := data_change_flags_ s in
  if firstQPsolved_ s && negb (Update_bounds f)
  then with_flags s (mkUpdateFlags (Update_A f) (Update_H f) true
                       (Update_delta f) (Update_penalty f) (Update_g f))
  else s.

Definition raise_g (s : qpOASESInterface) : qpOASESInterface :=
  let f := data_change_flags_ s in
  if firstQPsolved_ s && negb (Update_g f)
  then with_flags s (mkUpdateFlags (Update_A f) (Update_H f) (Update_bounds f)
                       (Update_delta f) (Update_penalty f) true)
  else s.

Definition raise_H (s : qpOASESInterface) : qpOASESInterface :=
  let f := data_change_flags_ s in
  if firstQPsolved_ s && negb (Update_H f)
  then with_flags s (mkUpdateFlags (Update_A f) true (Update_bounds f)
                       (Update_delta f) (Update_penalty f) (Update_g f))
  else s.

Definition raise_A (s : qpOASESInterface) : qpOASESInterface :=
  let f := data_change_flags_ s in
  if firstQPsolved_ s && negb (Update_A f)
  then with_flags s (mkUpdateFlags true (Update_H f) (Update_bounds f)
                       (Update_delta f) (Update_penalty f) (Update_g f))
  else s.

(** [qpOASESInterface::set_lb] and the other setters. *)
Definition oa_set_lb (s : qpOASESInterface) (location : nat) (value : Q) :=
  let s := raise_bounds s in with_data s (qd_set_lb location value (oa_data s)).
Definition oa_set_ub (s : qpOASESInterface) (location : nat) (value : Q) :=
  let s := raise_bounds s in with_data s (qd_set_ub location value (oa_data s)).
Definition oa_set_lbA (s : qpOASESInterface) (location : nat) (value : Q) :=
  let s := raise_bounds s in with_data s (qd_set_lbA location value (oa_data s)).
Definition oa_set_ubA (s : qpOASESInterface) (location : nat) (value : Q) :=
  let s := raise_bounds s in with_data s (qd_set_ubA location value (oa_data s)).
Definition oa_set_g (s : qpOASESInterface) (location : nat) (value : Q) :=
  let s := raise_g s in with_data s (qd_set_g location value (oa_data s)).

(** [set_H_structure] converts the structure without raising a flag;
    [set_H_values] raises [Update_H]; likewise for [A]. *)
Definition oa_set_H_structure (s : qpOASESInterface) (rhs : SpTripletMat) :=
  with_data s (qd_set_H rhs (oa_data s)).
Definition oa_set_H_values (s : qpOASESInterface) (rhs : SpTripletMat) :=
  let s := raise_H s in with_data s (qd_set_H rhs (oa_data s)).
Definition oa_set_A_structure (s : qpOASESInterface) (rhs : SpTripletMat) (I : IdentityInfo) :=
  with_data s (qd_set_A rhs I (oa_data s)).
Definition oa_set_A_values (s : qpOASESInterface) (rhs : SpTripletMat) (I : IdentityInfo) :=
  let s := raise_A s in with_data s (qd_set_A rhs I (oa_data s)).

#[export] Instance qpOASES_instance : QPSolverInterface qpOASESInterface := {
  qp_data := oa_data;
  set_lb := oa_set_lb; set_ub := oa_set_ub; set_lbA := oa_set_lbA; set_ubA := oa_set_ubA;
  set_g := oa_set_g;
  set_H_structure := oa_set_H_structure; set_H_values := oa_set_H_values;
  set_A_structure := oa_set_A_structure; set_A_values := oa_set_A_values
}.

Lemma oa_data_raise (s : qpOASESInterface) :
  oa_data (raise_bounds s) = oa_data s /\ oa_data (raise_g s) = oa_data s /\
  oa_data (raise_H s) = oa_data s /\ oa_data (raise_A s) = oa_data s.
Proof.
  unfold raise_bounds, raise_g, raise_H, raise_A.
  repeat split; by destruct (_ && _).
Qed.

#[export] Instance qpOASES_laws : QPSolverInterfaceLaws qpOASESInterface.
Proof.
  split; intros; simpl;
    unfold oa_set_lb, oa_set_ub, oa_set_lbA, oa_set_ubA, oa_set_g, oa_set_H_structure,
      oa_set_H_values, oa_set_A_structure, oa_set_A_values; simpl;
    by rewrite ?(proj1 (oa_data_raise _)), ?(proj1 (proj2 (oa_data_raise _))),
      ?(proj1 (proj2 (proj2 (oa_data_raise _)))), ?(proj2 (proj2 (proj2 (oa_data_raise _)))).
Qed.

(** [reset_flags()]. *)
Definition reset_flags (s : qpOASESInterface) : qpOASESInterface := with_flags s no_flags.

(** [get_Matrix_change_status()]. *)
Definition matrix_status_of (f : UpdateFlags) : QPMatrixType :=
  if Update_A f || Update_H f then VARIED else FIXED.

Definition get_Matrix_change_status (s : qpOASESInterface) : qpOASESInterface :=
  if decide (old_QP_matrix_status_ s = UNDEFINED) then
    with_status s (matrix_status_of (data_change_flags_ s)) (new_QP_matrix_status_ s)
  else
    let old := if decide (new_QP_matrix_status_ s ≠ UNDEFINED)
               then new_QP_matrix_status_ s else old_QP_matrix_status_ s in
    with_status s old (matrix_status_of (data_change_flags_ s)).

(** The calls [optimizeQP] can make to qpOASES: [init] with every input,
    [hotstart] with new matrices, [hotstart] with new vectors only (the
    matrices of the previous solve are reused). *)
Inductive SolverCall := call_init | hotstart_matrices | hotstart_vectors.

#[export] Instance SolverCall_eq_dec : EqDecision SolverCall.
Proof. solve_decision. Defined.

(** The selection in the [else] branch of [optimizeQP], after
    [get_Matrix_change_status]; a cold [init] resets both statuses. *)
Definition select_call (s : qpOASESInterface) : SolverCall * qpOASESInterface :=
  let o := old_QP_matrix_status_ s in
  let n := new_QP_matrix_status_ s in
  if decide (n = UNDEFINED) then
    (if decide (o = FIXED) then hotstart_vectors else hotstart_matrices, s)
  else if decide (n = FIXED ∧ o = FIXED) then (hotstart_vectors, s)
  else if decide (n = VARIED ∧ o = VARIED) then (hotstart_matrices, s)
  else (call_init, with_status s UNDEFINED UNDEFINED).

(** The outcome of a call to the engine. *)
Record QpSolution := mkQpSolution {
  x_qp : list Q;           (** primal solution *)
  y_bounds : list Q;       (** multipliers of the variable bounds *)
  y_constr : list Q;       (** multipliers of the linear constraints *)
  qp_obj_value : Q
}.

Inductive QpResult := QpSolved (sol : QpSolution) | QpUnsolved (status : Exitflag).

(** ** The engine and the solve

    The qpOASES object [solver_] is an engine state of any type [E]; a
    call ([init] or [hotstart]) with a working-set limit [nWSR] on the
    data returns the engine's report and the new engine state.  The
    report carries what the code reads back: [getStatus()],
    [isInfeasible()], [isUnbounded()], the solution [getPrimalSolution]
    and [getDualSolution] copy out, and the number of working-set
    recalculations written back into [nWSR]. *)

(** [qpOASES::QProblemStatus]. *)
Inductive QProblemStatus :=
| QPS_NOTINITIALISED | QPS_PREPARINGAUXILIARYQP | QPS_AUXILIARYQPSOLVED
| QPS_PERFORMINGHOMOTOPY | QPS_HOMOTOPYQPSOLVED | QPS_SOLVED.

#[export] Instance QProblemStatus_eq_dec : EqDecision QProblemStatus.
Proof. solve_decision. Defined.

Record EngineRun := mkEngineRun {
  run_status : QProblemStatus;
  run_infeasible : bool;
  run_unbounded : bool;
  run_x : list Q;
  run_y : list Q;
  run_nWSR : nat
}.

(** [solver_->isSolved()]. *)
Definition isSolved (r : EngineRun) : bool := bool_decide (run_status r = QPS_SOLVED).

(** [getPrimalSolution] and [getDualSolution] copy the solution out only
    in the statuses qpOASES documents as solved ([QPS_SOLVED] and the two
    auxiliary-solved statuses); otherwise they return an error and leave
    the buffer as it was. *)
Definition solution_available (st : QProblemStatus) : bool :=
  match st with
  | QPS_AUXILIARYQPSOLVED | QPS_HOMOTOPYQPSOLVED | QPS_SOLVED => true
  | _ => false
  end.

Definition fetch_solution (s : qpOASESInterface) (r : EngineRun) : qpOASESInterface :=
  if solution_available (run_status r) then with_solution s (run_x r) (run_y r) else s.

(** [obtain_status()]: infeasibility and unboundedness first, then the
    [switch] on the final status, which has no case for [QPS_SOLVED]. *)
Definition obtain_status (st : QPReturnType) (r : EngineRun) : QPReturnType :=
  if run_infeasible r then QP_INFEASIBLE
  else if run_unbounded r then QP_UNBOUNDED
  else match run_status r with
       | QPS_NOTINITIALISED => QP_NOTINITIALISED
       | QPS_PREPARINGAUXILIARYQP => QP_PREPARINGAUXILIARYQP
       | QPS_AUXILIARYQPSOLVED => QP_AUXILIARYQPSOLVED
       | QPS_PERFORMINGHOMOTOPY => QP_PERFORMINGHOMOTOPY
       | QPS_HOMOTOPYQPSOLVED => QP_HOMOTOPYQPSOLVED
       | QPS_SOLVED => st
       end.

Definition update_status (s : qpOASESInterface) (r : EngineRun) : qpOASESInterface :=
  with_return_status s (obtain_status (status_ s) r).

(** The LP is given to qpOASES with a null Hessian. *)
Definition lp_data (d : QpData) : QpData :=
  mkQpData (qd_lb d) (qd_ub d) (qd_lbA d) (qd_ubA d) (qd_g d) None (qd_A d).

(** [whole-vector setters set_lb(rhs)], ...: the flag as the indexed
    setters, then [copy_vector]. *)
Definition oa_copy_lb (s : qpOASESInterface) (rhs : list Q) :=
  let s := raise_bounds s in let d := oa_data s in
  with_data s (mkQpData (copy_vector (qd_lb d) rhs) (qd_ub d) (qd_lbA d) (qd_ubA d) (qd_g d) (qd_H d) (qd_A d)).
Definition oa_copy_ub (s : qpOASESInterface) (rhs : list Q) :=
  let s := raise_bounds s in let d := oa_data s in
  with_data s (mkQpData (qd_lb d) (copy_vector (qd_ub d) rhs) (qd_lbA d) (qd_ubA d) (qd_g d) (qd_H d) (qd_A d)).
Definition oa_copy_lbA (s : qpOASESInterface) (rhs : list Q) :=
  let s := raise_bounds s in let d := oa_data s in
  with_data s (mkQpData (qd_lb d) (qd_ub d) (copy_vector (qd_lbA d) rhs) (qd_ubA d) (qd_g d) (qd_H d) (qd_A d)).
Definition oa_copy_ubA (s : qpOASESInterface) (rhs : list Q) :=
  let s := raise_bounds s in let d := oa_data s in
  with_data s (mkQpData (qd_lb d) (qd_ub d) (qd_lbA d) (copy_vector (qd_ubA d) rhs) (qd_g d) (qd_H d) (qd_A d)).
Definition oa_copy_g (s : qpOASESInterface) (rhs : list Q) :=
  let s := raise_g s in let d := oa_data s in
  with_data s (mkQpData (qd_lb d) (qd_ub d) (qd_lbA d) (qd_ubA d) (copy_vector (qd_g d) rhs) (qd_H d) (qd_A d)).

Section Optimize.
Context {E : Type}.
(** The qpOASES engine. *)
Variable engine : SolverCall -> nat -> QpData -> E -> EngineRun * E.
(** [options_->qp_maxiter] and [options_->lp_maxiter]. *)
Variables qp_maxiter lp_maxiter : nat.

(** The result of a routine: it returns, with the interface, the engine,
    the counter [stats->qp_iter] and the engine's last report (what
    [isSolved()] reads next), or it throws [QP_NOT_OPTIMAL] (for [QP])
    or [LP_NOT_OPTIMAL] (for [LP]). *)
Inductive SolveOutcome :=
| SolveOk (s : qpOASESInterface) (e : E) (qp_iter : nat) (r : EngineRun)
| SolveNotOptimal (qptype : QPType) (s : qpOASESInterface) (e : E) (qp_iter : nat).

(** [handler_error(qptype, stats)]: one fresh [init] with [nWSR =
    options_->lp_maxiter] (without the Hessian for an LP), [obtain_status],
    both matrix statuses reset, the iterations counted; a second failure
    throws. *)
Definition handler_error (qptype : QPType) (s : qpOASESInterface) (e : E) (it : nat) : SolveOutcome :=
  let d := if decide (qptype = LP) then lp_data (oa_data s) else oa_data s in
  let '(r, e) := engine call_init lp_maxiter d e in
  let s := with_status (update_status s r) UNDEFINED UNDEFINED in
  let it := (it + run_nWSR r)%nat in
  if isSolved r then SolveOk s e it r else SolveNotOptimal qptype s e it.

(** The end of [optimizeQP]: [reset_flags()], the iterations [nWSR] of
    the first call counted, the solution copied out, and on failure
    [obtain_status()] and [handler_error(QP)]. *)
Definition optimizeQP_tail (nWSR : nat) (o : SolveOutcome) : SolveOutcome :=
  match o with
  | SolveOk s e it r =>
      let s := fetch_solution (reset_flags s) r in
      let it := (it + nWSR)%nat in
      if isSolved r then SolveOk s e it r else handler_error QP (update_status s r) e it
  | o => o
  end.

(** [optimizeQP(stats)]. *)
Definition optimizeQP (s : qpOASESInterface) (e : E) (it : nat) : SolveOutcome :=
  if negb (firstQPsolved_ s) then
    let '(r, e) := engine call_init qp_maxiter (oa_data s) e in
    optimizeQP_tail (run_nWSR r)
      (if isSolved r then SolveOk (set_first_solved s) e it r
       else handler_error QP (update_status s r) e it)
  else
    let '(call, s) := select_call (get_Matrix_change_status s) in
    let '(r, e) := engine call qp_maxiter (oa_data s) e in
    optimizeQP_tail (run_nWSR r) (SolveOk s e it r).

(** [optimizeLP(stats)]: the first solve only records [firstQPsolved_];
    later solves reset the flags, copy the solution out, recover a
    failure with [handler_error(LP)] and count the iterations. *)
Definition optimizeLP (s : qpOASESInterface) (e : E) (it : nat) : SolveOutcome :=
  if negb (firstQPsolved_ s) then
    let '(r, e) := engine call_init lp_maxiter (lp_data (oa_data s)) e in
    if isSolved r then SolveOk (set_first_solved s) e it r
    else handler_error LP (update_status s r) e it
  else
    let '(call, s) := select_call (get_Matrix_change_status s) in
    let '(r, e) := engine call lp_maxiter (lp_data (oa_data s)) e in
    let s := fetch_solution (reset_flags s) r in
    match (if isSolved r then SolveOk s e it r else handler_error LP (update_status s r) e it) with
    | SolveOk s e it r' => SolveOk s e (it + run_nWSR r)%nat r'
    | o => o
    end.
End Optimize.

Arguments SolveOutcome : clear implicits.

(** ** Lemmas *)

Lemma oa_data_with_status s o n : oa_data (with_status s o n) = oa_data s.
Proof. done. Qed.

Lemma oa_data_get_Matrix_change_status s : oa_data (get_Matrix_change_status s) = oa_data s.
Proof. unfold get_Matrix_change_status. by repeat case_decide. Qed.

Lemma oa_data_select_call s : oa_data (snd (select_call s)) = oa_data s.
Proof. unfold select_call. by repeat case_decide. Qed.

(** When a matrix changed, [get_Matrix_change_status] records [VARIED] in
    the status it updates. *)
Lemma matrix_status_varied f : Update_A f || Update_H f = true -> matrix_status_of f = VARIED.
Proof. unfold matrix_status_of. by intros ->. Qed.

Lemma isSolved_true r : isSolved r = true <-> run_status r = QPS_SOLVED.
Proof. unfold isSolved. by rewrite bool_decide_eq_true. Qed.

(** A solved report makes its solution available. *)
Lemma fetch_solution_solved s r :
  isSolved r = true -> fetch_solution s r = with_solution s (run_x r) (run_y r).
Proof. rewrite isSolved_true. unfold fetch_solution. by intros ->. Qed.

Lemma oa_data_fetch_solution s r : oa_data (fetch_solution s r) = oa_data s.
Proof. unfold fetch_solution. by destruct (solution_available _). Qed.

Lemma oa_data_update_status s r : oa_data (update_status s r) = oa_data s.
Proof. done. Qed.

Lemma oa_data_reset_flags s : oa_data (reset_flags s) = oa_data s.
Proof. done. Qed.

#[export] Hint Rewrite oa_data_fetch_solution oa_data_update_status oa_data_reset_flags
  oa_data_with_status : sqp_rw.

(** A throw of [handler_error]: its [init] on the unchanged data failed,
    and the status is that [init]'s [obtain_status]. *)
Lemma handler_error_throw {E} (engine : SolverCall -> nat -> QpData -> E -> EngineRun * E)
    lp_maxiter t s e it t' s' e' it' :
  handler_error engine lp_maxiter t s e it = SolveNotOptimal t' s' e' it' ->
  t' = t ∧ oa_data s' = oa_data s ∧
  exists r, engine call_init lp_maxiter (if decide (t = LP) then lp_data (oa_data s) else oa_data s) e
              = (r, e') ∧ isSolved r = false ∧ status_ s' = obtain_status (status_ s) r.
Proof.
  unfold handler_error. destruct (engine call_init _ _ _) as [r e1] eqn:He.
  destruct (isSolved r) eqn:Hs; [done|]. intros [= <- <- <- _]. eauto 10.
Qed.

(** A return of [handler_error] leaves the engine solved. *)
Lemma handler_error_ok_solved {E} (engine : SolverCall -> nat -> QpData -> E -> EngineRun * E)
    lp_maxiter t s e it s' e' it' r :
  handler_error engine lp_maxiter t s e it = SolveOk s' e' it' r -> isSolved r = true.
Proof.
  unfold handler_error. destruct (engine call_init _ _ _) as [r0 e1].
  destruct (isSolved r0) eqn:Hs; [|done]. by intros [= _ _ _ <-].
Qed.

(** Choosing the call touches neither the data nor the solution buffers. *)
Lemma buffers_select_call s :
  x_qp_ (snd (select_call (get_Matrix_change_status s))) = x_qp_ s ∧
  y_qp_ (snd (select_call (get_Matrix_change_status s))) = y_qp_ s.
Proof. unfold select_call, get_Matrix_change_status. by repeat case_decide. Qed.

(** ** Theorems *)

(** C17: Whatever the two matrix statuses are, if the Hessian or the
    Jacobian was changed since the last solve ([Update_H] or [Update_A]
    raised), [optimizeQP] never calls the [hotstart] that reuses the old
    matrices: it passes the new matrices or re-initialises. *)
Theorem select_call_uses_new_matrices (s : qpOASESInterface) :
  Update_A (data_change_flags_ s) || Update_H (data_change_flags_ s) = true ->
  fst (select_call (get_Matrix_change_status s)) ≠ hotstart_vectors.
Proof.
  intros Hf. pose proof (matrix_status_varied _ Hf) as Hv.
  unfold get_Matrix_change_status.
  destruct (decide (old_QP_matrix_status_ s = UNDEFINED));
    [|destruct (decide (new_QP_matrix_status_ s ≠ UNDEFINED))];
    unfold select_call; simpl; rewrite Hv; repeat case_decide; naive_solver.
Qed.

(** An interface after a first solve, both matrices fixed, whose Hessian
    has just been changed. *)
Definition ex_oa_changed_H : qpOASESInterface :=
  with_flags (with_status (set_first_solved (qpOASESInterface_new 1 1)) FIXED FIXED)
    (mkUpdateFlags false true false false false false).

(** Engine reports for the witnesses: a solved QP of the sizes of
    [qpOASESInterface_new 1 1], and an infeasible one. *)
Definition ex_run_ok : EngineRun := mkEngineRun QPS_SOLVED false false [7; 0; 0] [1; 2; 3; 4] 3.
Definition ex_run_fail : EngineRun := mkEngineRun QPS_PERFORMINGHOMOTOPY true false [9; 9; 9] [9; 9; 9; 9] 5.

Definition ex_engine_ok (c : SolverCall) (n : nat) (d : QpData) (e : unit) : EngineRun * unit :=
  (ex_run_ok, tt).
Definition ex_engine_fail (c : SolverCall) (n : nat) (d : QpData) (e : unit) : EngineRun * unit :=
  (ex_run_fail, tt).
(** Hot starts fail, a cold [init] succeeds. *)
Definition ex_engine_recover (c : SolverCall) (n : nat) (d : QpData) (e : unit) : EngineRun * unit :=
  match c with call_init => (ex_run_ok, tt) | _ => (ex_run_fail, tt) end.

Lemma select_call_uses_new_matrices_witness :
  Update_A (data_change_flags_ ex_oa_changed_H) || Update_H (data_change_flags_ ex_oa_changed_H) = true /\
  fst (select_call (get_Matrix_change_status ex_oa_changed_H)) ≠ hotstart_vectors.
Proof.
  split; [reflexivity|]. apply select_call_uses_new_matrices. reflexivity.
Defined.

(** C18: [optimizeQP] throws only [QP_NOT_OPTIMAL], and only after a cold
    [init] of the unchanged QP data with the limit [lp_maxiter] of
    [handler_error] has failed; the data is kept, and the status is that
    [init]'s [obtain_status]. *)
Theorem optimizeQP_failure_after_cold_init {E} engine qp_maxiter lp_maxiter
    (s s' : qpOASESInterface) (e e' : E) it it' t :
  optimizeQP engine qp_maxiter lp_maxiter s e it = SolveNotOptimal t s' e' it' ->
  t = QP ∧ oa_data s' = oa_data s ∧
  exists e0 r st, engine call_init lp_maxiter (oa_data s) e0 = (r, e') ∧ isSolved r = false ∧
    status_ s' = obtain_status st r.
Proof.
  unfold optimizeQP. destruct (firstQPsolved_ s); simpl.
  - destruct (select_call (get_Matrix_change_status s)) as [call s2] eqn:Hsel.
    pose proof (oa_data_select_call (get_Matrix_change_status s)) as Hd.
    rewrite Hsel, oa_data_get_Matrix_change_status in Hd. simpl in Hd.
    destruct (engine call qp_maxiter (oa_data s2) e) as [r e1]. simpl.
    destruct (isSolved r); [done|]. intros (-> & Hd' & r' & Hr & Hs & Hst)%handler_error_throw.
    rewrite decide_False in Hr by done. autorewrite with sqp_rw in *. rewrite Hd in Hd', Hr. eauto 10.
  - destruct (engine call_init qp_maxiter (oa_data s) e) as [r e1].
    destruct (isSolved r) eqn:Hr; simpl; [by rewrite Hr|].
    destruct (handler_error _ _ _ _ _ _) eqn:Hh; simpl.
    + by rewrite (handler_error_ok_solved _ _ _ _ _ _ _ _ _ _ Hh).
    + intros [= <- <- <- <-]. apply handler_error_throw in Hh as (-> & Hd' & r' & Hr' & Hs & Hst).
      rewrite decide_False in Hr' by done. autorewrite with sqp_rw in *. eauto 10.
Qed.

Lemma optimizeQP_failure_after_cold_init_witness :
  let s := qpOASESInterface_new 1 1 in
  let s' := with_return_status s QP_INFEASIBLE in
  optimizeQP ex_engine_fail 10 20 s tt 0 = SolveNotOptimal QP s' tt 5 ∧
  (QP = QP ∧ oa_data s' = oa_data s ∧
   exists e0 r st, ex_engine_fail call_init 20 (oa_data s) e0 = (r, tt) ∧
     isSolved r = false ∧ status_ s' = obtain_status st r).
Proof.
  intros s s'. split; [reflexivity|].
  apply (optimizeQP_failure_after_cold_init ex_engine_fail 10 20 s s' tt tt 0 5 QP). reflexivity.
Defined.


(** A first [optimizeQP] whose [init] solves the QP marks the
    interface as solved, copies the solution into [x_qp_] and [y_qp_],
    clears every change flag and counts the [init]'s iterations. *)
Theorem optimizeQP_first_solve {E} engine qp_maxiter lp_maxiter s (e e1 : E) it r :
  firstQPsolved_ s = false ->
  engine call_init qp_maxiter (oa_data s) e = (r, e1) -> isSolved r = true ->
  exists s', optimizeQP engine qp_maxiter lp_maxiter s e it = SolveOk s' e1 (it + run_nWSR r) r ∧
    x_qp_ s' = run_x r ∧ y_qp_ s' = run_y r ∧ data_change_flags_ s' = no_flags ∧
    firstQPsolved_ s' = true ∧ oa_data s' = oa_data s.
Proof.
  intros Hf He Hr. unfold optimizeQP. rewrite Hf, He. simpl. rewrite Hr. simpl.
  rewrite Hr, fetch_solution_solved by done. by eexists.
Qed.

Lemma optimizeQP_first_solve_witness :
  exists s', optimizeQP ex_engine_ok 10 20 (qpOASESInterface_new 1 1) tt 0 = SolveOk s' tt (0 + 3) ex_run_ok ∧
    x_qp_ s' = [7; 0; 0] ∧ y_qp_ s' = [1; 2; 3; 4] ∧ data_change_flags_ s' = no_flags ∧
    firstQPsolved_ s' = true ∧ oa_data s' = oa_data (qpOASESInterface_new 1 1).
Proof. apply (optimizeQP_first_solve ex_engine_ok 10 20 (qpOASESInterface_new 1 1) tt tt 0 ex_run_ok); reflexivity. Defined.

(** C15: A first [optimizeLP] whose [init] solves the LP only records
    [firstQPsolved_]: the solution buffers [x_qp_] and [y_qp_] keep what
    they held, the change flags stay raised and no iteration is counted,
    unlike the first [optimizeQP]. *)
Theorem optimizeLP_first_solve_keeps_buffers {E} engine lp_maxiter s (e e1 : E) it r :
  firstQPsolved_ s = false ->
  engine call_init lp_maxiter (lp_data (oa_data s)) e = (r, e1) -> isSolved r = true ->
  exists s', optimizeLP engine lp_maxiter s e it = SolveOk s' e1 it r ∧
    x_qp_ s' = x_qp_ s ∧ y_qp_ s' = y_qp_ s ∧ data_change_flags_ s' = data_change_flags_ s ∧
    firstQPsolved_ s' = true.
Proof.
  intros Hf He Hr. unfold optimizeLP. rewrite Hf, He. simpl. rewrite Hr. by eexists.
Qed.

Lemma optimizeLP_first_solve_keeps_buffers_witness :
  exists s', optimizeLP ex_engine_ok 20 (qpOASESInterface_new 1 1) tt 0 = SolveOk s' tt 0 ex_run_ok ∧
    x_qp_ s' = [0; 0; 0] ∧ y_qp_ s' = [0; 0; 0; 0] ∧ data_change_flags_ s' = no_flags ∧
    firstQPsolved_ s' = true.
Proof. apply (optimizeLP_first_solve_keeps_buffers ex_engine_ok 20 (qpOASESInterface_new 1 1) tt tt 0 ex_run_ok); reflexivity. Defined.

(** C14: When a hot-started [optimizeQP] fails without a solution and the
    cold [init] of [handler_error] then solves the QP, [optimizeQP]
    returns normally but [x_qp_] and [y_qp_] still hold the previous
    solution: they were copied out before the recovery and never again. *)
Theorem optimizeQP_recovered_solution_stale {E} engine qp_maxiter lp_maxiter s (e e1 e2 : E) it r r2 :
  firstQPsolved_ s = true ->
  engine (fst (select_call (get_Matrix_change_status s))) qp_maxiter (oa_data s) e = (r, e1) ->
  solution_available (run_status r) = false ->
  engine call_init lp_maxiter (oa_data s) e1 = (r2, e2) -> isSolved r2 = true ->
  exists s', optimizeQP engine qp_maxiter lp_maxiter s e it =
               SolveOk s' e2 (it + run_nWSR r + run_nWSR r2) r2 ∧
    x_qp_ s' = x_qp_ s ∧ y_qp_ s' = y_qp_ s.
Proof.
  intros Hf He Ha He2 Hr2. unfold optimizeQP. rewrite Hf. simpl.
  pose proof (oa_data_select_call (get_Matrix_change_status s)) as Hd.
  pose proof (buffers_select_call s) as [Hx Hy].
  rewrite oa_data_get_Matrix_change_status in Hd.
  destruct (select_call (get_Matrix_change_status s)) as [call s2] eqn:Hsel. simpl in *.
  rewrite Hd, He. simpl.
  assert (Hr : isSolved r = false).
  { apply not_true_iff_false. rewrite isSolved_true. intros Hs. by rewrite Hs in Ha. }
  rewrite Hr. unfold handler_error. simpl. autorewrite with sqp_rw. rewrite Hd, He2. simpl.
  rewrite Hr2. eexists. split; [done|]. unfold fetch_solution. by rewrite Ha.
Qed.

Lemma optimizeQP_recovered_solution_stale_witness :
  exists s', optimizeQP ex_engine_recover 10 20 (set_first_solved (qpOASESInterface_new 1 1)) tt 0 =
               SolveOk s' tt (0 + 5 + 3) ex_run_ok ∧
    x_qp_ s' = [0; 0; 0] ∧ y_qp_ s' = [0; 0; 0; 0].
Proof.
  apply (optimizeQP_recovered_solution_stale ex_engine_recover 10 20 (set_first_solved (qpOASESInterface_new 1 1)) tt tt tt 0 ex_run_fail ex_run_ok);
    reflexivity.
Defined.

(** After a first [init] that fails and is recovered by [handler_error],
    [firstQPsolved_] stays [false]: the next solve is again a cold [init]. *)
Lemma recovered_first_solve_stays_cold :
  let eng := fun (_ : SolverCall) (n : nat) (_ : QpData) (e : unit) =>
               if Nat.eqb n 10 then (ex_run_fail, e) else (ex_run_ok, e) in
  exists s' it r, optimizeQP eng 10 20 (qpOASESInterface_new 1 1) tt 0 = SolveOk s' tt it r ∧
                  firstQPsolved_ s' = false.
Proof. do 3 eexists. split; reflexivity. Qed.
