(* ===== verification/OldInterface.v ===== *)
(** * The older qpOASES interface (src/src/QPsolverInterface.cpp)

    QPsolverInterface.cpp is an earlier version of the class
    [qpOASESInterface]: the same vectors and matrices, a flag
    [firstQPsolved] and a status [status_], but no change flags, no matrix
    statuses and no recovery.  [allocate] creates the Hessian [H_] only for
    a QP; [optimizeQP] and [optimizeLP] call [init] for the first problem
    and [hotstart] with both matrices afterwards, and throw
    [QP_NOT_OPTIMAL] after [get_status()] as soon as qpOASES fails.  The
    getters read the engine directly.

    The module [Old] holds the state and the operations; the engine is the
    one of SolverInterface.v.  Both versions' setters are reduced to the
    [QpData] semantics ([old_run_data], [new_run_data]); the theorems
    compare their status codes, which differ outside the cases listed in
    [status_codes_agree], and show that the old [optimizeQP] dereferences
    the Hessian of an LP and never retries. *)

From S2P Require Import Prelude SqpTypes DenseVector SparseMatrix SolverInterface.
Local Open Scope Q_scope.

(** The two identity blocks an [Identity2Info] describes, as the
    descriptor the Jacobian setters take (the values are set by the
    builder, not by the descriptor). *)
Definition identity2_blocks (I : Identity2Info) : IdentityInfo :=
  [mkIdentityBlock (irow1 I) (jcol1 I) (isize I) None;
   mkIdentityBlock (irow2 I) (jcol2 I) (isize I) None].

(** The whole-vector copies on the QP data. *)
Definition qd_copy_lb (rhs : list Q) (d : QpData) : QpData :=
  mkQpData (copy_vector (qd_lb d) rhs) (qd_ub d) (qd_lbA d) (qd_ubA d) (qd_g d) (qd_H d) (qd_A d).
Definition qd_copy_ub (rhs : list Q) (d : QpData) : QpData :=
  mkQpData (qd_lb d) (copy_vector (qd_ub d) rhs) (qd_lbA d) (qd_ubA d) (qd_g d) (qd_H d) (qd_A d).
Definition qd_copy_lbA (rhs : list Q) (d : QpData) : QpData :=
  mkQpData (qd_lb d) (qd_ub d) (copy_vector (qd_lbA d) rhs) (qd_ubA d) (qd_g d) (qd_H d) (qd_A d).
Definition qd_copy_ubA (rhs : list Q) (d : QpData) : QpData :=
  mkQpData (qd_lb d) (qd_ub d) (qd_lbA d) (copy_vector (qd_ubA d) rhs) (qd_g d) (qd_H d) (qd_A d).
Definition qd_copy_g (rhs : list Q) (d : QpData) : QpData :=
  mkQpData (qd_lb d) (qd_ub d) (qd_lbA d) (qd_ubA d) (copy_vector (qd_g d) rhs) (qd_H d) (qd_A d).

(** The setter calls both versions offer. *)
Inductive SetterCall :=
| c_lb (i : nat) (v : Q) | c_ub (i : nat) (v : Q)
| c_lbA (i : nat) (v : Q) | c_ubA (i : nat) (v : Q) | c_g (i : nat) (v : Q)
| c_H_structure (h : SpTripletMat) | c_H_values (h : SpTripletMat)
| c_A_structure (a : SpTripletMat) (I : Identity2Info)
| c_A_values (a : SpTripletMat) (I : Identity2Info)
| c_copy_lb (rhs : list Q) | c_copy_ub (rhs : list Q) | c_copy_lbA (rhs : list Q)
| c_copy_ubA (rhs : list Q) | c_copy_g (rhs : list Q).

(** What a call does to the QP. *)
Definition qd_call (c : SetterCall) (d : QpData) : QpData :=
  match c with
  | c_lb i v => qd_set_lb i v d | c_ub i v => qd_set_ub i v d
  | c_lbA i v => qd_set_lbA i v d | c_ubA i v => qd_set_ubA i v d
  | c_g i v => qd_set_g i v d
  | c_H_structure h | c_H_values h => qd_set_H h d
  | c_A_structure a ii | c_A_values a ii => qd_set_A a (identity2_blocks ii) d
  | c_copy_lb rhs => qd_copy_lb rhs d | c_copy_ub rhs => qd_copy_ub rhs d
  | c_copy_lbA rhs => qd_copy_lbA rhs d | c_copy_ubA rhs => qd_copy_ubA rhs d
  | c_copy_g rhs => qd_copy_g rhs d
  end.

(** The same call on the newer interface. *)
Definition new_call (c : SetterCall) (s : qpOASESInterface) : qpOASESInterface :=
  match c with
  | c_lb i v => oa_set_lb s i v | c_ub i v => oa_set_ub s i v
  | c_lbA i v => oa_set_lbA s i v | c_ubA i v => oa_set_ubA s i v
  | c_g i v => oa_set_g s i v
  | c_H_structure h => oa_set_H_structure s h | c_H_values h => oa_set_H_values s h
  | c_A_structure a ii => oa_set_A_structure s a (identity2_blocks ii)
  | c_A_values a ii => oa_set_A_values s a (identity2_blocks ii)
  | c_copy_lb rhs => oa_copy_lb s rhs | c_copy_ub rhs => oa_copy_ub s rhs
  | c_copy_lbA rhs => oa_copy_lbA s rhs | c_copy_ubA rhs => oa_copy_ubA s rhs
  | c_copy_g rhs => oa_copy_g s rhs
  end.

Module Old.

Record qpOASESInterface := mkOld {
  od_data : QpData;
  (** [H_] is allocated ([qptype != LP]). *)
  od_H : bool;
  od_firstQPsolved : bool;
  od_status : QPReturnType
}.

(** [allocate] and the constructor ([status_(UNSOLVED)]; [firstQPsolved]
    starts [false], its initialiser being in the header, which is not
    among the sources). *)
Definition qpOASESInterface_new (nVar nCon : nat) (qptype : QPType) : qpOASESInterface :=
  let nVar_QP := (2 * nCon + nVar)%nat in
  mkOld (mkQpData (replicate nVar_QP 0) (replicate nVar_QP 0) (replicate nCon 0)
                  (replicate nCon 0) (replicate nVar_QP 0) None None)
        (bool_decide (qptype ≠ LP)) false UNSOLVED.

Definition with_data (s : qpOASESInterface) (d : QpData) : qpOASESInterface :=
  mkOld d (od_H s) (od_firstQPsolved s) (od_status s).

(** The setters: [lb_->setValueAt(location, value)], ..., the structure
    and values of [H_] and [A_], and the [copy_vector] setters; none of
    them records a change. *)
Definition set_lb (s : qpOASESInterface) (location : nat) (value : Q) :=
  with_data s (qd_set_lb location value (od_data s)).
Definition set_ub (s : qpOASESInterface) (location : nat) (value : Q) :=
  with_data s (qd_set_ub location value (od_data s)).
Definition set_lbA (s : qpOASESInterface) (location : nat) (value : Q) :=
  with_data s (qd_set_lbA location value (od_data s)).
Definition set_ubA (s : qpOASESInterface) (location : nat) (value : Q) :=
  with_data s (qd_set_ubA location value (od_data s)).
Definition set_g (s : qpOASESInterface) (location : nat) (value : Q) :=
  with_data s (qd_set_g location value (od_data s)).
Definition set_H_structure (s : qpOASESInterface) (rhs : SpTripletMat) :=
  with_data s (qd_set_H rhs (od_data s)).
Definition set_H_values (s : qpOASESInterface) (rhs : SpTripletMat) :=
  with_data s (qd_set_H rhs (od_data s)).
Definition set_A_structure (s : qpOASESInterface) (rhs : SpTripletMat) (I_info : Identity2Info) :=
  with_data s (qd_set_A rhs (identity2_blocks I_info) (od_data s)).
Definition set_A_values (s : qpOASESInterface) (rhs : SpTripletMat) (I_info : Identity2Info) :=
  with_data s (qd_set_A rhs (identity2_blocks I_info) (od_data s)).
Definition copy_ub (s : qpOASESInterface) (rhs : list Q) := with_data s (qd_copy_ub rhs (od_data s)).
Definition copy_lb (s : qpOASESInterface) (rhs : list Q) := with_data s (qd_copy_lb rhs (od_data s)).
Definition copy_lbA (s : qpOASESInterface) (rhs : list Q) := with_data s (qd_copy_lbA rhs (od_data s)).
Definition copy_ubA (s : qpOASESInterface) (rhs : list Q) := with_data s (qd_copy_ubA rhs (od_data s)).
Definition copy_g (s : qpOASESInterface) (rhs : list Q) := with_data s (qd_copy_g rhs (od_data s)).

Definition call (c : SetterCall) (s : qpOASESInterface) : qpOASESInterface :=
  match c with
  | c_lb i v => set_lb s i v | c_ub i v => set_ub s i v
  | c_lbA i v => set_lbA s i v | c_ubA i v => set_ubA s i v | c_g i v => set_g s i v
  | c_H_structure h => set_H_structure s h | c_H_values h => set_H_values s h
  | c_A_structure a ii => set_A_structure s a ii | c_A_values a ii => set_A_values s a ii
  | c_copy_lb rhs => copy_lb s rhs | c_copy_ub rhs => copy_ub s rhs
  | c_copy_lbA rhs => copy_lbA s rhs | c_copy_ubA rhs => copy_ubA s rhs
  | c_copy_g rhs => copy_g s rhs
  end.

(** [get_status()]: [QPS_NOTINITIALISED] first, then infeasibility and
    unboundedness, and [QP_UNKNOWN_ERROR] for everything else. *)
Definition get_status (r : EngineRun) : QPReturnType :=
  if bool_decide (run_status r = QPS_NOTINITIALISED) then QP_NOTINITIALISED
  else if run_infeasible r then QP_INFEASIBLE
  else if run_unbounded r then QP_UNBOUNDED
  else QP_UNKNOWN_ERROR.

Definition with_status (s : qpOASESInterface) (r : EngineRun) : qpOASESInterface :=
  mkOld (od_data s) (od_H s) (od_firstQPsolved s) (get_status r).

(** [getStatus()]. *)
Definition getStatus (s : qpOASESInterface) : QPReturnType := od_status s.

(** [get_optimal_solution(p_k)] and [get_multipliers(y_k)] read the
    engine: the solution is copied only when qpOASES has one. *)
Definition get_optimal_solution (r : EngineRun) (p_k : list Q) : list Q :=
  if solution_available (run_status r) then run_x r else p_k.
Definition get_multipliers (r : EngineRun) (y_k : list Q) : list Q :=
  if solution_available (run_status r) then run_y r else y_k.

Section Optimize.
Context {E : Type}.
Variable engine : SolverCall -> nat -> QpData -> E -> EngineRun * E.
Variables qp_maxiter lp_maxiter : nat.

(** A solve returns (with the engine's last report), throws
    [QP_NOT_OPTIMAL], or dereferences the null [H_] of an interface
    allocated for an LP. *)
Inductive Outcome :=
| Solved (s : qpOASESInterface) (e : E) (qp_iter : nat) (r : EngineRun)
| NotOptimal (s : qpOASESInterface) (e : E) (qp_iter : nat)
| NullHessian.

(** The body shared by [optimizeQP] and [optimizeLP]: [init] for the
    first problem, [hotstart] with both matrices afterwards; a failure
    sets the status and throws; a success counts the iterations. *)
Definition solve (nWSR : nat) (d : QpData) (s : qpOASESInterface) (e : E) (it : nat) : Outcome :=
  let '(r, e) := engine (if od_firstQPsolved s then hotstart_matrices else call_init) nWSR d e in
  if isSolved r then
    Solved (if od_firstQPsolved s then s else mkOld (od_data s) (od_H s) true (od_status s))
           e (it + run_nWSR r) r
  else NotOptimal (with_status s r) e it.

(** [optimizeQP(stats, options)]: converts [H_] first. *)
Definition optimizeQP (s : qpOASESInterface) (e : E) (it : nat) : Outcome :=
  if od_H s then solve qp_maxiter (od_data s) s e it else NullHessian.

(** [optimizeLP(stats, options)]: a null Hessian and [lp_maxiter]. *)
Definition optimizeLP (s : qpOASESInterface) (e : E) (it : nat) : Outcome :=
  solve lp_maxiter (lp_data (od_data s)) s e it.
End Optimize.

Arguments Outcome : clear implicits.

End Old.

(** A sequence of setter calls on each version, and on the data. *)
Definition old_run (cs : list SetterCall) (s : Old.qpOASESInterface) : Old.qpOASESInterface :=
  fold_left (fun s c => Old.call c s) cs s.
Definition new_run (cs : list SetterCall) (s : qpOASESInterface) : qpOASESInterface :=
  fold_left (fun s c => new_call c s) cs s.
Definition qd_run (cs : list SetterCall) (d : QpData) : QpData :=
  fold_left (fun d c => qd_call c d) cs d.

(** ** Lemmas *)

Lemma oa_data_copy s rhs :
  oa_data (oa_copy_lb s rhs) = qd_copy_lb rhs (oa_data s) ∧
  oa_data (oa_copy_ub s rhs) = qd_copy_ub rhs (oa_data s) ∧
  oa_data (oa_copy_lbA s rhs) = qd_copy_lbA rhs (oa_data s) ∧
  oa_data (oa_copy_ubA s rhs) = qd_copy_ubA rhs (oa_data s) ∧
  oa_data (oa_copy_g s rhs) = qd_copy_g rhs (oa_data s).
Proof.
  unfold oa_copy_lb, oa_copy_ub, oa_copy_lbA, oa_copy_ubA, oa_copy_g. simpl.
  by rewrite ?(proj1 (oa_data_raise s)), ?(proj1 (proj2 (oa_data_raise s))).
Qed.

(** One call of the newer interface, seen through its data. *)
Lemma new_call_data c s : oa_data (new_call c s) = qd_call c (oa_data s).
Proof.
  destruct c; simpl;
    first [ exact (set_lb_law s _ _) | exact (set_ub_law s _ _) | exact (set_lbA_law s _ _)
          | exact (set_ubA_law s _ _) | exact (set_g_law s _ _) | exact (set_H_structure_law s _)
          | exact (set_H_values_law s _) | exact (set_A_structure_law s _ _)
          | exact (set_A_values_law s _ _) | apply oa_data_copy ].
Qed.

(** One call of the older interface, seen through its data. *)
Lemma old_call_data c s : Old.od_data (Old.call c s) = qd_call c (Old.od_data s).
Proof. by destruct c. Qed.

(** The old solve calls the engine once. *)
Lemma old_solve_cases {E} (engine : SolverCall -> nat -> QpData -> E -> EngineRun * E) nWSR d s e it :
  let c := if Old.od_firstQPsolved s then hotstart_matrices else call_init in
  let r := fst (engine c nWSR d e) in
  Old.solve engine nWSR d s e it =
    if isSolved r then
      Old.Solved (if Old.od_firstQPsolved s then s
                  else Old.mkOld (Old.od_data s) (Old.od_H s) true (Old.od_status s))
                 (snd (engine c nWSR d e)) (it + run_nWSR r) r
    else Old.NotOptimal (Old.with_status s r) (snd (engine c nWSR d e)) it.
Proof. unfold Old.solve. by destruct (engine _ _ _ _). Qed.


(** Running calls commutes with the data view. *)
Lemma old_run_data cs s : Old.od_data (old_run cs s) = qd_run cs (Old.od_data s).
Proof.
  revert s. induction cs as [|c cs IH]; intros s; [done|]. simpl. by rewrite IH, old_call_data.
Qed.

Lemma new_run_data cs s : oa_data (new_run cs s) = qd_run cs (oa_data s).
Proof.
  revert s. induction cs as [|c cs IH]; intros s; [done|]. simpl. by rewrite IH, new_call_data.
Qed.

(** ** Theorems *)

(** C27: The status codes of the two versions ([obtain_status] of the
    newer one, [get_status] of the older one) agree exactly when the
    engine is not initialised and neither infeasible nor unbounded, when
    it is initialised and infeasible or unbounded, or when it reports a
    solved problem and the newer version's previous status was
    [QP_UNKNOWN_ERROR]: on an infeasible engine that is not initialised
    and on the auxiliary and homotopy statuses they differ. *)
Theorem status_codes_agree st r :
  obtain_status st r = Old.get_status r <->
  (run_status r = QPS_NOTINITIALISED ∧ run_infeasible r = false ∧ run_unbounded r = false) ∨
  (run_status r ≠ QPS_NOTINITIALISED ∧ (run_infeasible r = true ∨ run_unbounded r = true)) ∨
  (run_status r = QPS_SOLVED ∧ run_infeasible r = false ∧ run_unbounded r = false ∧
   st = QP_UNKNOWN_ERROR).
Proof.
  unfold obtain_status, Old.get_status.
  destruct (run_status r), (run_infeasible r), (run_unbounded r); simpl;
    intuition congruence.
Qed.

(** C28: The older [optimizeQP] makes a single attempt: on an interface
    allocated for an LP it dereferences the null Hessian, and when the
    one [init] or [hotstart] fails it throws [QP_NOT_OPTIMAL] at once with
    the status of [get_status], counting no iteration, where the newer
    version retries with a cold [init]. *)
Theorem old_optimizeQP_single_attempt {E} engine qp_maxiter s (e e1 : E) it r nVar nCon :
  Old.od_H s = true ->
  engine (if Old.od_firstQPsolved s then hotstart_matrices else call_init) qp_maxiter (Old.od_data s) e
    = (r, e1) -> isSolved r = false ->
  Old.optimizeQP engine qp_maxiter (Old.qpOASESInterface_new nVar nCon LP) e it = Old.NullHessian ∧
  Old.optimizeQP engine qp_maxiter s e it = Old.NotOptimal (Old.with_status s r) e1 it ∧
  Old.getStatus (Old.with_status s r) = Old.get_status r.
Proof.
  intros Hh He Hr. split; [done|]. split; [|done].
  unfold Old.optimizeQP. rewrite Hh, old_solve_cases, He. simpl. by rewrite Hr.
Qed.

(** The older interface allocated for a QP after a first solve. *)
Definition ex_old_solved : Old.qpOASESInterface :=
  Old.mkOld (Old.od_data (Old.qpOASESInterface_new 1 1 QP)) true true UNSOLVED.

Lemma old_optimizeQP_single_attempt_witness :
  Old.od_H ex_old_solved = true ∧
  ex_engine_fail hotstart_matrices 10 (Old.od_data ex_old_solved) tt = (ex_run_fail, tt) ∧
  isSolved ex_run_fail = false ∧
  Old.optimizeQP ex_engine_fail 10 (Old.qpOASESInterface_new 1 1 LP) tt 0 = Old.NullHessian ∧
  Old.optimizeQP ex_engine_fail 10 ex_old_solved tt 0 =
    Old.NotOptimal (Old.with_status ex_old_solved ex_run_fail) tt 0 ∧
  Old.getStatus (Old.with_status ex_old_solved ex_run_fail) = QP_INFEASIBLE.
Proof.
  do 3 (split; [reflexivity|]).
  apply (old_optimizeQP_single_attempt ex_engine_fail 10 ex_old_solved tt tt 0 ex_run_fail 1 1);
    reflexivity.
Defined.
