(* ===== verification/QPhandler.v ===== *)
(** * The QP subproblem builder of the SQP driver (QPhandler.cpp)

    [QPhandler] turns the NLP data at the iterate into the QP

      minimize  1/2 p^T H p + g^T p + rho e^T (u + v)
      subject to c_l - c_k <= J p + u - v <= c_u - c_k,
                 max(x_l - x_k, -delta) <= p <= min(x_u - x_k, delta),
                 u, v >= 0

    inside its solver interface.  The model is the configuration without
    [NEW_FORMULATION] that [Algorithm] is built with: [nVar_QP_ = nVar +
    2 nCon] and [nConstr_QP_ = nCon].  The handler's configuration
    (sizes, solver choice, identity blocks) is the record [QPhandlerCfg];
    its mutable part is the solver interface [s : S] for any [S] with a
    lawful [QPSolverInterface].  The theorems are stated on [qp_data], the
    QP the engine will solve, and are proved once for the reference
    instance [QpData] through the simulation lemmas [*_data]. *)

From S2P Require Import Prelude SqpTypes SparseMatrix SolverInterface.
Local Open Scope Q_scope.

Record QPhandlerCfg := mkQPhandlerCfg {
  nlp_nVar : nat;
  nlp_nCon : nat;
  nVar_QP_ : nat;
  nConstr_QP_ : nat;
  QPsolverChoice_ : Solver;
  I_info_A_ : IdentityInfo
}.

(** The constructor [QPhandler(nlp_info, options, jnlst)] without
    [NEW_FORMULATION]: two identity blocks of size [nCon] at columns
    [nVar + 1] and [nVar + nCon + 1] of row 1; their [value] array is
    allocated but never written. *)
Definition QPhandler_new (nVar nCon : nat) (choice : Solver) : QPhandlerCfg :=
  mkQPhandlerCfg nVar nCon (nVar + 2 * nCon) nCon choice
    [mkIdentityBlock 1 (nVar + 1) nCon None; mkIdentityBlock 1 (nVar + nCon + 1) nCon None].

Section QPhandler.
Context {S : Type} `{!QPSolverInterface S}.
Variable cfg : QPhandlerCfg.

(** The bounds of the step [p] (the two lines shared by [set_bounds],
    [update_bounds] and [update_delta]). *)
Definition set_step_bounds (delta : Q) (x_l x_u x_k : list Q) (s : S) : S :=
  for_range 0 (nlp_nVar cfg) (fun i s =>
    set_ub (set_lb s i (Qmax (x_l.[i] - x_k.[i]) (- delta))) i
           (Qmin (x_u.[i] - x_k.[i]) delta)) s.

(** [QPhandler::set_bounds]. *)
Definition set_bounds (delta : Q) (x_l x_u x_k c_l c_u c_k : list Q) (s : S) : S :=
  if decide (QPsolverChoice_ cfg ≠ QORE) then
    let s := for_range 0 (nlp_nCon cfg) (fun i s =>
               set_ubA (set_lbA s i (c_l.[i] - c_k.[i])) i (c_u.[i] - c_k.[i])) s in
    let s := set_step_bounds delta x_l x_u x_k s in
    for_range 0 (nlp_nCon cfg * 2) (fun i s => set_ub s (nlp_nVar cfg + i) INF) s
  else
    let s := set_step_bounds delta x_l x_u x_k s in
    let s := for_range 0 (nlp_nCon cfg * 2) (fun i s => set_ub s (nlp_nVar cfg + i) INF) s in
    for_range 0 (nlp_nCon cfg) (fun i s =>
      set_ub (set_lb s (nVar_QP_ cfg + i) (c_l.[i] - c_k.[i])) (nVar_QP_ cfg + i)
             (c_u.[i] - c_k.[i])) s.

(** [QPhandler::set_g(grad, rho)]. *)
Definition set_g_QP (grad : list Q) (rho : Q) (s : S) : S :=
  for_range 0 (nVar_QP_ cfg) (fun i s =>
    if decide (i < nlp_nVar cfg)%nat then set_g s i grad.[i] else set_g s i rho) s.

(** [QPhandler::set_g(rho)], declared in QPhandler.hpp and used by
    [Algorithm::setupLP] but not defined in the sources: following the
    specification, the LP objective is the slack weights alone. *)
Definition set_g_LP (rho : Q) (s : S) : S :=
  for_range 0 (nVar_QP_ cfg) (fun i s =>
    if decide (i < nlp_nVar cfg)%nat then set_g s i 0 else set_g s i rho) s.

(** [QPhandler::set_H] and [QPhandler::set_A]. *)
Definition set_H (hessian : SpTripletMat) (s : S) : S :=
  if decide (QPsolverChoice_ cfg = GUROBI ∨ QPsolverChoice_ cfg = CPLEX)
  then set_H_values s hessian
  else set_H_values (set_H_structure s hessian) hessian.

Definition set_A (jacobian : SpTripletMat) (s : S) : S :=
  if decide (QPsolverChoice_ cfg = GUROBI ∨ QPsolverChoice_ cfg = CPLEX)
  then set_A_values s jacobian (I_info_A_ cfg)
  else set_A_values (set_A_structure s jacobian (I_info_A_ cfg)) jacobian (I_info_A_ cfg).

(** [QPhandler::update_bounds]: for qpOASES, Gurobi and CPLEX only the
    lower constraint bounds and the step bounds are written
    ([reset_constraints] of Gurobi and CPLEX does not change the data). *)
Definition update_bounds (delta : Q) (x_l x_u x_k c_l c_u c_k : list Q) (s : S) : S :=
  if decide (QPsolverChoice_ cfg = QPOASES ∨ QPsolverChoice_ cfg = GUROBI ∨
             QPsolverChoice_ cfg = CPLEX) then
    let s := for_range 0 (nlp_nCon cfg) (fun i s => set_lbA s i (c_l.[i] - c_k.[i])) s in
    set_step_bounds delta x_l x_u x_k s
  else if decide (QPsolverChoice_ cfg = QORE) then
    let s := set_step_bounds delta x_l x_u x_k s in
    for_range 0 (nlp_nCon cfg) (fun i s =>
      set_ub (set_lb s (nlp_nVar cfg + 2 * nlp_nCon cfg + i) (c_l.[i] - c_k.[i]))
             (nlp_nVar cfg + 2 * nlp_nCon cfg + i) (c_u.[i] - c_k.[i])) s
  else s.

(** [QPhandler::update_penalty], [update_grad], [update_delta],
    [update_H], [update_A]. *)
Definition update_penalty (rho : Q) (s : S) : S :=
  for_range (nlp_nVar cfg) (nVar_QP_ cfg - nlp_nVar cfg) (fun i s => set_g s i rho) s.

Definition update_grad (grad : list Q) (s : S) : S :=
  for_range 0 (nlp_nVar cfg) (fun i s => set_g s i grad.[i]) s.

Definition update_delta (delta : Q) (x_l x_u x_k : list Q) (s : S) : S :=
  set_step_bounds delta x_l x_u x_k s.

Definition update_H (Hessian : SpTripletMat) (s : S) : S := set_H_values s Hessian.

Definition update_A (Jacobian : SpTripletMat) (s : S) : S :=
  set_A_values s Jacobian (I_info_A_ cfg).
End QPhandler.

(** [QPhandler::get_infea_measure_model]: the one-norm of the last
    [2 nConstr_QP_] entries of the QP solution (the slacks [u], [v]). *)
Definition get_infea_measure_model (cfg : QPhandlerCfg) (x : list Q) : Q :=
  sumQ (map Qabs (take (2 * nConstr_QP_ cfg) (drop (nVar_QP_ cfg - 2 * nConstr_QP_ cfg) x))).

(** ** Simulation: every lawful interface behaves like the data *)

Lemma for_range_sim {S} `{!QPSolverInterface S} lo n (b : nat -> S -> S)
    (b' : nat -> QpData -> QpData) (s : S) (d : QpData) :
  (forall i x, qp_data (b i x) = b' i (qp_data x)) -> qp_data s = d ->
  qp_data (for_range lo n b s) = for_range lo n b' d.
Proof. intros Hb <-. apply for_range_proj. intros; apply Hb. Qed.

(** Push [qp_data] through loops, branches and setters. *)
Ltac sim_step :=
  first
  [ apply for_range_sim; [intros ? ?|]
  | progress autorewrite with sqp_rw
  | case_decide
  | reflexivity
  | typeclasses eauto ].
Ltac sim := repeat sim_step.

Section Simulation.
Context {S : Type} `{QPSolverInterfaceLaws S}.
Variable cfg : QPhandlerCfg.

Lemma set_step_bounds_data delta x_l x_u x_k (s : S) :
  qp_data (set_step_bounds cfg delta x_l x_u x_k s) =
  set_step_bounds cfg delta x_l x_u x_k (qp_data s).
Proof. unfold set_step_bounds. sim. Qed.

#[local] Hint Rewrite set_step_bounds_data : sqp_rw.

Lemma set_bounds_data delta x_l x_u x_k c_l c_u c_k (s : S) :
  qp_data (set_bounds cfg delta x_l x_u x_k c_l c_u c_k s) =
  set_bounds cfg delta x_l x_u x_k c_l c_u c_k (qp_data s).
Proof.
  unfold set_bounds. sim.
Qed.

Lemma update_bounds_data delta x_l x_u x_k c_l c_u c_k (s : S) :
  qp_data (update_bounds cfg delta x_l x_u x_k c_l c_u c_k s) =
  update_bounds cfg delta x_l x_u x_k c_l c_u c_k (qp_data s).
Proof.
  unfold update_bounds. sim.
Qed.

Lemma set_g_QP_data grad rho (s : S) :
  qp_data (set_g_QP cfg grad rho s) = set_g_QP cfg grad rho (qp_data s).
Proof. unfold set_g_QP. sim. Qed.

Lemma update_penalty_data rho (s : S) :
  qp_data (update_penalty cfg rho s) = update_penalty cfg rho (qp_data s).
Proof. unfold update_penalty. sim. Qed.

Lemma update_grad_data grad (s : S) :
  qp_data (update_grad cfg grad s) = update_grad cfg grad (qp_data s).
Proof. unfold update_grad. sim. Qed.

Lemma update_delta_data delta x_l x_u x_k (s : S) :
  qp_data (update_delta cfg delta x_l x_u x_k s) = update_delta cfg delta x_l x_u x_k (qp_data s).
Proof. apply set_step_bounds_data. Qed.
End Simulation.

(** ** Reading the data after a loop of setters *)

Section DataLoops.
Variable proj : QpData -> list Q.

Lemma loop_lookup0 lo n (body : nat -> QpData -> QpData) (f : nat -> Q) d k :
  (forall i x, proj (body i x) = <[i := f i]> (proj x)) ->
  proj (for_range lo n body d) !! k =
  if decide ((lo ≤ k < lo + n)%nat ∧ (k < length (proj d))%nat)
  then Some (f k) else proj d !! k.
Proof.
  intros Hb. rewrite (for_range_proj proj lo n body (fun i w => <[(0 + i)%nat := f i]> w))
    by (intros; apply Hb).
  rewrite for_range_insert_lookup, Nat.sub_0_r. done.
Qed.

Lemma loop_lookup_off off lo n (body : nat -> QpData -> QpData) (f : nat -> Q) d k :
  (forall i x, proj (body i x) = <[(off + i)%nat := f i]> (proj x)) ->
  proj (for_range lo n body d) !! k =
  if decide ((off + lo ≤ k < off + lo + n)%nat ∧ (k < length (proj d))%nat)
  then Some (f (k - off)%nat) else proj d !! k.
Proof.
  intros Hb. rewrite (for_range_proj proj lo n body (fun i w => <[(off + i)%nat := f i]> w))
    by (intros; apply Hb).
  by rewrite for_range_insert_lookup.
Qed.


Lemma loop_length lo n (body : nat -> QpData -> QpData) d :
  (forall i x, length (proj (body i x)) = length (proj x)) ->
  length (proj (for_range lo n body d)) = length (proj d).
Proof.
  intros Hb. apply (for_range_ind (fun x => length (proj x) = length (proj d))); [done|].
  intros i x _ <-. apply Hb.
Qed.
End DataLoops.

Lemma loop_same {B} (proj : QpData -> B) lo n (body : nat -> QpData -> QpData) d :
  (forall i x, proj (body i x) = proj x) -> proj (for_range lo n body d) = proj d.
Proof. intros Hb. apply for_range_proj_id. intros; apply Hb. Qed.

(** Rewrite every loop read in the goal; the projection is taken from
    the goal so that no constant projection is inferred. *)
Ltac loop_read :=
  repeat match goal with
  | |- context [?p (for_range ?lo ?n ?b ?d)] =>
      first
      [ rewrite (loop_same p lo n b d) by (intros; reflexivity)
      | erewrite (loop_lookup0 p lo n b) by (intros; reflexivity)
      | erewrite (loop_lookup_off p _ lo n b) by (intros; reflexivity) ]
  end.

Ltac loop_len :=
  repeat match goal with
  | |- context [length (?p (for_range ?lo ?n ?b ?d))] =>
      rewrite (loop_length p lo n b d) by (intros; simpl; by rewrite ?length_insert)
  end.

(** Entry [k] of a vector is [Some (v.[k])] inside the vector. *)
Lemma lookup_vget (v : list Q) k : (k < length v)%nat -> v !! k = Some v.[k].
Proof.
  intros Hk. destruct (lookup_lt_is_Some_2 v k Hk) as [x Hx].
  by rewrite Hx, (vget_lookup _ _ _ Hx).
Qed.

(** ** Theorems *)

Section Theorems.
Context {S : Type} `{QPSolverInterfaceLaws S}.

(** C24: [set_bounds] (any backend but QORE) builds the QP bounds of the
    step as [max(x_l - x_k, -delta)] and [min(x_u - x_k, delta)], the
    linearised constraint bounds as [c_l - c_k] and [c_u - c_k], and an
    infinite upper bound for every slack column. *)
Theorem set_bounds_assembly cfg delta x_l x_u x_k c_l c_u c_k (s : S) :
  QPsolverChoice_ cfg ≠ QORE ->
  let d := qp_data s in
  let d' := qp_data (set_bounds cfg delta x_l x_u x_k c_l c_u c_k s) in
  (forall k, (k < nlp_nVar cfg)%nat -> (k < length (qd_lb d))%nat ->
     qd_lb d' !! k = Some (Qmax (x_l.[k] - x_k.[k]) (- delta))) /\
  (forall k, (k < nlp_nVar cfg)%nat -> (k < length (qd_ub d))%nat ->
     qd_ub d' !! k = Some (Qmin (x_u.[k] - x_k.[k]) delta)) /\
  (forall k, (nlp_nVar cfg ≤ k < nlp_nVar cfg + 2 * nlp_nCon cfg)%nat ->
     (k < length (qd_ub d))%nat -> qd_ub d' !! k = Some INF) /\
  (forall k, (k < nlp_nCon cfg)%nat -> (k < length (qd_lbA d))%nat ->
     qd_lbA d' !! k = Some (c_l.[k] - c_k.[k])) /\
  (forall k, (k < nlp_nCon cfg)%nat -> (k < length (qd_ubA d))%nat ->
     qd_ubA d' !! k = Some (c_u.[k] - c_k.[k])).
Proof.
  intros Hc d d'. subst d d'. rewrite set_bounds_data.
  unfold set_bounds, set_step_bounds. rewrite decide_True by done.
  repeat split; intros k Hk Hl; loop_read; loop_len;
    repeat case_decide; try done; lia.
Qed.

(** C11: For qpOASES, [update_bounds] (called by [setupQP] after an
    accepted step) rewrites the lower constraint bounds to
    [c_l - c_k] at the new iterate but never writes the upper ones:
    [ubA] keeps the values of the previous iterate. *)
Theorem update_bounds_keeps_ubA cfg delta x_l x_u x_k c_l c_u c_k (s : S) :
  QPsolverChoice_ cfg = QPOASES ->
  qd_ubA (qp_data (update_bounds cfg delta x_l x_u x_k c_l c_u c_k s)) = qd_ubA (qp_data s) /\
  (forall k, (k < nlp_nCon cfg)%nat -> (k < length (qd_lbA (qp_data s)))%nat ->
     qd_lbA (qp_data (update_bounds cfg delta x_l x_u x_k c_l c_u c_k s)) !! k
     = Some (c_l.[k] - c_k.[k])).
Proof.
  intros Hc. rewrite update_bounds_data. unfold update_bounds, set_step_bounds.
  rewrite decide_True by auto. split.
  - by loop_read.
  - intros k Hk Hl. loop_read. case_decide; [done|lia].
Qed.
End Theorems.

(** Two QPs are equal when all their vectors are equal entry by entry. *)
Lemma QpData_eq (d1 d2 : QpData) :
  (forall k, qd_lb d1 !! k = qd_lb d2 !! k) -> (forall k, qd_ub d1 !! k = qd_ub d2 !! k) ->
  (forall k, qd_lbA d1 !! k = qd_lbA d2 !! k) -> (forall k, qd_ubA d1 !! k = qd_ubA d2 !! k) ->
  (forall k, qd_g d1 !! k = qd_g d2 !! k) -> qd_H d1 = qd_H d2 -> qd_A d1 = qd_A d2 -> d1 = d2.
Proof.
  destruct d1, d2; simpl. intros H1 H2 H3 H4 H5 -> ->.
  apply list_eq in H1, H2, H3, H4, H5. by subst.
Qed.

(** Compare two QPs built by loops of setters. *)
Ltac qp_ext :=
  apply QpData_eq; try (intros k; loop_read; loop_len; repeat case_decide; try done; lia);
  loop_read; done.

(** Updating only the radius with [update_delta] after [set_bounds]
    gives exactly the QP that [set_bounds] builds with the new radius
    (any backend but QORE): the incremental update refines the rebuild. *)
Theorem update_delta_after_set_bounds {S} `{QPSolverInterfaceLaws S}
    cfg delta delta' x_l x_u x_k c_l c_u c_k (s : S) :
  QPsolverChoice_ cfg ≠ QORE ->
  qp_data (update_delta cfg delta' x_l x_u x_k (set_bounds cfg delta x_l x_u x_k c_l c_u c_k s)) =
  qp_data (set_bounds cfg delta' x_l x_u x_k c_l c_u c_k s).
Proof.
  intros Hc. rewrite update_delta_data, !set_bounds_data.
  unfold update_delta, set_bounds, set_step_bounds. rewrite !decide_True by done.
  qp_ext.
Qed.

(** C25: For QORE, [update_bounds] at a new iterate after [set_bounds] at
    an old one gives exactly the QP that [set_bounds] builds at the new
    iterate, when the constraint rows follow the [nVar + 2 nCon]
    variables as in [QPhandler_new]. *)
Theorem update_bounds_after_set_bounds_qore {S} `{QPSolverInterfaceLaws S}
    cfg delta delta' x_l x_u x_k x_k' c_l c_u c_k c_k' (s : S) :
  QPsolverChoice_ cfg = QORE -> nVar_QP_ cfg = (nlp_nVar cfg + 2 * nlp_nCon cfg)%nat ->
  qp_data (update_bounds cfg delta' x_l x_u x_k' c_l c_u c_k'
             (set_bounds cfg delta x_l x_u x_k c_l c_u c_k s)) =
  qp_data (set_bounds cfg delta' x_l x_u x_k' c_l c_u c_k' s).
Proof.
  intros Hc Hn. rewrite update_bounds_data, !set_bounds_data.
  unfold update_bounds, set_bounds, set_step_bounds.
  destruct (decide (QPsolverChoice_ cfg ≠ QORE)) as [Hq|_]; [done|].
  destruct (decide (QPsolverChoice_ cfg = QPOASES ∨ QPsolverChoice_ cfg = GUROBI ∨
                    QPsolverChoice_ cfg = CPLEX)) as [Hq|_]; [rewrite Hc in Hq; naive_solver|].
  rewrite decide_True by done. rewrite Hn. qp_ext.
Qed.

(** ** Witnesses *)

Lemma set_bounds_assembly_witness :
  QPsolverChoice_ (QPhandler_new 1 0 QPOASES) ≠ QORE /\
  qd_lb (qp_data (set_bounds (QPhandler_new 1 0 QPOASES) 1 [-1] [1] [1#2] [] [] []
                   (qpOASESInterface_new 1 0))) !! 0%nat = Some (Qmax (-1 - (1#2)) (-1)).
Proof.
  split; [done|].
  apply (proj1 (set_bounds_assembly (QPhandler_new 1 0 QPOASES) 1 [-1] [1] [1#2] [] [] []
                  (qpOASESInterface_new 1 0) ltac:(done))); vm_compute; lia.
Defined.

(** The example of the specification: [x_l = -1], [x_u = 1],
    [x_k = 0.5], radius 1 give the step bounds [-1] and [0.5]. *)
Example set_bounds_spec_example :
  let d := qp_data (set_bounds (QPhandler_new 1 0 QPOASES) 1 [-1] [1] [1#2] [] [] []
                      (qpOASESInterface_new 1 0)) in
  qd_lb d = [-1] /\ qd_ub d = [1#2].
Proof. vm_compute. split; reflexivity. Qed.

Lemma update_bounds_keeps_ubA_witness :
  QPsolverChoice_ (QPhandler_new 1 1 QPOASES) = QPOASES /\
  qd_ubA (qp_data (update_bounds (QPhandler_new 1 1 QPOASES) 1 [-1] [1] [0] [0] [2] [1]
                     (qpOASESInterface_new 1 1))) = qd_ubA (qp_data (qpOASESInterface_new 1 1)).
Proof.
  split; [done|].
  apply (proj1 (update_bounds_keeps_ubA (QPhandler_new 1 1 QPOASES) 1 [-1] [1] [0] [0] [2] [1]
                  (qpOASESInterface_new 1 1) ltac:(done))).
Defined.

(** After an accepted step from [c_k = 0] to [c_k = 1], the QP that
    qpOASES solves keeps the upper constraint bound [c_u - 0 = 2] where
    the rebuild has [c_u - 1 = 1]. *)
Example update_bounds_stale_ubA :
  let cfg := QPhandler_new 1 1 QPOASES in
  let s0 := set_bounds cfg 1 [-1] [1] [0] [0] [2] [0] (qpOASESInterface_new 1 1) in
  qd_ubA (qp_data (update_bounds cfg 1 [-1] [1] [0] [0] [2] [1] s0)) = [2 - 0] /\
  qd_ubA (qp_data (set_bounds cfg 1 [-1] [1] [0] [0] [2] [1] (qpOASESInterface_new 1 1))) = [2 - 1].
Proof. vm_compute. split; reflexivity. Qed.

Lemma update_delta_after_set_bounds_witness :
  QPsolverChoice_ (QPhandler_new 1 0 QPOASES) ≠ QORE /\
  qp_data (update_delta (QPhandler_new 1 0 QPOASES) (1#2) [-1] [1] [0]
     (set_bounds (QPhandler_new 1 0 QPOASES) 1 [-1] [1] [0] [] [] [] (qpOASESInterface_new 1 0))) =
  qp_data (set_bounds (QPhandler_new 1 0 QPOASES) (1#2) [-1] [1] [0] [] [] []
     (qpOASESInterface_new 1 0)).
Proof.
  split; [done|]. apply update_delta_after_set_bounds. done.
Defined.

Lemma update_bounds_after_set_bounds_qore_witness :
  QPsolverChoice_ (QPhandler_new 1 1 QORE) = QORE /\
  nVar_QP_ (QPhandler_new 1 1 QORE) = (nlp_nVar (QPhandler_new 1 1 QORE) +
                                        2 * nlp_nCon (QPhandler_new 1 1 QORE))%nat /\
  qp_data (update_bounds (QPhandler_new 1 1 QORE) 1 [-1] [1] [1#2] [0] [2] [1]
     (set_bounds (QPhandler_new 1 1 QORE) 1 [-1] [1] [0] [0] [2] [0] (qpOASESInterface_new 1 1))) =
  qp_data (set_bounds (QPhandler_new 1 1 QORE) 1 [-1] [1] [1#2] [0] [2] [1]
     (qpOASESInterface_new 1 1)).
Proof.
  split; [done|]. split; [done|].
  apply update_bounds_after_set_bounds_qore; done.
Defined.

(** ** The linear objective *)

Lemma set_g_QP_lookup cfg grad rho (d : QpData) k :
  qd_g (set_g_QP cfg grad rho d) !! k =
  if decide ((0 ≤ k < 0 + nVar_QP_ cfg)%nat ∧ (k < length (qd_g d))%nat)
  then Some (if decide (k < nlp_nVar cfg)%nat then grad.[k] else rho) else qd_g d !! k.
Proof.
  unfold set_g_QP.
  rewrite (loop_lookup0 qd_g 0 _ _ (fun i : nat => if decide (i < nlp_nVar cfg)%nat then grad.[i] else rho));
    [done|].
  intros i x. simpl. by case_decide.
Qed.

Lemma set_g_QP_length cfg grad rho (d : QpData) :
  length (qd_g (set_g_QP cfg grad rho d)) = length (qd_g d).
Proof. unfold set_g_QP. apply loop_length. intros i x. simpl. case_decide; apply length_insert. Qed.

Lemma set_g_QP_other cfg grad rho (d : QpData) :
  qd_lb (set_g_QP cfg grad rho d) = qd_lb d /\ qd_ub (set_g_QP cfg grad rho d) = qd_ub d /\
  qd_lbA (set_g_QP cfg grad rho d) = qd_lbA d /\ qd_ubA (set_g_QP cfg grad rho d) = qd_ubA d /\
  qd_H (set_g_QP cfg grad rho d) = qd_H d /\ qd_A (set_g_QP cfg grad rho d) = qd_A d.
Proof.
  unfold set_g_QP. repeat split; apply loop_same; intros i x; simpl; by case_decide.
Qed.

(** Changing the penalty with [update_penalty] after [set_g] gives
    exactly the objective that [set_g] builds with the new penalty: the
    gradient on the step variables and [rho] on every slack column. *)
Theorem update_penalty_after_set_g {S} `{QPSolverInterfaceLaws S} cfg grad rho rho' (s : S) :
  (nlp_nVar cfg ≤ nVar_QP_ cfg)%nat ->
  qp_data (update_penalty cfg rho' (set_g_QP cfg grad rho s)) =
  qp_data (set_g_QP cfg grad rho' s).
Proof.
  intros Hn. rewrite update_penalty_data, !set_g_QP_data.
  pose proof (set_g_QP_other cfg grad rho (qp_data s)) as (?&?&?&?&?&?).
  pose proof (set_g_QP_other cfg grad rho' (qp_data s)) as (?&?&?&?&?&?).
  unfold update_penalty. apply QpData_eq; intros; loop_read; try congruence.
  rewrite !set_g_QP_lookup, set_g_QP_length. repeat case_decide; try done; lia.
Qed.

Lemma update_penalty_after_set_g_witness :
  (nlp_nVar (QPhandler_new 1 1 QPOASES) ≤ nVar_QP_ (QPhandler_new 1 1 QPOASES))%nat /\
  qp_data (update_penalty (QPhandler_new 1 1 QPOASES) 10
             (set_g_QP (QPhandler_new 1 1 QPOASES) [3] 1 (qpOASESInterface_new 1 1))) =
  qp_data (set_g_QP (QPhandler_new 1 1 QPOASES) [3] 10 (qpOASESInterface_new 1 1)).
Proof. split; [simpl; lia|]. apply update_penalty_after_set_g. simpl; lia. Defined.

(** [update_grad] after [set_g] gives the objective that [set_g]
    builds with the new gradient and the same penalty. *)
Theorem update_grad_after_set_g {S} `{QPSolverInterfaceLaws S} cfg grad grad' rho (s : S) :
  (nlp_nVar cfg ≤ nVar_QP_ cfg)%nat ->
  qp_data (update_grad cfg grad' (set_g_QP cfg grad rho s)) =
  qp_data (set_g_QP cfg grad' rho s).
Proof.
  intros Hn. rewrite update_grad_data, !set_g_QP_data.
  pose proof (set_g_QP_other cfg grad rho (qp_data s)) as (?&?&?&?&?&?).
  pose proof (set_g_QP_other cfg grad' rho (qp_data s)) as (?&?&?&?&?&?).
  unfold update_grad. apply QpData_eq; intros; loop_read; try congruence.
  rewrite !set_g_QP_lookup, set_g_QP_length. repeat case_decide; try done; lia.
Qed.

Lemma update_grad_after_set_g_witness :
  (nlp_nVar (QPhandler_new 1 1 QPOASES) ≤ nVar_QP_ (QPhandler_new 1 1 QPOASES))%nat /\
  qp_data (update_grad (QPhandler_new 1 1 QPOASES) [5]
             (set_g_QP (QPhandler_new 1 1 QPOASES) [3] 1 (qpOASESInterface_new 1 1))) =
  qp_data (set_g_QP (QPhandler_new 1 1 QPOASES) [5] 1 (qpOASESInterface_new 1 1)).
Proof. split; [simpl; lia|]. apply update_grad_after_set_g. simpl; lia. Defined.

(** ** The model infeasibility *)

(** [get_infea_measure_model] is non-negative, and it is zero exactly
    when every slack entry of the QP solution is zero. *)
Theorem get_infea_measure_model_zero cfg (x : list Q) :
  0 <= get_infea_measure_model cfg x /\
  (get_infea_measure_model cfg x == 0 <->
   Forall (fun u => u == 0) (take (2 * nConstr_QP_ cfg) (drop (nVar_QP_ cfg - 2 * nConstr_QP_ cfg) x))).
Proof.
  unfold get_infea_measure_model.
  set (l := take _ _).
  assert (Hnn : Forall (fun y => 0 <= y) (map Qabs l)).
  { apply Forall_fmap, Forall_forall. intros y _. apply Qabs_nonneg. }
  split; [by apply sumQ_nonneg|].
  rewrite sumQ_zero_iff by done. rewrite Forall_fmap.
  split; apply Forall_impl; intros y; simpl; qlin.
Qed.
