(* ===== verification/RestartQpHandler.v ===== *)
(** * The QP builder of the restart solver (src/src/QpHandler.cpp)

    [RestartSqp::QpHandler] is the successor of [QPhandler]: it builds the
    same penalty QP but keeps its configuration in named fields, supports a
    second formulation in which the variable bounds are also softened with
    slacks ([slack_formulation_]), writes the slack bounds once in the
    constructor, caches the last penalty weight it wrote into the linear
    objective ([last_penalty_parameter_]) and can shrink the trust region
    in place ([decrease_trust_region]).

    The handler's configuration is the record [QpHandlerCfg]; its mutable
    part is the record [QpHandler] of the solver interface [s : S] (any
    lawful [QPSolverInterface]: [set_lower_variable_bound] is [set_lb],
    [set_linear_objective_coefficient] is [set_g], and so on) and of the
    two cached numbers.  [last_kkt_error_] is [None] until [solve] writes
    it, because the constructor leaves it uninitialised. *)

From S2P Require Import Prelude SqpTypes DenseVector SparseMatrix SolverInterface QPhandler.
Local Open Scope Q_scope.

Module RQ.

Record QpHandlerCfg := mkQpHandlerCfg {
  num_nlp_variables_ : nat;
  num_nlp_constraints_ : nat;
  num_qp_variables_ : nat;
  num_qp_constraints_ : nat;
  slack_formulation_ : bool;
  identity_matrix_positions_ : IdentityInfo;
  qp_solver_choice_ : Solver
}.

Record QpHandler (S : Type) := mkQpHandler {
  qp_solver_interface_ : S;
  last_penalty_parameter_ : Q;
  last_kkt_error_ : option Q
}.
Arguments mkQpHandler {S} _ _ _.
Arguments qp_solver_interface_ {S} _.
Arguments last_penalty_parameter_ {S} _.
Arguments last_kkt_error_ {S} _.

Definition with_solver {S} (h : QpHandler S) (s : S) : QpHandler S :=
  mkQpHandler s (last_penalty_parameter_ h) (last_kkt_error_ h).

(** The sizes and identity blocks the constructor computes: without
    slacks for the bounds the QP variables are [p, u, v] and the rows
    [J p + u - v]; with them the variables are [p, u, v, w, t] and the
    extra rows [p + w - t] soften the variable bounds.  [add_matrix(row,
    col, size, value)] appends one block. *)
Definition QpHandler_cfg (nVar nCon : nat) (slack_formulation : bool) (choice : Solver)
  : QpHandlerCfg :=
  if slack_formulation then
    mkQpHandlerCfg nVar nCon (3 * nVar + 2 * nCon) (nVar + nCon) true
      [mkIdentityBlock 1 (nVar + 1) nCon (Some 1);
       mkIdentityBlock 1 (nVar + nCon + 1) nCon (Some (-1));
       mkIdentityBlock (nCon + 1) 1 nVar (Some 1);
       mkIdentityBlock (nCon + 1) (nVar + 2 * nCon + 1) nVar (Some 1);
       mkIdentityBlock (nCon + 1) (2 * nVar + 2 * nCon + 1) nVar (Some (-1))] choice
  else
    mkQpHandlerCfg nVar nCon (nVar + 2 * nCon) nCon false
      [mkIdentityBlock 1 (nVar + 1) nCon (Some 1);
       mkIdentityBlock 1 (nVar + nCon + 1) nCon (Some (-1))] choice.

Section Handler.
Context {S : Type} `{!QPSolverInterface S}.
Variable cfg : QpHandlerCfg.

(** The slack variables [num_nlp_variables_ .. num_qp_variables_ - 1]. *)
Definition slack_loop {A} (body : nat -> A -> A) (a : A) : A :=
  for_range (num_nlp_variables_ cfg) (num_qp_variables_ cfg - num_nlp_variables_ cfg) body a.

(** The constructor's last loop: the slack bounds [[0, INF)], which
    "will not change later"; [s0] is the solver object created for
    [qp_solver_choice_]. *)
Definition set_slack_bounds (s0 : S) : S :=
  slack_loop (fun i s => set_ub (set_lb s i 0) i INF) s0.

(** [QpHandler::set_bounds]. *)
Definition set_bounds (trust_region_radius : Q) (x_l x_u x_k c_l c_u c_k : list Q)
    (h : QpHandler S) : QpHandler S :=
  let s := qp_solver_interface_ h in
  with_solver h
  (if negb (slack_formulation_ cfg) then
     let s := for_range 0 (num_nlp_variables_ cfg) (fun i s =>
                set_ub (set_lb s i (Qmax (x_l.[i] - x_k.[i]) (- trust_region_radius))) i
                       (Qmin (x_u.[i] - x_k.[i]) trust_region_radius)) s in
     for_range 0 (num_nlp_constraints_ cfg) (fun i s =>
       set_ubA (set_lbA s i (c_l.[i] - c_k.[i])) i (c_u.[i] - c_k.[i])) s
   else
     let s := for_range 0 (num_nlp_variables_ cfg) (fun i s =>
                set_ub (set_lb s i (- trust_region_radius)) i trust_region_radius) s in
     let s := for_range 0 (num_nlp_constraints_ cfg) (fun i s =>
                set_ubA (set_lbA s i (c_l.[i] - c_k.[i])) i (c_u.[i] - c_k.[i])) s in
     for_range 0 (num_nlp_variables_ cfg) (fun i s =>
       set_ubA (set_lbA s (num_nlp_constraints_ cfg + i) (x_l.[i] - x_k.[i]))
               (num_nlp_constraints_ cfg + i) (x_u.[i] - x_k.[i])) s).

(** [QpHandler::set_linear_qp_objective_coefficients]: the slack weights
    are written only when the penalty differs from the cached one, and
    the cache is written inside that loop (so not at all when there are
    no slack variables). *)
Definition set_linear_qp_objective_coefficients (gradient : list Q) (penalty_parameter : Q)
    (h : QpHandler S) : QpHandler S :=
  let s := for_range 0 (num_nlp_variables_ cfg) (fun i s =>
             set_g s i gradient.[i]) (qp_solver_interface_ h) in
  let '(s, last) :=
    if negb (Qeq_bool penalty_parameter (last_penalty_parameter_ h)) then
      slack_loop (fun i '(s, _) => (set_g s i penalty_parameter, penalty_parameter))
        (s, last_penalty_parameter_ h)
    else (s, last_penalty_parameter_ h) in
  mkQpHandler s last (last_kkt_error_ h).

(** [QpHandler::set_hessian] and [QpHandler::set_jacobian]. *)
Definition set_hessian (hessian : SpTripletMat) (h : QpHandler S) : QpHandler S :=
  with_solver h (set_H_values (qp_solver_interface_ h) hessian).

Definition set_jacobian (jacobian : SpTripletMat) (h : QpHandler S) : QpHandler S :=
  with_solver h (set_A_values (qp_solver_interface_ h) jacobian
                   (identity_matrix_positions_ cfg)).

(** [QpHandler::update_penalty_parameter]: the slack weights are
    rewritten when the penalty differs from the cached one, but the cache
    [last_penalty_parameter_] is left as it was. *)
Definition update_penalty_parameter (penalty_parameter : Q) (h : QpHandler S) : QpHandler S :=
  if negb (Qeq_bool penalty_parameter (last_penalty_parameter_ h)) then
    with_solver h (slack_loop (fun i s => set_g s i penalty_parameter) (qp_solver_interface_ h))
  else h.

(** [QpHandler::decrease_trust_region]: with slacks for the bounds the
    step bounds are the radius itself; otherwise each bound is pulled in
    to the radius only where it lies outside of it. *)
Definition decrease_trust_region (trust_region : Q) (h : QpHandler S) : QpHandler S :=
  with_solver h
  (if slack_formulation_ cfg then
     for_range 0 (num_nlp_variables_ cfg) (fun i s =>
       set_ub (set_lb s i (- trust_region)) i trust_region) (qp_solver_interface_ h)
   else
     for_range 0 (num_nlp_variables_ cfg) (fun i s =>
       let s := if Qltb (qd_lb (qp_data s)).[i] (- trust_region)
                then set_lb s i (- trust_region) else s in
       if Qltb trust_region (qd_ub (qp_data s)).[i] then set_ub s i trust_region else s)
       (qp_solver_interface_ h)).

(** [QpHandler::get_model_infeasibility]: the one-norm of the slack
    entries of the QP primal solution [x]. *)
Definition get_model_infeasibility (x : list Q) : Q :=
  getOneNorm (take (num_qp_variables_ cfg - num_nlp_variables_ cfg)
                   (drop (num_nlp_variables_ cfg) x)).

(** [get_bounds_multipliers] and [get_constraint_multipliers]: the
    leading [num_nlp_variables_] (resp. [num_nlp_constraints_]) entries of
    the solver's multiplier vectors. *)
Definition get_bounds_multipliers (y_bounds : list Q) : list Q :=
  take (num_nlp_variables_ cfg) y_bounds.

Definition get_constraint_multipliers (y_constr : list Q) : list Q :=
  take (num_nlp_constraints_ cfg) y_constr.
End Handler.

(** The constructor: the configuration and the handler over the solver
    object [s0] with the slack bounds written and the cache at [-1]. *)
Definition QpHandler_new {S} `{!QPSolverInterface S} (nVar nCon : nat)
    (slack_formulation : bool) (choice : Solver) (s0 : S) : QpHandlerCfg * QpHandler S :=
  let cfg := QpHandler_cfg nVar nCon slack_formulation choice in
  (cfg, mkQpHandler (set_slack_bounds cfg s0) (-1) None).

(** [QpHandler::solve].  The solver's [optimize], [get_solver_status] and
    the worst violation of [calc_kkt_error(J_DETAILED)] are parameters;
    [QpSolverExitStatus] is declared outside of the sources, so only its
    value [QPEXIT_OPTIMAL] is named.  The KKT test [isOptimal] only prints
    a warning.  A non-optimal exit stores [1e20] and reaches
    [assert(false)], which aborts unless the build defines [NDEBUG]. *)
Section Solve.
Context {S : Type} `{!QPSolverInterface S}.
Context {QpSolverExitStatus : Type} `{!EqDecision QpSolverExitStatus}.
Variable QPEXIT_OPTIMAL : QpSolverExitStatus.
Variable optimize : S -> S.
Variable get_solver_status : S -> QpSolverExitStatus.
Variable calc_kkt_error : S -> Q.
Variable NDEBUG : bool.

Inductive SolveOutcome :=
| SolveReturned (h : QpHandler S) (status : QpSolverExitStatus)
| SolveAborted (h : QpHandler S).

Definition qp_error_tol : Q := 1 # 100000000.

Definition solve (h : QpHandler S) : SolveOutcome :=
  let s := optimize (qp_solver_interface_ h) in
  let qp_exit_status := get_solver_status s in
  if decide (qp_exit_status = QPEXIT_OPTIMAL) then
    let last_kkt_error := calc_kkt_error s in
    let isOptimal := Qltb last_kkt_error qp_error_tol in
    SolveReturned (mkQpHandler s (last_penalty_parameter_ h) (Some last_kkt_error)) qp_exit_status
  else
    let h' := mkQpHandler s (last_penalty_parameter_ h) (Some (100000000000000000000 # 1)) in
    if NDEBUG then SolveReturned h' qp_exit_status else SolveAborted h'.
End Solve.

(** The public calls of the handler, for statements about every sequence
    of them. *)
Inductive Call :=
| CallSetBounds (r : Q) (x_l x_u x_k c_l c_u c_k : list Q)
| CallSetLinear (gradient : list Q) (penalty_parameter : Q)
| CallSetHessian (hessian : SpTripletMat)
| CallSetJacobian (jacobian : SpTripletMat)
| CallUpdatePenalty (penalty_parameter : Q)
| CallDecreaseTrustRegion (trust_region : Q).

Definition run_call {S} `{!QPSolverInterface S} cfg (c : Call) (h : QpHandler S) : QpHandler S :=
  match c with
  | CallSetBounds r x_l x_u x_k c_l c_u c_k => set_bounds cfg r x_l x_u x_k c_l c_u c_k h
  | CallSetLinear gradient rho => set_linear_qp_objective_coefficients cfg gradient rho h
  | CallSetHessian hessian => set_hessian hessian h
  | CallSetJacobian jacobian => set_jacobian cfg jacobian h
  | CallUpdatePenalty rho => update_penalty_parameter cfg rho h
  | CallDecreaseTrustRegion tr => decrease_trust_region cfg tr h
  end.

Definition run_calls {S} `{!QPSolverInterface S} cfg (cs : list Call) (h : QpHandler S) : QpHandler S :=
  fold_left (fun h c => run_call cfg c h) cs h.

(** The QP the handler's solver holds. *)
Definition qp_of {S} `{!QPSolverInterface S} (h : QpHandler S) : QpData :=
  qp_data (qp_solver_interface_ h).

(** The sizes the solver object was created with. *)
Definition qp_dims (cfg : QpHandlerCfg) (d : QpData) : Prop :=
  length (qd_lb d) = num_qp_variables_ cfg ∧ length (qd_ub d) = num_qp_variables_ cfg ∧
  length (qd_g d) = num_qp_variables_ cfg ∧
  length (qd_lbA d) = num_qp_constraints_ cfg ∧ length (qd_ubA d) = num_qp_constraints_ cfg.

(** The slack variables are bounded by [[0, INF)]. *)
Definition slack_bounds_ok (cfg : QpHandlerCfg) (d : QpData) : Prop :=
  forall i, (num_nlp_variables_ cfg ≤ i < num_qp_variables_ cfg)%nat ->
  qd_lb d !! i = Some 0 ∧ qd_ub d !! i = Some INF.

(** The slack weights of the objective are the cached penalty. *)
Definition cache_ok (cfg : QpHandlerCfg) (d : QpData) (last : Q) : Prop :=
  forall i x, (num_nlp_variables_ cfg ≤ i < num_qp_variables_ cfg)%nat ->
  qd_g d !! i = Some x -> x == last.

Definition penalty_cache_ok {S} `{!QPSolverInterface S} (cfg : QpHandlerCfg) (h : QpHandler S) : Prop :=
  cache_ok cfg (qp_of h) (last_penalty_parameter_ h).

(** ** Simulation: a handler over any lawful interface behaves like the
    handler over the data *)

Definition hdata {S} `{!QPSolverInterface S} (h : QpHandler S) : QpHandler QpData :=
  mkQpHandler (qp_data (qp_solver_interface_ h)) (last_penalty_parameter_ h) (last_kkt_error_ h).

(** A loop that writes the same value to a second component at every step
    leaves there that value, unless it runs no step. *)
Lemma for_range_pair {A B} lo n (f : nat -> A -> A) (v : B) (a : A) (b : B) :
  for_range lo n (fun i '(x, _) => (f i x, v)) (a, b) =
  (for_range lo n f a, if decide (0 < n)%nat then v else b).
Proof.
  induction n as [|n IH]; [by rewrite for_range_0, decide_False by lia|].
  by rewrite !for_range_S, IH, decide_True by lia.
Qed.

Lemma qp_of_hdata {S} `{!QPSolverInterface S} (h : QpHandler S) :
  qp_of h = qp_solver_interface_ (hdata h).
Proof. reflexivity. Qed.

Section Simulation.
Context {S : Type} `{QPSolverInterfaceLaws S}.
Variable cfg : QpHandlerCfg.

Lemma set_slack_bounds_data (s : S) :
  qp_data (set_slack_bounds cfg s) = set_slack_bounds cfg (qp_data s).
Proof. unfold set_slack_bounds, slack_loop. sim. Qed.

Lemma rq_set_bounds_data r x_l x_u x_k c_l c_u c_k (h : QpHandler S) :
  hdata (set_bounds cfg r x_l x_u x_k c_l c_u c_k h) =
  set_bounds cfg r x_l x_u x_k c_l c_u c_k (hdata h).
Proof. unfold set_bounds, with_solver, hdata; simpl. f_equal. destruct (slack_formulation_ cfg); sim. Qed.

Lemma set_linear_qp_objective_coefficients_data gradient rho (h : QpHandler S) :
  hdata (set_linear_qp_objective_coefficients cfg gradient rho h) =
  set_linear_qp_objective_coefficients cfg gradient rho (hdata h).
Proof.
  unfold set_linear_qp_objective_coefficients, slack_loop, hdata; simpl.
  destruct (negb _); rewrite ?for_range_pair; simpl; [case_decide|]; f_equal; sim.
Qed.

Lemma set_hessian_data hessian (h : QpHandler S) :
  hdata (set_hessian hessian h) = set_hessian hessian (hdata h).
Proof. unfold set_hessian, with_solver, hdata; simpl. by autorewrite with sqp_rw. Qed.

Lemma set_jacobian_data jacobian (h : QpHandler S) :
  hdata (set_jacobian cfg jacobian h) = set_jacobian cfg jacobian (hdata h).
Proof. unfold set_jacobian, with_solver, hdata; simpl. by autorewrite with sqp_rw. Qed.

Lemma update_penalty_parameter_data rho (h : QpHandler S) :
  hdata (update_penalty_parameter cfg rho h) = update_penalty_parameter cfg rho (hdata h).
Proof.
  unfold update_penalty_parameter, slack_loop, with_solver, hdata; simpl.
  destruct (negb _); [|done]. f_equal. sim.
Qed.

Lemma decrease_trust_region_data tr (h : QpHandler S) :
  hdata (decrease_trust_region cfg tr h) = decrease_trust_region cfg tr (hdata h).
Proof.
  unfold decrease_trust_region, with_solver, hdata; simpl. f_equal.
  destruct (slack_formulation_ cfg); sim.
  match goal with |- context [Qltb (qd_lb ?d).[i] ?t] => destruct (Qltb (qd_lb d).[i] t) end.
  all: autorewrite with sqp_rw; try typeclasses eauto.
  all: match goal with |- context [Qltb ?t (qd_ub ?d).[?j]] => destruct (Qltb t (qd_ub d).[j]) end; sim.
Qed.

Lemma run_calls_data cs (h : QpHandler S) :
  hdata (run_calls cfg cs h) = run_calls cfg cs (hdata h).
Proof.
  revert h. induction cs as [|c cs IH]; intros h; [done|]. simpl. rewrite IH. f_equal.
  destruct c; simpl; auto using rq_set_bounds_data, set_linear_qp_objective_coefficients_data,
    set_hessian_data, set_jacobian_data, update_penalty_parameter_data, decrease_trust_region_data.
Qed.
End Simulation.

(** ** The QP up to [Qeq] *)

(** Two QPs are equivalent when their vectors agree entry by entry up to
    [Qeq] and their matrices are equal: the solver sees the same problem. *)
Definition qp_equiv (d1 d2 : QpData) : Prop :=
  veq (qd_lb d1) (qd_lb d2) ∧ veq (qd_ub d1) (qd_ub d2) ∧
  veq (qd_lbA d1) (qd_lbA d2) ∧ veq (qd_ubA d1) (qd_ubA d2) ∧
  veq (qd_g d1) (qd_g d2) ∧ qd_H d1 = qd_H d2 ∧ qd_A d1 = qd_A d2.

#[export] Instance qp_equiv_Equivalence : Equivalence qp_equiv.
Proof.
  split.
  - intros d. repeat split; reflexivity.
  - intros d1 d2 (?&?&?&?&?&?&?). repeat split; by symmetry.
  - intros d1 d2 d3 (?&?&?&?&?&?&?) (?&?&?&?&?&?&?). repeat split; by etransitivity.
Qed.

Lemma veq_of_eq (v w : list Q) : v = w -> veq v w.
Proof. intros ->. reflexivity. Qed.

(** Reading entry [i] back and writing it changes nothing. *)
Lemma insert_vget_self (v : list Q) i : <[i := v.[i]]> v = v.
Proof.
  destruct (decide (i < length v)%nat) as [Hi|Hi].
  - apply list_insert_id. by apply lookup_vget.
  - apply list_insert_ge. lia.
Qed.

(** Pulling a bound [max(a, -delta)] in to [-tr] with [tr <= delta] gives
    [max(a, -tr)], and symmetrically for the upper bound. *)
Lemma clamp_lower_Qmax a delta tr :
  tr <= delta -> (if Qltb (Qmax a (- delta)) (- tr) then - tr else Qmax a (- delta)) == Qmax a (- tr).
Proof. intros Ht. qcase; qlin. Qed.

Lemma clamp_upper_Qmin a delta tr :
  tr <= delta -> (if Qltb tr (Qmin a delta) then tr else Qmin a delta) == Qmin a tr.
Proof. intros Ht. qcase; qlin. Qed.

Section Reading.
Variable cfg : QpHandlerCfg.
Variable tr : Q.

(** The in-place clamp of [decrease_trust_region] without bound slacks. *)
Definition clamp_lb (x : Q) : Q := if Qltb x (- tr) then - tr else x.
Definition clamp_ub (x : Q) : Q := if Qltb tr x then tr else x.

Lemma decrease_lb_lookup (h : QpHandler QpData) k :
  slack_formulation_ cfg = false ->
  qd_lb (qp_solver_interface_ (decrease_trust_region cfg tr h)) !! k =
  if decide (k < num_nlp_variables_ cfg ∧ k < length (qd_lb (qp_solver_interface_ h)))%nat
  then Some (clamp_lb (qd_lb (qp_solver_interface_ h)).[k])
  else qd_lb (qp_solver_interface_ h) !! k.
Proof.
  intros Hs. unfold decrease_trust_region. rewrite Hs. simpl.
  rewrite (for_range_proj qd_lb _ _ _ (fun i w => <[(0 + i)%nat := (fun _ x => clamp_lb x) i w.[0 + i]]> w)).
  - rewrite for_range_update_lookup, ?Nat.add_0_l, ?Nat.sub_0_r. repeat case_decide; done || lia.
  - intros i x _. unfold clamp_lb. simpl.
    destruct (Qltb (qd_lb x).[i] (- tr)); destruct (Qltb tr _); simpl; by rewrite ?insert_vget_self.
Qed.

Lemma decrease_ub_lookup (h : QpHandler QpData) k :
  slack_formulation_ cfg = false ->
  qd_ub (qp_solver_interface_ (decrease_trust_region cfg tr h)) !! k =
  if decide (k < num_nlp_variables_ cfg ∧ k < length (qd_ub (qp_solver_interface_ h)))%nat
  then Some (clamp_ub (qd_ub (qp_solver_interface_ h)).[k])
  else qd_ub (qp_solver_interface_ h) !! k.
Proof.
  intros Hs. unfold decrease_trust_region. rewrite Hs. simpl.
  rewrite (for_range_proj qd_ub _ _ _ (fun i w => <[(0 + i)%nat := (fun _ x => clamp_ub x) i w.[0 + i]]> w)).
  - rewrite for_range_update_lookup, ?Nat.add_0_l, ?Nat.sub_0_r. repeat case_decide; done || lia.
  - intros i x _. unfold clamp_ub. simpl.
    destruct (Qltb (qd_lb x).[i] (- tr)); destruct (Qltb tr _); simpl; by rewrite ?insert_vget_self.
Qed.

Lemma decrease_lb_lookup_any (h : QpHandler QpData) k :
  qd_lb (qp_solver_interface_ (decrease_trust_region cfg tr h)) !! k =
  if decide (k < num_nlp_variables_ cfg ∧ k < length (qd_lb (qp_solver_interface_ h)))%nat
  then Some (if slack_formulation_ cfg then - tr else clamp_lb (qd_lb (qp_solver_interface_ h)).[k])
  else qd_lb (qp_solver_interface_ h) !! k.
Proof.
  destruct (slack_formulation_ cfg) eqn:Hs; [|by apply decrease_lb_lookup].
  unfold decrease_trust_region. rewrite Hs. simpl. loop_read. repeat case_decide; done || lia.
Qed.

Lemma decrease_ub_lookup_any (h : QpHandler QpData) k :
  qd_ub (qp_solver_interface_ (decrease_trust_region cfg tr h)) !! k =
  if decide (k < num_nlp_variables_ cfg ∧ k < length (qd_ub (qp_solver_interface_ h)))%nat
  then Some (if slack_formulation_ cfg then tr else clamp_ub (qd_ub (qp_solver_interface_ h)).[k])
  else qd_ub (qp_solver_interface_ h) !! k.
Proof.
  destruct (slack_formulation_ cfg) eqn:Hs; [|by apply decrease_ub_lookup].
  unfold decrease_trust_region. rewrite Hs. simpl. loop_read. repeat case_decide; done || lia.
Qed.

Section Bounds.
Variables (x_l x_u x_k c_l c_u c_k : list Q).

Lemma set_bounds_lb_lookup r (h : QpHandler QpData) k :
  slack_formulation_ cfg = false ->
  qd_lb (qp_solver_interface_ (set_bounds cfg r x_l x_u x_k c_l c_u c_k h)) !! k =
  if decide (k < num_nlp_variables_ cfg ∧ k < length (qd_lb (qp_solver_interface_ h)))%nat
  then Some (Qmax (x_l.[k] - x_k.[k]) (- r)) else qd_lb (qp_solver_interface_ h) !! k.
Proof. intros Hs. unfold set_bounds. rewrite Hs. simpl. loop_read. repeat case_decide; done || lia. Qed.

Lemma set_bounds_ub_lookup r (h : QpHandler QpData) k :
  slack_formulation_ cfg = false ->
  qd_ub (qp_solver_interface_ (set_bounds cfg r x_l x_u x_k c_l c_u c_k h)) !! k =
  if decide (k < num_nlp_variables_ cfg ∧ k < length (qd_ub (qp_solver_interface_ h)))%nat
  then Some (Qmin (x_u.[k] - x_k.[k]) r) else qd_ub (qp_solver_interface_ h) !! k.
Proof. intros Hs. unfold set_bounds. rewrite Hs. simpl. loop_read. repeat case_decide; done || lia. Qed.

Lemma set_bounds_lb_length r (h : QpHandler QpData) :
  length (qd_lb (qp_solver_interface_ (set_bounds cfg r x_l x_u x_k c_l c_u c_k h))) =
  length (qd_lb (qp_solver_interface_ h)).
Proof. unfold set_bounds. destruct (slack_formulation_ cfg); simpl; loop_read; by loop_len. Qed.

Lemma set_bounds_ub_length r (h : QpHandler QpData) :
  length (qd_ub (qp_solver_interface_ (set_bounds cfg r x_l x_u x_k c_l c_u c_k h))) =
  length (qd_ub (qp_solver_interface_ h)).
Proof. unfold set_bounds. destruct (slack_formulation_ cfg); simpl; loop_read; by loop_len. Qed.
End Bounds.

(** [decrease_trust_region] writes only the step bounds. *)
Lemma decrease_trust_region_frame (h : QpHandler QpData) :
  let d := qp_solver_interface_ h in
  let d' := qp_solver_interface_ (decrease_trust_region cfg tr h) in
  qd_lbA d' = qd_lbA d ∧ qd_ubA d' = qd_ubA d ∧ qd_g d' = qd_g d ∧
  qd_H d' = qd_H d ∧ qd_A d' = qd_A d ∧
  length (qd_lb d') = length (qd_lb d) ∧ length (qd_ub d') = length (qd_ub d).
Proof.
  unfold decrease_trust_region. simpl. destruct (slack_formulation_ cfg).
  - repeat split; loop_read; loop_len; done.
  - set (d := qp_solver_interface_ h).
    apply (for_range_ind (fun x : QpData => qd_lbA x = qd_lbA d ∧ qd_ubA x = qd_ubA d ∧
      qd_g x = qd_g d ∧ qd_H x = qd_H d ∧ qd_A x = qd_A d ∧
      length (qd_lb x) = length (qd_lb d) ∧ length (qd_ub x) = length (qd_ub d))); [done|].
    intros i x _ (?&?&?&?&?&?&?).
    destruct (Qltb (qd_lb x).[i] (- tr)); destruct (Qltb tr _); simpl;
      rewrite ?length_insert; done.
Qed.
End Reading.

(** Without bound slacks, clamping a step bound built with radius
    [delta] to [tr <= delta] is the bound built with [tr]. *)
Lemma clamp_after_set_bounds cfg delta tr x_l x_u x_k c_l c_u c_k (h : QpHandler QpData) :
  slack_formulation_ cfg = false -> tr <= delta ->
  qp_equiv (qp_solver_interface_ (decrease_trust_region cfg tr
              (set_bounds cfg delta x_l x_u x_k c_l c_u c_k h)))
           (qp_solver_interface_ (set_bounds cfg tr x_l x_u x_k c_l c_u c_k h)).
Proof.
  intros Hs Ht.
  destruct (decrease_trust_region_frame cfg tr (set_bounds cfg delta x_l x_u x_k c_l c_u c_k h))
    as (E1&E2&E3&E4&E5&_).
  cbv zeta in *. unfold qp_equiv. repeat split; [| |rewrite E1|rewrite E2|rewrite E3|rewrite E4|rewrite E5].
  3-7: unfold set_bounds; rewrite Hs; simpl; try apply veq_of_eq; try (apply list_eq; intros k); loop_read; reflexivity.
  - apply Forall2_lookup. intros k.
    rewrite decrease_lb_lookup, set_bounds_lb_length by done.
    rewrite (set_bounds_lb_lookup _ _ _ _ _ _ _ tr) by done. case_decide as Hk.
    + rewrite (vget_lookup _ k (Qmax (x_l.[k] - x_k.[k]) (- delta)));
        [|by rewrite set_bounds_lb_lookup, decide_True].
      constructor. by apply clamp_lower_Qmax.
    + rewrite set_bounds_lb_lookup, decide_False by done.
      destruct (_ !! k); constructor; reflexivity.
  - apply Forall2_lookup. intros k.
    rewrite decrease_ub_lookup, set_bounds_ub_length by done.
    rewrite (set_bounds_ub_lookup _ _ _ _ _ _ _ tr) by done. case_decide as Hk.
    + rewrite (vget_lookup _ k (Qmin (x_u.[k] - x_k.[k]) delta));
        [|by rewrite set_bounds_ub_lookup, decide_True].
      constructor. by apply clamp_upper_Qmin.
    + rewrite set_bounds_ub_lookup, decide_False by done.
      destruct (_ !! k); constructor; reflexivity.
Qed.

(** The step bounds after [decrease_trust_region], entry by entry. *)
Lemma decrease_lb_vget cfg tr (h : QpHandler QpData) i :
  (i < num_nlp_variables_ cfg)%nat -> (i < length (qd_lb (qp_solver_interface_ h)))%nat ->
  (qd_lb (qp_solver_interface_ (decrease_trust_region cfg tr h))).[i] =
  if slack_formulation_ cfg then - tr else clamp_lb tr (qd_lb (qp_solver_interface_ h)).[i].
Proof. intros Hn Hl. apply vget_lookup. rewrite decrease_lb_lookup_any. by rewrite decide_True. Qed.

Lemma decrease_ub_vget cfg tr (h : QpHandler QpData) i :
  (i < num_nlp_variables_ cfg)%nat -> (i < length (qd_ub (qp_solver_interface_ h)))%nat ->
  (qd_ub (qp_solver_interface_ (decrease_trust_region cfg tr h))).[i] =
  if slack_formulation_ cfg then tr else clamp_ub tr (qd_ub (qp_solver_interface_ h)).[i].
Proof. intros Hn Hl. apply vget_lookup. rewrite decrease_ub_lookup_any. by rewrite decide_True. Qed.

(** ** Reading the objective *)

Section Objective.
Variable cfg : QpHandlerCfg.

Lemma set_linear_g_lookup gradient rho (h : QpHandler QpData) k :
  let g := qd_g (qp_solver_interface_ h) in
  qd_g (qp_solver_interface_ (set_linear_qp_objective_coefficients cfg gradient rho h)) !! k =
  if decide (k < num_nlp_variables_ cfg ∧ k < length g)%nat then Some gradient.[k]
  else if decide ((num_nlp_variables_ cfg ≤ k < num_qp_variables_ cfg ∧ k < length g)%nat ∧
                  Qeq_bool rho (last_penalty_parameter_ h) = false)
  then Some rho else g !! k.
Proof.
  unfold set_linear_qp_objective_coefficients, slack_loop. cbv zeta.
  destruct (Qeq_bool rho _) eqn:Hq; simpl; rewrite ?for_range_pair; simpl;
    [|case_decide]; simpl; loop_read; loop_len; repeat case_decide; try done; lia.
Qed.

Lemma set_linear_last gradient rho (h : QpHandler QpData) :
  last_penalty_parameter_ (set_linear_qp_objective_coefficients cfg gradient rho h) =
  if negb (Qeq_bool rho (last_penalty_parameter_ h)) &&
     bool_decide (num_nlp_variables_ cfg < num_qp_variables_ cfg)%nat
  then rho else last_penalty_parameter_ h.
Proof.
  unfold set_linear_qp_objective_coefficients, slack_loop.
  destruct (Qeq_bool rho _); simpl; [done|]. rewrite for_range_pair. simpl.
  repeat case_decide; case_bool_decide; done || lia.
Qed.

Lemma set_linear_g_length gradient rho (h : QpHandler QpData) :
  length (qd_g (qp_solver_interface_ (set_linear_qp_objective_coefficients cfg gradient rho h))) =
  length (qd_g (qp_solver_interface_ h)).
Proof.
  unfold set_linear_qp_objective_coefficients, slack_loop.
  destruct (negb _); rewrite ?for_range_pair; simpl; by loop_len.
Qed.

Lemma update_penalty_g_lookup rho (h : QpHandler QpData) k :
  let g := qd_g (qp_solver_interface_ h) in
  qd_g (qp_solver_interface_ (update_penalty_parameter cfg rho h)) !! k =
  if decide ((num_nlp_variables_ cfg ≤ k < num_qp_variables_ cfg ∧ k < length g)%nat ∧
             Qeq_bool rho (last_penalty_parameter_ h) = false)
  then Some rho else g !! k.
Proof.
  unfold update_penalty_parameter, slack_loop. cbv zeta.
  destruct (Qeq_bool rho _); simpl; loop_read; repeat case_decide; try done; lia.
Qed.

End Objective.

(** ** What every call leaves alone *)

Definition frame_of (cfg : QpHandlerCfg) (d d' : QpData) : Prop :=
  length (qd_lb d') = length (qd_lb d) ∧ length (qd_ub d') = length (qd_ub d) ∧
  length (qd_g d') = length (qd_g d) ∧
  length (qd_lbA d') = length (qd_lbA d) ∧ length (qd_ubA d') = length (qd_ubA d) ∧
  (forall k, (num_nlp_variables_ cfg ≤ k)%nat -> qd_lb d' !! k = qd_lb d !! k ∧ qd_ub d' !! k = qd_ub d !! k).

Lemma frame_of_trans cfg d1 d2 d3 : frame_of cfg d1 d2 -> frame_of cfg d2 d3 -> frame_of cfg d1 d3.
Proof.
  intros (?&?&?&?&?&Hf1) (?&?&?&?&?&Hf2). repeat split; try congruence.
  all: match goal with Hk : (_ ≤ ?k)%nat |- _ => destruct (Hf1 k Hk), (Hf2 k Hk); congruence end.
Qed.

Ltac frame_tac :=
  unfold frame_of; repeat split; try (intros k Hk; split);
  loop_read; loop_len; repeat case_decide; try done; lia.

Lemma run_call_frame cfg c (h : QpHandler QpData) :
  frame_of cfg (qp_solver_interface_ h) (qp_solver_interface_ (run_call cfg c h)).
Proof.
  destruct c as [r x_l x_u x_k c_l c_u c_k|gradient rho|hessian|jacobian|rho|tr]; cbn [run_call].
  - unfold set_bounds. destruct (slack_formulation_ cfg); simpl; frame_tac.
  - unfold set_linear_qp_objective_coefficients, slack_loop.
    destruct (negb _); rewrite ?for_range_pair; simpl; frame_tac.
  - frame_tac.
  - frame_tac.
  - unfold update_penalty_parameter, slack_loop. destruct (negb _); simpl; frame_tac.
  - destruct (decrease_trust_region_frame cfg tr h) as (E1&E2&E3&_&_&E6&E7).
    repeat split; try congruence.
    + rewrite decrease_lb_lookup_any. case_decide; [lia|done].
    + rewrite decrease_ub_lookup_any. case_decide; [lia|done].
Qed.

Lemma run_calls_frame cfg cs (h : QpHandler QpData) :
  frame_of cfg (qp_solver_interface_ h) (qp_solver_interface_ (run_calls cfg cs h)).
Proof.
  revert h. induction cs as [|c cs IH]; intros h; simpl.
  - frame_tac.
  - eapply frame_of_trans; [apply run_call_frame|apply IH].
Qed.

(** ** Theorems *)

(** C29: Shrinking the trust region in place is rebuilding the bounds:
    [decrease_trust_region tr] after [set_bounds] with radius [delta >= tr]
    gives, in both formulations and for every lawful solver interface, the
    QP that [set_bounds] builds with radius [tr] (entries equal up to
    [Qeq]). *)
Theorem decrease_trust_region_refines {S} `{QPSolverInterfaceLaws S}
    cfg delta tr x_l x_u x_k c_l c_u c_k (h : QpHandler S) :
  tr <= delta ->
  qp_equiv (qp_of (decrease_trust_region cfg tr (set_bounds cfg delta x_l x_u x_k c_l c_u c_k h)))
           (qp_of (set_bounds cfg tr x_l x_u x_k c_l c_u c_k h)).
Proof.
  intros Ht. rewrite !qp_of_hdata, decrease_trust_region_data, !rq_set_bounds_data.
  destruct (slack_formulation_ cfg) eqn:Hs.
  - enough (E : qp_solver_interface_ (decrease_trust_region cfg tr
                  (set_bounds cfg delta x_l x_u x_k c_l c_u c_k (hdata h))) =
                qp_solver_interface_ (set_bounds cfg tr x_l x_u x_k c_l c_u c_k (hdata h)))
      by (rewrite E; reflexivity).
    unfold decrease_trust_region, set_bounds. rewrite Hs. simpl. qp_ext.
  - by apply clamp_after_set_bounds.
Qed.

(** C30: After [decrease_trust_region tr] every step bound lies inside
    the trust region, [-tr <= lb_i] and [ub_i <= tr]; without bound slacks
    the bounds only tighten, [lb_i <= lb'_i] and [ub'_i <= ub_i]. *)
Theorem decrease_trust_region_box {S} `{QPSolverInterfaceLaws S} cfg tr (h : QpHandler S) i :
  (i < num_nlp_variables_ cfg)%nat ->
  (i < length (qd_lb (qp_of h)))%nat -> (i < length (qd_ub (qp_of h)))%nat ->
  let d := qp_of h in let d' := qp_of (decrease_trust_region cfg tr h) in
  (- tr <= (qd_lb d').[i] ∧ (qd_ub d').[i] <= tr) ∧
  (slack_formulation_ cfg = false -> (qd_lb d).[i] <= (qd_lb d').[i] ∧ (qd_ub d').[i] <= (qd_ub d).[i]).
Proof.
  rewrite !qp_of_hdata, decrease_trust_region_data. intros Hn Hl Hu. cbv zeta.
  rewrite decrease_lb_vget, decrease_ub_vget by done. unfold clamp_lb, clamp_ub.
  destruct (slack_formulation_ cfg); [split; [lra|done]|].
  split; [split|intros _; split]; qcase; lra.
Qed.


(** The constructor's loop puts every slack variable in [[0, INF)]. *)
Lemma set_slack_bounds_ok cfg (d : QpData) :
  qp_dims cfg d -> slack_bounds_ok cfg (set_slack_bounds cfg d).
Proof.
  intros (Hl&Hu&_) i Hi. unfold set_slack_bounds, slack_loop. simpl.
  loop_read. rewrite !decide_True by lia. done.
Qed.

(** C31: The bounds [[0, INF)] of the slack variables, which the
    constructor writes once, are never changed by any sequence of calls:
    every call writes the variable bounds of the step only. *)
Theorem slack_bounds_invariant {S} `{QPSolverInterfaceLaws S}
    nVar nCon slack choice (s0 : S) cfg (h : QpHandler S) cs :
  QpHandler_new nVar nCon slack choice s0 = (cfg, h) ->
  qp_dims cfg (qp_data s0) ->
  slack_bounds_ok cfg (qp_of (run_calls cfg cs h)).
Proof.
  unfold QpHandler_new. intros Hn Hd. injection Hn as <- <-.
  rewrite qp_of_hdata, run_calls_data.
  destruct (run_calls_frame (QpHandler_cfg nVar nCon slack choice) cs
              (hdata (mkQpHandler (set_slack_bounds (QpHandler_cfg nVar nCon slack choice) s0) (-1) None)))
    as (_&_&_&_&_&Hf).
  intros i Hi. rewrite !(proj1 (Hf i ltac:(lia))), !(proj2 (Hf i ltac:(lia))).
  simpl. rewrite set_slack_bounds_data. by apply set_slack_bounds_ok.
Qed.

(** Entry [i] of [g] exists exactly below the length. *)
Lemma lookup_Some_lt (v : list Q) i x : v !! i = Some x -> (i < length v)%nat.
Proof. apply lookup_lt_Some. Qed.

Lemma set_linear_cache_data cfg gradient rho (h : QpHandler QpData) :
  cache_ok cfg (qp_solver_interface_ h) (last_penalty_parameter_ h) ->
  let h' := set_linear_qp_objective_coefficients cfg gradient rho h in
  cache_ok cfg (qp_solver_interface_ h') (last_penalty_parameter_ h') ∧
  forall i x, qd_g (qp_solver_interface_ h') !! i = Some x ->
    ((i < num_nlp_variables_ cfg)%nat -> x = gradient.[i]) ∧
    ((num_nlp_variables_ cfg ≤ i < num_qp_variables_ cfg)%nat -> x == rho).
Proof.
  intros Hc. split.
  - intros i x Hi Hx. pose proof (lookup_Some_lt _ _ _ Hx) as Hl. rewrite set_linear_g_length in Hl.
    rewrite set_linear_g_lookup in Hx. rewrite set_linear_last.
    rewrite decide_False in Hx by lia.
    destruct (Qeq_bool rho _) eqn:Hq; simpl.
    + rewrite decide_False in Hx by (intros [_ ?]; discriminate). by apply (Hc i).
    + rewrite decide_True in Hx by (split; [lia|done]). rewrite bool_decide_true by lia.
      injection Hx as <-. reflexivity.
  - intros i x Hx. pose proof (lookup_Some_lt _ _ _ Hx) as Hl. rewrite set_linear_g_length in Hl.
    rewrite set_linear_g_lookup in Hx. split; intros Hi.
    + rewrite decide_True in Hx by lia. by injection Hx as <-.
    + rewrite decide_False in Hx by lia. destruct (Qeq_bool rho _) eqn:Hq.
      * rewrite decide_False in Hx by (intros [_ ?]; discriminate).
        apply Qeq_bool_iff in Hq. rewrite (Hc i x Hi Hx). by symmetry.
      * rewrite decide_True in Hx by (split; [lia|done]). injection Hx as <-. reflexivity.
Qed.

(** C32: While the cache is right (every slack weight is the cached
    penalty), [set_linear_qp_objective_coefficients gradient rho] leaves
    the objective [[gradient; rho e]] (up to [Qeq]) and the cache right. *)
Theorem set_linear_qp_objective_coefficients_spec {S} `{QPSolverInterfaceLaws S}
    cfg gradient rho (h : QpHandler S) :
  penalty_cache_ok cfg h ->
  let h' := set_linear_qp_objective_coefficients cfg gradient rho h in
  penalty_cache_ok cfg h' ∧
  forall i x, qd_g (qp_of h') !! i = Some x ->
    ((i < num_nlp_variables_ cfg)%nat -> x = gradient.[i]) ∧
    ((num_nlp_variables_ cfg ≤ i < num_qp_variables_ cfg)%nat -> x == rho).
Proof.
  unfold penalty_cache_ok. rewrite !qp_of_hdata. intros Hc. cbv zeta.
  change (last_penalty_parameter_ (set_linear_qp_objective_coefficients cfg gradient rho h))
    with (last_penalty_parameter_ (hdata (set_linear_qp_objective_coefficients cfg gradient rho h))).
  rewrite set_linear_qp_objective_coefficients_data.
  by apply set_linear_cache_data.
Qed.

(** C33: [update_penalty_parameter] rewrites the slack weights but not
    the cache, so a later [set_linear_qp_objective_coefficients] with the
    previous penalty [rho1] skips them: the QP keeps the weight [rho2]
    although [rho1] was asked for. *)
Theorem update_penalty_parameter_stale_cache {S} `{QPSolverInterfaceLaws S}
    cfg grad grad' rho1 rho2 (h : QpHandler S) :
  (num_nlp_variables_ cfg < num_qp_variables_ cfg)%nat ->
  (num_nlp_variables_ cfg < length (qd_g (qp_of h)))%nat ->
  ~ (rho1 == rho2) ->
  qd_g (qp_of (set_linear_qp_objective_coefficients cfg grad' rho1
         (update_penalty_parameter cfg rho2
           (set_linear_qp_objective_coefficients cfg grad rho1 h))))
    !! num_nlp_variables_ cfg = Some rho2.
Proof.
  rewrite !qp_of_hdata, set_linear_qp_objective_coefficients_data,
    update_penalty_parameter_data, set_linear_qp_objective_coefficients_data.
  generalize (hdata h). clear h. intros h Hn Hl Hr.
  assert (Hq1 : Qeq_bool rho1 (last_penalty_parameter_
                  (set_linear_qp_objective_coefficients cfg grad rho1 h)) = true).
  { rewrite set_linear_last. apply Qeq_bool_iff.
    destruct (Qeq_bool rho1 _) eqn:Hq; simpl; [by apply Qeq_bool_iff|].
    rewrite bool_decide_true by lia. reflexivity. }
  assert (Hq2 : Qeq_bool rho2 (last_penalty_parameter_
                  (set_linear_qp_objective_coefficients cfg grad rho1 h)) = false).
  { apply not_true_iff_false. intros Hq. apply Qeq_bool_iff in Hq, Hq1. apply Hr. by rewrite Hq1, Hq. }
  assert (Hl2 : forall h1 : QpHandler QpData,
            last_penalty_parameter_ (update_penalty_parameter cfg rho2 h1) = last_penalty_parameter_ h1)
    by (intros h1; unfold update_penalty_parameter; by destruct (negb _)).
  rewrite set_linear_g_lookup, Hl2, Hq1, update_penalty_g_lookup, Hq2.
  rewrite decide_False by lia. rewrite decide_False by (intros [_ ?]; discriminate).
  rewrite decide_True; [done|]. split; [|done]. split; [lia|]. by rewrite set_linear_g_length.
Qed.

(** ** Solving *)

Section SolveTheorems.
Context {S : Type} `{!QPSolverInterface S}.
Context {QpSolverExitStatus : Type} `{!EqDecision QpSolverExitStatus}.
Variables (QPEXIT_OPTIMAL : QpSolverExitStatus) (optimize : S -> S)
  (get_solver_status : S -> QpSolverExitStatus) (calc_kkt_error : S -> Q) (NDEBUG : bool).

(** C34: An optimal exit of the solver is returned as optimal whatever
    its KKT error: even when the error is above [qp_error_tol] the
    handler only records it in [last_kkt_error_]. *)
Theorem solve_accepts_any_kkt_error (h : QpHandler S) :
  get_solver_status (optimize (qp_solver_interface_ h)) = QPEXIT_OPTIMAL ->
  qp_error_tol <= calc_kkt_error (optimize (qp_solver_interface_ h)) ->
  exists h', solve QPEXIT_OPTIMAL optimize get_solver_status calc_kkt_error NDEBUG h =
             SolveReturned h' QPEXIT_OPTIMAL ∧
             last_kkt_error_ h' = Some (calc_kkt_error (optimize (qp_solver_interface_ h))) ∧
             qp_solver_interface_ h' = optimize (qp_solver_interface_ h).
Proof. intros Hs _. unfold solve. rewrite decide_True by done. rewrite Hs. by eexists. Qed.

(** A non-optimal exit stores the KKT error [1e20]; a debug build
    aborts at the assertion, a build with [NDEBUG] returns the solver's
    status to the caller. *)
Theorem solve_failure_paths (h : QpHandler S) :
  get_solver_status (optimize (qp_solver_interface_ h)) ≠ QPEXIT_OPTIMAL ->
  match solve QPEXIT_OPTIMAL optimize get_solver_status calc_kkt_error NDEBUG h with
  | SolveAborted h' => NDEBUG = false ∧ last_kkt_error_ h' = Some (100000000000000000000 # 1)
  | SolveReturned h' st => NDEBUG = true ∧ st = get_solver_status (optimize (qp_solver_interface_ h)) ∧
                           last_kkt_error_ h' = Some (100000000000000000000 # 1)
  end.
Proof. intros Hs. unfold solve. rewrite decide_False by done. by destruct NDEBUG. Qed.
End SolveTheorems.

(** ** Witnesses *)

(** A QP over one NLP variable and one constraint, as the solver object
    is created: [3] variables, [1] constraint row. *)
Definition ex_qp0 : QpData := mkQpData [0; 0; 0] [0; 0; 0] [0] [0] [0; 0; 0] None None.
Definition ex_rq_cfg : QpHandlerCfg := fst (QpHandler_new 1 1 false QPOASES ex_qp0).
Definition ex_rq_h : QpHandler QpData := snd (QpHandler_new 1 1 false QPOASES ex_qp0).
(** With bound slacks: [5] variables, [2] rows. *)
Definition ex_qp_slack : QpData :=
  mkQpData [0; 0; 0; 0; 0] [0; 0; 0; 0; 0] [0; 0] [0; 0] [0; 0; 0; 0; 0] None None.
Definition ex_rq_cfg_slack : QpHandlerCfg := fst (QpHandler_new 1 1 true QPOASES ex_qp_slack).
Definition ex_rq_h_slack : QpHandler QpData := snd (QpHandler_new 1 1 true QPOASES ex_qp_slack).
Definition ex_rq_h1 : QpHandler QpData :=
  set_linear_qp_objective_coefficients ex_rq_cfg [5] 1 ex_rq_h.

Lemma decrease_trust_region_refines_witness :
  1 <= 2 ∧
  qp_equiv (qp_of (decrease_trust_region ex_rq_cfg 1
              (set_bounds ex_rq_cfg 2 [-5] [5] [3] [0] [0] [1] ex_rq_h)))
           (qp_of (set_bounds ex_rq_cfg 1 [-5] [5] [3] [0] [0] [1] ex_rq_h)).
Proof. split; [lra|]. apply decrease_trust_region_refines. lra. Defined.

Lemma decrease_trust_region_box_witness :
  (0 < num_nlp_variables_ ex_rq_cfg_slack)%nat ∧
  (0 < length (qd_lb (qp_of ex_rq_h)))%nat ∧ (0 < length (qd_ub (qp_of ex_rq_h)))%nat ∧
  let d := qp_of ex_rq_h in let d' := qp_of (decrease_trust_region ex_rq_cfg_slack 1 ex_rq_h) in
  (Qopp 1 <= (qd_lb d').[0] ∧ (qd_ub d').[0] <= 1) ∧
  (slack_formulation_ ex_rq_cfg_slack = false ->
   (qd_lb d).[0] <= (qd_lb d').[0] ∧ (qd_ub d').[0] <= (qd_ub d).[0]).
Proof.
  split; [vm_compute; lia|]. split; [vm_compute; lia|]. split; [vm_compute; lia|].
  apply decrease_trust_region_box; vm_compute; lia.
Defined.

Lemma slack_bounds_invariant_witness :
  QpHandler_new 1 1 true QPOASES ex_qp_slack = (ex_rq_cfg_slack, ex_rq_h_slack) ∧
  qp_dims ex_rq_cfg_slack (qp_data ex_qp_slack) ∧
  slack_bounds_ok ex_rq_cfg_slack (qp_of (run_calls ex_rq_cfg_slack
    [CallSetBounds 2 [-5] [5] [3] [0] [0] [1]; CallUpdatePenalty 10; CallDecreaseTrustRegion 1]
    ex_rq_h_slack)).
Proof.
  assert (Hd : qp_dims ex_rq_cfg_slack (qp_data ex_qp_slack)) by (vm_compute; repeat split).
  split; [reflexivity|]. split; [exact Hd|].
  apply (slack_bounds_invariant 1 1 true QPOASES ex_qp_slack); [reflexivity|exact Hd].
Defined.

Lemma set_linear_qp_objective_coefficients_spec_witness :
  penalty_cache_ok ex_rq_cfg ex_rq_h1 ∧
  let h' := set_linear_qp_objective_coefficients ex_rq_cfg [7] 2 ex_rq_h1 in
  penalty_cache_ok ex_rq_cfg h' ∧
  forall i x, qd_g (qp_of h') !! i = Some x ->
    ((i < num_nlp_variables_ ex_rq_cfg)%nat -> x = [7].[i]) ∧
    ((num_nlp_variables_ ex_rq_cfg ≤ i < num_qp_variables_ ex_rq_cfg)%nat -> x == 2).
Proof.
  assert (Hc : penalty_cache_ok ex_rq_cfg ex_rq_h1).
  { intros i x Hi. assert (i = 1%nat ∨ i = 2%nat) as [-> | ->] by (vm_compute in Hi; lia);
      vm_compute; intros [= <-]; reflexivity. }
  split; [exact Hc|]. apply set_linear_qp_objective_coefficients_spec. exact Hc.
Defined.

Lemma update_penalty_parameter_stale_cache_witness :
  (num_nlp_variables_ ex_rq_cfg < num_qp_variables_ ex_rq_cfg)%nat ∧
  (num_nlp_variables_ ex_rq_cfg < length (qd_g (qp_of ex_rq_h)))%nat ∧ ~ (1 == 10) ∧
  qd_g (qp_of (set_linear_qp_objective_coefficients ex_rq_cfg [6] 1
         (update_penalty_parameter ex_rq_cfg 10
           (set_linear_qp_objective_coefficients ex_rq_cfg [5] 1 ex_rq_h))))
    !! num_nlp_variables_ ex_rq_cfg = Some 10.
Proof.
  split; [vm_compute; lia|]. split; [vm_compute; lia|]. split; [intros Hq; vm_compute in Hq; discriminate|].
  apply update_penalty_parameter_stale_cache; [vm_compute; lia|vm_compute; lia|].
  intros Hq; vm_compute in Hq; discriminate.
Defined.

Lemma solve_accepts_any_kkt_error_witness :
  (fun _ : QpData => true) (id (qp_solver_interface_ ex_rq_h)) = true ∧
  qp_error_tol <= (fun _ : QpData => 1) (id (qp_solver_interface_ ex_rq_h)) ∧
  exists h', solve true id (fun _ => true) (fun _ => 1) false ex_rq_h = SolveReturned h' true ∧
             last_kkt_error_ h' = Some 1 ∧ qp_solver_interface_ h' = id (qp_solver_interface_ ex_rq_h).
Proof.
  split; [reflexivity|]. split; [qdecide|].
  apply (solve_accepts_any_kkt_error true id (fun _ => true) (fun _ => 1) false ex_rq_h);
    [reflexivity|qdecide].
Defined.

Lemma solve_failure_paths_witness :
  (fun _ : QpData => false) (id (qp_solver_interface_ ex_rq_h)) ≠ true ∧
  match solve true id (fun _ => false) (fun _ => 0) true ex_rq_h with
  | SolveAborted h' => true = false ∧ last_kkt_error_ h' = Some (100000000000000000000 # 1)
  | SolveReturned h' st => true = true ∧ st = false ∧
                           last_kkt_error_ h' = Some (100000000000000000000 # 1)
  end.
Proof.
  split; [discriminate|].
  apply (solve_failure_paths true id (fun _ => false) (fun _ => 0) true ex_rq_h). discriminate.
Defined.

End RQ.
