(* ===== verification/OptTest.v ===== *)
(** * The NLP optimality test (src/src/OptTest.cpp, src/include/sqphot/OptTest.hpp)

    [NLP_OptTest] keeps pointers to the iterate, the bounds and the kinds
    of the constraints, two integer arrays of activity tags and the flags
    [primal_feasibility_], [dual_feasibility_], [complementarity_],
    [stationarity_], [second_order_opt_].  Its fixed part is the record
    [OptTestData] (the vectors are read through [shared_ptr<const
    Vector>] and never written), its mutable part the record
    [OptTestState].  An array allocated with [new int[n]()] is a list of
    [n] zeros; a pointer that is still [NULL] is [None].  Reading
    [cons_type_[i]] past the constraints is out of range in C++; the model
    reads [None] there, which matches none of the kinds.

    The class hierarchy of OptTest.hpp ([OptTest], [NLP_OptTest],
    [QP_OptTest]) is the type class [OptTest] with one instance per
    class: a call through an [OptTest*] is [vcall], and the theorems show
    that the flags an [OptTest*] reads are never set, because each derived
    class redeclares them. *)

From S2P Require Import Prelude SqpTypes.
Local Open Scope Q_scope.

(** The options [NLP_OptTest] copies in its constructor. *)
Record OptTestOptions := mkOptTestOptions {
  opt_tol : Q; opt_compl_tol : Q; opt_prim_fea_tol : Q; opt_dual_fea_tol : Q;
  opt_second_tol : Q; active_set_tol : Q
}.

Record OptTestData := mkOptTestData {
  cons_type_ : list ConstraintType;
  bound_cons_type_ : list ConstraintType;
  opt_tol_ : Q; opt_compl_tol_ : Q; opt_prim_fea_tol_ : Q; opt_dual_fea_tol_ : Q;
  opt_second_tol_ : Q; active_set_tol_ : Q;
  nVar_ : nat; nCon_ : nat;
  x_k_ : list Q; x_l_ : list Q; x_u_ : list Q;
  c_u_ : list Q; c_k_ : list Q; c_l_ : list Q
}.

Record OptTestState := mkOptTestState {
  Active_Set_constraints_ : option (list Z);
  Active_Set_bounds_ : option (list Z);
  primal_feasibility_ : bool;
  dual_feasibility_ : bool;
  complementarity_ : bool;
  stationarity_ : bool;
  second_order_opt_ : bool
}.

(** The constructor: the data, both arrays [NULL], every flag [false]
    (the in-class initialisers of OptTest.hpp). *)
Definition NLP_OptTest_new (x_k x_u x_l c_k c_u c_l : list Q) (options : OptTestOptions)
    (cons_type bound_cons_type : list ConstraintType) : OptTestData * OptTestState :=
  (mkOptTestData cons_type bound_cons_type (opt_tol options) (opt_compl_tol options)
     (opt_prim_fea_tol options) (opt_dual_fea_tol options) (opt_second_tol options)
     (active_set_tol options) (length x_k) (length c_k) x_k x_l x_u c_u c_k c_l,
   mkOptTestState None None false false false false false).

Section OptTest.
Variable d : OptTestData.

Definition set_active_sets (st : OptTestState) (ac ab : list Z) : OptTestState :=
  mkOptTestState (Some ac) (Some ab) (primal_feasibility_ st) (dual_feasibility_ st)
    (complementarity_ st) (stationarity_ st) (second_order_opt_ st).

(** [|a - b| < active_set_tol_]. *)
Definition near (a b : Q) : bool := Qltb (Qabs (a - b)) (active_set_tol_ d).

(** The tag the loop over the constraints writes at [i], if any. *)
Definition constraint_tag (i : nat) : option Z :=
  match cons_type_ d !! i with
  | Some BOUNDED_ABOVE => if near (c_u_ d).[i] (c_k_ d).[i] then Some 1%Z else None
  | Some BOUNDED_BELOW => if near (c_k_ d).[i] (c_l_ d).[i] then Some (-1)%Z else None
  | Some EQUAL =>
      if near (c_u_ d).[i] (c_k_ d).[i] && near (c_k_ d).[i] (c_l_ d).[i] then Some 99%Z else None
  | _ => None
  end.

(** The tag the loop over the variables writes at [i]: the first test
    reads [bound_cons_type_[i]], the two others read [cons_type_[i]]. *)
Definition bound_tag (i : nat) : option Z :=
  if decide (bound_cons_type_ d !! i = Some BOUNDED_ABOVE) then
    if near (x_u_ d).[i] (x_k_ d).[i] then Some 1%Z else None
  else if decide (cons_type_ d !! i = Some BOUNDED_BELOW) then
    if near (x_k_ d).[i] (x_l_ d).[i] then Some (-1)%Z else None
  else if decide (cons_type_ d !! i = Some EQUAL) then
    if near (x_u_ d).[i] (x_k_ d).[i] && near (x_k_ d).[i] (x_l_ d).[i] then Some 99%Z else None
  else None.

(** One step of a tagging loop: [Active_Set[i] = tag], or nothing. *)
Definition write_tag (tag : nat -> option Z) (i : nat) (a : list Z) : list Z :=
  match tag i with Some t => <[i := t]> a | None => a end.

(** [NLP_OptTest::IdentifyActiveSet]: allocate zeroed arrays on the first
    call, then tag; an entry that is not tagged keeps its old value. *)
Definition IdentifyActiveSet (st : OptTestState) : bool * OptTestState :=
  let ac := default (replicate (nCon_ d) 0%Z) (Active_Set_constraints_ st) in
  let ab := default (replicate (nVar_ d) 0%Z) (Active_Set_bounds_ st) in
  let ac := for_range 0 (nCon_ d) (write_tag constraint_tag) ac in
  let ab := for_range 0 (nVar_ d) (write_tag bound_tag) ab in
  (true, set_active_sets st ac ab).

(** [NLP_OptTest::Check_Feasibility(infea_measure)]: the function is
    declared [bool] but has no [return] statement, so its value is
    undefined ([None]). *)
Definition Check_Feasibility (infea_measure : Q) (st : OptTestState) : option bool * OptTestState :=
  (None,
   if negb (primal_feasibility_ st) && Qltb infea_measure (opt_prim_fea_tol_ d) then
     mkOptTestState (Active_Set_constraints_ st) (Active_Set_bounds_ st) true
       (dual_feasibility_ st) (complementarity_ st) (stationarity_ st) (second_order_opt_ st)
   else st).

(** [Check_Complementarity], [Check_Dual_Feasibility] (both overloads),
    [Check_Stationarity] and [Check_SecondOrder] return [true] and change
    nothing. *)
Definition Check_Complementarity (st : OptTestState) : bool * OptTestState := (true, st).
Definition Check_Dual_Feasibility (st : OptTestState) : bool * OptTestState := (true, st).
Definition Check_Stationarity (st : OptTestState) : bool * OptTestState := (true, st).
Definition Check_SecondOrder (st : OptTestState) : bool * OptTestState := (true, st).

(** [NLP_OptTest::Check_KKTConditions]: [Check_Feasibility()] takes the
    default argument [infea_measure = 0] of OptTest.hpp. *)
Definition Check_KKTConditions (st : OptTestState) : bool * OptTestState :=
  let st := snd (IdentifyActiveSet st) in
  let st := snd (Check_Feasibility 0 st) in
  let st := snd (Check_Complementarity st) in
  let st := snd (Check_Dual_Feasibility st) in
  let st := snd (Check_Stationarity st) in
  (true, st).

(** [setActiveSetConstraints] and [setActiveSetBounds] store the caller's
    array (the model stores its value). *)
Definition setActiveSetConstraints (a : list Z) (st : OptTestState) : OptTestState :=
  mkOptTestState (Some a) (Active_Set_bounds_ st) (primal_feasibility_ st) (dual_feasibility_ st)
    (complementarity_ st) (stationarity_ st) (second_order_opt_ st).

Definition setActiveSetBounds (a : list Z) (st : OptTestState) : OptTestState :=
  mkOptTestState (Active_Set_constraints_ st) (Some a) (primal_feasibility_ st) (dual_feasibility_ st)
    (complementarity_ st) (stationarity_ st) (second_order_opt_ st).
End OptTest.

(** ** The class hierarchy of OptTest.hpp

    [OptTest] is the base class: six virtual checks that return [false]
    and five public flags.  [NLP_OptTest] and [QP_OptTest] redeclare the
    five flags (with [stationarity_] and [second_order_opt_] in lower
    case), which hides the base members instead of setting them.  A call
    through an [OptTest*] reaches the overriding method when the
    signatures match, and the base method otherwise:
    [QP_OptTest::Check_Feasibility()] takes no argument, so
    [Check_Feasibility(double)] on a [QP_OptTest] runs the base body.
    The class [OptTest] below is the virtual table; [base_members] reads
    the flags an [OptTest*] sees. *)

(** The public members of the base class [OptTest]. *)
Record OptTestMembers := mkOptTestMembers {
  base_primal_feasibility_ : bool;
  base_dual_feasibility_ : bool;
  base_complementarity_ : bool;
  base_Stationarity_ : bool;
  base_Second_order_opt_ : bool
}.

(** The in-class initialisers: every flag [false]. *)
Definition OptTestMembers_new : OptTestMembers := mkOptTestMembers false false false false false.

Class OptTest (T : Type) := {
  base_members : T -> OptTestMembers;
  vCheck_KKTConditions : bool -> bool -> T -> bool * T;
  vCheck_SecondOrder : T -> bool * T;
  vCheck_Feasibility : Q -> T -> option bool * T;
  vCheck_Dual_Feasibility : T -> bool * T;
  vCheck_Complementarity : T -> bool * T;
  vCheck_Stationarity : T -> bool * T
}.

(** The bodies of the base class: [return false], nothing written. *)
#[export] Instance OptTest_base : OptTest OptTestMembers := {
  base_members f := f;
  vCheck_KKTConditions _ _ f := (false, f);
  vCheck_SecondOrder f := (false, f);
  vCheck_Feasibility _ f := (Some false, f);
  vCheck_Dual_Feasibility f := (false, f);
  vCheck_Complementarity f := (false, f);
  vCheck_Stationarity f := (false, f)
}.

(** An [NLP_OptTest] object: the base members, its data and its own
    members. *)
Record NLP_OptTest := mkNLP_OptTest {
  nlp_base : OptTestMembers; nlp_data : OptTestData; nlp_state : OptTestState
}.

(** A method of [NLP_OptTest] on the object: it reads the data and
    writes only the members of the derived class. *)
Definition on_nlp {A} (f : OptTestData -> OptTestState -> A * OptTestState)
    (o : NLP_OptTest) : A * NLP_OptTest :=
  let '(r, st) := f (nlp_data o) (nlp_state o) in (r, mkNLP_OptTest (nlp_base o) (nlp_data o) st).

#[export] Instance OptTest_NLP : OptTest NLP_OptTest := {
  base_members := nlp_base;
  vCheck_KKTConditions _ _ := on_nlp Check_KKTConditions;
  vCheck_SecondOrder := on_nlp (fun _ => Check_SecondOrder);
  vCheck_Feasibility x := on_nlp (fun d => Check_Feasibility d x);
  vCheck_Dual_Feasibility := on_nlp (fun _ => Check_Dual_Feasibility);
  vCheck_Complementarity := on_nlp (fun _ => Check_Complementarity);
  vCheck_Stationarity := on_nlp (fun _ => Check_Stationarity)
}.

(** The members [QP_OptTest] declares. *)
Record QP_OptTestMembers := mkQP_OptTestMembers {
  qp_primal_feasibility_ : bool; qp_dual_feasibility_ : bool; qp_complementarity_ : bool;
  qp_stationarity_ : bool; qp_second_order_opt_ : bool
}.

Record QP_OptTest := mkQP_OptTest { qp_base : OptTestMembers; qp_members : QP_OptTestMembers }.

(** The methods of OptTest.cpp for [QP_OptTest]: each returns [true];
    [Check_SecondOrder] tests the four flags and does nothing in either
    branch. *)
Definition QP_Check_Feasibility (o : QP_OptTest) : bool * QP_OptTest := (true, o).
Definition QP_Check_Complementarity (o : QP_OptTest) : bool * QP_OptTest := (true, o).
Definition QP_Check_Dual_Feasibility (o : QP_OptTest) : bool * QP_OptTest := (true, o).
Definition QP_Check_Stationarity (o : QP_OptTest) : bool * QP_OptTest := (true, o).
Definition QP_Check_SecondOrder (o : QP_OptTest) : bool * QP_OptTest :=
  let m := qp_members o in
  if qp_complementarity_ m && qp_dual_feasibility_ m && qp_stationarity_ m && qp_primal_feasibility_ m
  then (true, o) else (true, o).

(** [QP_OptTest::Check_KKTConditions]: the four checks in order, then
    [true]. *)
Definition QP_Check_KKTConditions (isPointChanged isConstraintChanged : bool) (o : QP_OptTest)
    : bool * QP_OptTest :=
  let o := snd (QP_Check_Feasibility o) in
  let o := snd (QP_Check_Complementarity o) in
  let o := snd (QP_Check_Dual_Feasibility o) in
  let o := snd (QP_Check_Stationarity o) in
  (true, o).

(** [Check_Feasibility(double)] is not overridden: the base body runs. *)
#[export] Instance OptTest_QP : OptTest QP_OptTest := {
  base_members := qp_base;
  vCheck_KKTConditions := QP_Check_KKTConditions;
  vCheck_SecondOrder := QP_Check_SecondOrder;
  vCheck_Feasibility _ o := (Some false, o);
  vCheck_Dual_Feasibility := QP_Check_Dual_Feasibility;
  vCheck_Complementarity := QP_Check_Complementarity;
  vCheck_Stationarity := QP_Check_Stationarity
}.

(** A virtual call through an [OptTest*], with its arguments. *)
Inductive VCall :=
| VCheck_KKTConditions (isPointChanged isConstraintChanged : bool)
| VCheck_SecondOrder
| VCheck_Feasibility (infea_measure : Q)
| VCheck_Dual_Feasibility
| VCheck_Complementarity
| VCheck_Stationarity.

Section Calls.
Context `{OptTest T}.

Definition vcall (c : VCall) (o : T) : T :=
  match c with
  | VCheck_KKTConditions p q => snd (vCheck_KKTConditions p q o)
  | VCheck_SecondOrder => snd (vCheck_SecondOrder o)
  | VCheck_Feasibility x => snd (vCheck_Feasibility x o)
  | VCheck_Dual_Feasibility => snd (vCheck_Dual_Feasibility o)
  | VCheck_Complementarity => snd (vCheck_Complementarity o)
  | VCheck_Stationarity => snd (vCheck_Stationarity o)
  end.

(** A sequence of calls, in order. *)
Fixpoint vrun (cs : list VCall) (o : T) : T :=
  match cs with [] => o | c :: cs => vrun cs (vcall c o) end.
End Calls.


(** [QP_OptTest() = default]: every flag [false]. *)
Definition QP_OptTest_new : QP_OptTest :=
  mkQP_OptTest OptTestMembers_new (mkQP_OptTestMembers false false false false false).

(** ** Lemmas *)

(** A tagging loop changes entry [k] once, at step [k], and keeps the
    length. *)
Lemma write_tag_loop_lookup (tag : nat -> option Z) n (a : list Z) k :
  for_range 0 n (write_tag tag) a !! k =
  if decide (k < n)%nat then (match tag k with Some t => (fun _ => t) <$> a !! k | None => a !! k end)
  else a !! k.
Proof.
  apply (for_range_local_lookup n (write_tag tag)
           (fun k o => match tag k with Some t => (fun _ => t) <$> o | None => o end)).
  - intros i w j Hj. unfold write_tag. destruct (tag i); [by rewrite list_lookup_insert_ne|done].
  - intros i w. unfold write_tag. destruct (tag i); [apply list_lookup_insert_self|done].
Qed.

Lemma write_tag_loop_length (tag : nat -> option Z) n (a : list Z) :
  length (for_range 0 n (write_tag tag) a) = length a.
Proof.
  apply (for_range_ind (fun w => length w = length a)); [done|].
  intros i w _ <-. unfold write_tag. destruct (tag i); [apply length_insert|done].
Qed.

(** Entry [k] after a tagging loop, inside the array. *)
Lemma write_tag_loop_entry (tag : nat -> option Z) n (a : list Z) k :
  (k < length a)%nat ->
  for_range 0 n (write_tag tag) a !! k =
  Some (if decide (k < n)%nat then default (default 0%Z (a !! k)) (tag k) else default 0%Z (a !! k)).
Proof.
  intros Hk. destruct (lookup_lt_is_Some_2 a k Hk) as [x Hx].
  rewrite write_tag_loop_lookup, Hx. case_decide; [|done]. by destruct (tag k).
Qed.

(** [Check_Feasibility] only ever raises [primal_feasibility_]: it is a
    latch set by the first measure below [opt_prim_fea_tol_]. *)
Lemma Check_Feasibility_latch d infea st :
  primal_feasibility_ (snd (Check_Feasibility d infea st)) =
  primal_feasibility_ st || Qltb infea (opt_prim_fea_tol_ d).
Proof. unfold Check_Feasibility. simpl. destruct (primal_feasibility_ st) eqn:E, (Qltb _ _); simpl; by rewrite ?E. Qed.

Lemma IdentifyActiveSet_flags d st :
  primal_feasibility_ (snd (IdentifyActiveSet d st)) = primal_feasibility_ st.
Proof. reflexivity. Qed.

(** [Check_KKTConditions] raises [primal_feasibility_] when the default
    measure [0] is below the tolerance. *)
Lemma Check_KKTConditions_primal d st :
  primal_feasibility_ (snd (Check_KKTConditions d st)) =
  primal_feasibility_ st || Qltb 0 (opt_prim_fea_tol_ d).
Proof.
  unfold Check_KKTConditions. cbn [snd Check_Complementarity Check_Dual_Feasibility Check_Stationarity].
  by rewrite Check_Feasibility_latch, IdentifyActiveSet_flags.
Qed.

Section Hidden.
Context `{OptTest T}.


End Hidden.





Lemma vcall_QP_base c (o : QP_OptTest) : base_members (vcall c o) = base_members o.
Proof. destruct c; try done. simpl. unfold QP_Check_SecondOrder. by case_match. Qed.


(** ** Theorems *)

(** [IdentifyActiveSet] returns [true], allocates zeroed arrays of
    [nCon_] and [nVar_] entries on its first call, and leaves in entry [k]
    of each array the tag the code writes for [k] in the current loop, or
    else the old value: a tag that stops holding is never cleared. *)
Theorem IdentifyActiveSet_spec d st :
  let ac0 := default (replicate (nCon_ d) 0%Z) (Active_Set_constraints_ st) in
  let ab0 := default (replicate (nVar_ d) 0%Z) (Active_Set_bounds_ st) in
  fst (IdentifyActiveSet d st) = true ∧
  exists ac ab,
    Active_Set_constraints_ (snd (IdentifyActiveSet d st)) = Some ac ∧
    Active_Set_bounds_ (snd (IdentifyActiveSet d st)) = Some ab ∧
    length ac = length ac0 ∧ length ab = length ab0 ∧
    (forall k, (k < length ac0)%nat -> ac !! k =
       Some (if decide (k < nCon_ d)%nat then default (default 0%Z (ac0 !! k)) (constraint_tag d k)
             else default 0%Z (ac0 !! k))) ∧
    (forall k, (k < length ab0)%nat -> ab !! k =
       Some (if decide (k < nVar_ d)%nat then default (default 0%Z (ab0 !! k)) (bound_tag d k)
             else default 0%Z (ab0 !! k))).
Proof.
  cbv zeta. split; [done|]. do 2 eexists. split; [reflexivity|]. split; [reflexivity|].
  rewrite !write_tag_loop_length. do 2 (split; [done|]).
  split; intros k Hk; by apply write_tag_loop_entry.
Qed.

(** C35: A variable at its lower bound ([bound_cons_type_[i] =
    BOUNDED_BELOW], [|x_k - x_l| < active_set_tol_]) is not tagged [-1] by
    the first [IdentifyActiveSet] when [cons_type_[i]] (the kind of
    constraint [i], which the code reads instead) is neither
    [BOUNDED_BELOW] nor [EQUAL]: its entry stays [0]. *)
Theorem IdentifyActiveSet_misses_lower_bound d st k :
  Active_Set_bounds_ st = None -> (k < nVar_ d)%nat ->
  bound_cons_type_ d !! k = Some BOUNDED_BELOW ->
  near d (x_k_ d).[k] (x_l_ d).[k] = true ->
  cons_type_ d !! k ≠ Some BOUNDED_BELOW -> cons_type_ d !! k ≠ Some EQUAL ->
  exists ab, Active_Set_bounds_ (snd (IdentifyActiveSet d st)) = Some ab ∧ ab !! k = Some 0%Z.
Proof.
  intros Hn Hk Hb _ H1 H2. eexists. split; [reflexivity|]. simpl. rewrite Hn. simpl.
  rewrite write_tag_loop_entry by (rewrite length_replicate; lia).
  rewrite decide_True by done. rewrite lookup_replicate_2 by lia. simpl.
  unfold bound_tag. rewrite Hb, !decide_False by done. done.
Qed.

(** C36: [Check_KKTConditions] always returns [true] and, since it calls
    [Check_Feasibility()] with the default measure [0], declares the
    iterate primal feasible whenever [opt_prim_fea_tol_ > 0], whatever the
    iterate and its constraint values. *)
Theorem Check_KKTConditions_claims_feasible d st :
  0 < opt_prim_fea_tol_ d ->
  fst (Check_KKTConditions d st) = true ∧ primal_feasibility_ (snd (Check_KKTConditions d st)) = true.
Proof.
  intros Ht. split; [done|]. rewrite Check_KKTConditions_primal.
  replace (Qltb 0 (opt_prim_fea_tol_ d)) with true by (symmetry; by apply Qltb_true_iff).
  apply orb_true_r.
Qed.


(** A [QP_OptTest] certifies every condition: its [Check_KKTConditions]
    and the other overridden checks return [true] after any sequence of
    calls, while no flag, of the base or of the derived class, is ever
    set; [Check_Feasibility(double)] through an [OptTest*] returns
    [false]. *)
Theorem QP_OptTest_certifies_without_flags cs p q x :
  let o := vrun cs QP_OptTest_new in
  fst (vCheck_KKTConditions p q o) = true ∧ fst (vCheck_SecondOrder o) = true ∧
  fst (vCheck_Feasibility x o) = Some false ∧
  o = QP_OptTest_new.
Proof.
  assert (Hrun : forall cs, vrun cs QP_OptTest_new = QP_OptTest_new).
  { intros cs'. induction cs' as [|c cs' IH]; [done|]. simpl. by destruct c. }
  cbv zeta. rewrite Hrun. by repeat split.
Qed.

(** ** Witnesses *)

(** One variable at its lower bound [0] with one one-sided constraint
    [c(x) <= 1] active at [c_k = 1]. *)
Definition ex_opt_options : OptTestOptions := mkOptTestOptions (1 # 1000000) (1 # 1000000)
  (1 # 1000000) (1 # 1000000) (1 # 1000000) (1 # 1000000).
Definition ex_opt_test : OptTestData * OptTestState :=
  NLP_OptTest_new [0] [10] [0] [1] [1] [-10] ex_opt_options [BOUNDED_ABOVE] [BOUNDED_BELOW].

Lemma IdentifyActiveSet_misses_lower_bound_witness :
  Active_Set_bounds_ (snd ex_opt_test) = None ∧ (0 < nVar_ (fst ex_opt_test))%nat ∧
  bound_cons_type_ (fst ex_opt_test) !! 0%nat = Some BOUNDED_BELOW ∧
  near (fst ex_opt_test) (x_k_ (fst ex_opt_test)).[0] (x_l_ (fst ex_opt_test)).[0] = true ∧
  cons_type_ (fst ex_opt_test) !! 0%nat ≠ Some BOUNDED_BELOW ∧
  cons_type_ (fst ex_opt_test) !! 0%nat ≠ Some EQUAL ∧
  exists ab, Active_Set_bounds_ (snd (IdentifyActiveSet (fst ex_opt_test) (snd ex_opt_test))) = Some ab ∧
             ab !! 0%nat = Some 0%Z.
Proof.
  assert (Hn : near (fst ex_opt_test) (x_k_ (fst ex_opt_test)).[0] (x_l_ (fst ex_opt_test)).[0] = true)
    by reflexivity.
  split; [done|]. split; [vm_compute; lia|]. split; [done|]. split; [exact Hn|].
  split; [discriminate|]. split; [discriminate|].
  apply IdentifyActiveSet_misses_lower_bound; [done|vm_compute; lia|done|exact Hn|discriminate|discriminate].
Defined.

Lemma Check_KKTConditions_claims_feasible_witness :
  0 < opt_prim_fea_tol_ (fst ex_opt_test) ∧
  fst (Check_KKTConditions (fst ex_opt_test) (snd ex_opt_test)) = true ∧
  primal_feasibility_ (snd (Check_KKTConditions (fst ex_opt_test) (snd ex_opt_test))) = true.
Proof.
  assert (Ht : 0 < opt_prim_fea_tol_ (fst ex_opt_test)) by qdecide.
  split; [exact Ht|]. by apply Check_KKTConditions_claims_feasible.
Defined.

