(* ===== verification/ActiveSet.v ===== *)
(** * Activity of the QP solution (QPhandler::get_active_set and
      qpOASESInterface::GetWorkingSet)

    [QPhandler::get_active_set] (src/src/QPhandler.cpp) tags every QP
    variable and every linear constraint as inactive, active below, active
    above or active on both sides by comparing a point with the bounds the
    solver interface stores, within [sqrt_m_eps].  For QORE the constraint
    bounds are the entries [nVar_QP_ ..] of [lb] and [ub]; for the other
    engines they are [lbA] and [ubA].  [qpOASESInterface::GetWorkingSet]
    (src/src/qpOASESInterface.cpp) converts the integer working sets of the
    engine ([1], [-1], [0]) into the same tags and throws
    [INVALID_WORKING_SET] on any other value.

    The tags are lists of [ActiveType] written by index, as the arrays
    [A_c], [A_b], [W_constr], [W_bounds]; an exception is [None].  The
    engine's working sets and the product [A x] are arguments. *)

From S2P Require Import Prelude SqpTypes DenseVector SolverInterface QPhandler.
Local Open Scope Q_scope.

(** [sqrt_m_eps] (Utils.hpp, not in the repository): the square root of
    the machine epsilon of [double], [2^-26]. *)
Definition sqrt_m_eps : Q := 1 # 67108864.

(** The tag the code gives a value [v] between [lo] and [up]. *)
Definition tag_activity (lo up v : Q) : ActiveType :=
  if Qltb (Qabs (v - lo)) sqrt_m_eps then
    if Qltb (Qabs (up - v)) sqrt_m_eps then ACTIVE_BOTH_SIDE else ACTIVE_BELOW
  else if Qltb (Qabs (up - v)) sqrt_m_eps then ACTIVE_ABOVE
  else INACTIVE.

(** The activity the specification asks for a value [v] between [lo]
    and [up], stated by the two tolerance tests; the four cases are
    exclusive, so [activity_spec lo up v] holds of exactly one tag. *)
Definition activity_spec (lo up v : Q) (t : ActiveType) : Prop :=
  match t with
  | ACTIVE_BOTH_SIDE => Qabs (v - lo) < sqrt_m_eps ∧ Qabs (up - v) < sqrt_m_eps
  | ACTIVE_BELOW => Qabs (v - lo) < sqrt_m_eps ∧ ~ Qabs (up - v) < sqrt_m_eps
  | ACTIVE_ABOVE => ~ Qabs (v - lo) < sqrt_m_eps ∧ Qabs (up - v) < sqrt_m_eps
  | INACTIVE => ~ Qabs (v - lo) < sqrt_m_eps ∧ ~ Qabs (up - v) < sqrt_m_eps
  end.

(** One tagging loop: [A[i] = tag(i)] for [i < n]. *)
Definition tag_loop (n : nat) (tag : nat -> ActiveType) (A : list ActiveType) : list ActiveType :=
  for_range 0 n (fun i a => <[i := tag i]> a) A.

Section GetActiveSet.
Variable cfg : QPhandlerCfg.
(** The solver's stored QP, its primal solution and the product with its
    constraint matrix ([getA()->times]). *)
Variable d : QpData.
Variable x_opt : list Q.
Variable A_times : list Q -> list Q.

(** [QPhandler::get_active_set(A_c, A_b, x, Ax)]; [None] for [x] or [Ax]
    is a null pointer, replaced by the solution and by [A x]. *)
Definition get_active_set (A_c A_b : list ActiveType) (x Ax : option (list Q))
  : list ActiveType * list ActiveType :=
  let lb := qd_lb d in
  let ub := qd_ub d in
  let x := default (copy_vector (replicate (nVar_QP_ cfg) 0) x_opt) x in
  let Ax := default (A_times x) Ax in
  let A_b := tag_loop (nVar_QP_ cfg) (fun i => tag_activity lb.[i] ub.[i] x.[i]) A_b in
  let A_c :=
    if decide (QPsolverChoice_ cfg = QORE) then
      tag_loop (nConstr_QP_ cfg)
        (fun i => tag_activity lb.[i + nVar_QP_ cfg] ub.[i + nVar_QP_ cfg] Ax.[i]) A_c
    else
      let lbA := qd_ubA d in
      let ubA := qd_ubA d in
      tag_loop (nConstr_QP_ cfg) (fun i => tag_activity lbA.[i] ubA.[i] Ax.[i]) A_c in
  (A_c, A_b).
End GetActiveSet.

(** The conversion of one entry of an engine working set. *)
Definition active_of_wset (w : Z) : option ActiveType :=
  match w with
  | 1%Z => Some ACTIVE_ABOVE
  | (-1)%Z => Some ACTIVE_BELOW
  | 0%Z => Some INACTIVE
  | _ => None
  end.

(** One conversion loop of [GetWorkingSet]: [dst[i]] from [src[i]] for
    [i < n]; an invalid entry throws [INVALID_WORKING_SET]. *)
Definition wset_loop (n : nat) (src : list Z) (dst : list ActiveType) : option (list ActiveType) :=
  for_range 0 n (fun i acc =>
    a ← acc; t ← (src !! i ≫= active_of_wset); Some (<[i := t]> a)) (Some dst).

(** [qpOASESInterface::GetWorkingSet(W_constr, W_bounds)]: the engine's
    constraint working set [tmp_W_c] ([nConstr_QP_] entries) and bound
    working set [tmp_W_b] ([nVar_QP_] entries); the first loop writes
    [W_constr] from [tmp_W_b], the second [W_bounds] from [tmp_W_c]. *)
Definition GetWorkingSet (nVar_QP nConstr_QP : nat) (tmp_W_c tmp_W_b : list Z)
    (W_constr W_bounds : list ActiveType) : option (list ActiveType * list ActiveType) :=
  W_constr ← wset_loop nVar_QP tmp_W_b W_constr;
  W_bounds ← wset_loop nConstr_QP tmp_W_c W_bounds;
  Some (W_constr, W_bounds).

(** ** Lemmas *)

Lemma tag_loop_lookup n tag (A : list ActiveType) i :
  tag_loop n tag A !! i = if decide (i < n)%nat then (fun _ => tag i) <$> A !! i else A !! i.
Proof.
  apply (for_range_local_lookup n _ (fun i o => (fun _ => tag i) <$> o)).
  - intros k w j Hj. by rewrite list_lookup_insert_ne.
  - intros k w. apply list_lookup_insert_self.
Qed.

(** Entry [i] inside the loop range and the array. *)
Lemma tag_loop_entry n tag (A : list ActiveType) i :
  (i < n)%nat -> (i < length A)%nat -> tag_loop n tag A !! i = Some (tag i).
Proof.
  intros Hn Hl. rewrite tag_loop_lookup, decide_True by done.
  destruct (lookup_lt_is_Some_2 A i Hl) as [y ->]. done.
Qed.

(** A conversion loop succeeds when every converted entry is valid, and
    then writes the converted entries. *)
Lemma wset_loop_ok n (src : list Z) (dst : list ActiveType) :
  (forall i, (i < n)%nat -> exists t, src !! i ≫= active_of_wset = Some t) ->
  exists dst', wset_loop n src dst = Some dst' ∧
    forall i, dst' !! i = if decide (i < n)%nat
                          then (fun _ => default INACTIVE (src !! i ≫= active_of_wset)) <$> dst !! i
                          else dst !! i.
Proof.
  intros Hv. induction n as [|n IH].
  - exists dst. split; [done|]. intros i. by rewrite decide_False by lia.
  - destruct IH as (dst' & Hd & Hl); [intros; apply Hv; lia|].
    destruct (Hv n ltac:(lia)) as [t Ht].
    exists (<[n := t]> dst'). unfold wset_loop. rewrite for_range_S. fold (wset_loop n src dst).
    rewrite Hd. simpl. rewrite Ht. split; [done|].
    intros i. destruct (decide (i = n)) as [->|Hne].
    + rewrite list_lookup_insert_self, Hl, decide_False, Ht by lia. rewrite decide_True by lia.
      by destruct (dst !! n).
    + rewrite list_lookup_insert_ne, Hl by done. repeat case_decide; done || lia.
Qed.

(** ** Examples

    One variable and one constraint ([nVar_QP_ = 3], [nConstr_QP_ = 1]):
    for QORE the bounds of the constraint row are the entries [3] of [lb]
    and [ub]. *)
Definition ex_as_data : QpData := mkQpData [0; 0; 0; 1] [1; 1; 1; 1] [1] [2] [0; 0; 0] None None.

(** The code's tests meet the specification. *)
Lemma tag_activity_spec lo up v : activity_spec lo up v (tag_activity lo up v).
Proof.
  unfold tag_activity.
  destruct (Qltb_spec (Qabs (v - lo)) sqrt_m_eps), (Qltb_spec (Qabs (up - v)) sqrt_m_eps);
    simpl; auto using Qle_not_lt.
Qed.

(** At most one tag meets the specification. *)
Lemma activity_spec_unique lo up v t1 t2 :
  activity_spec lo up v t1 -> activity_spec lo up v t2 -> t1 = t2.
Proof. destruct t1, t2; simpl; tauto. Qed.

(** ** Theorems *)

(** C21: [get_active_set] tags every QP variable [i < nVar_QP_] by the
    stored bounds [lb], [ub], and with QORE every constraint row by the
    entries [nVar_QP_ + i] of [lb] and [ub]: the tag it writes is the one
    [activity_spec] describes (active below exactly at the lower bound,
    above exactly at the upper one, on both sides at both, inactive at
    neither), the way the specification's [getActiveSet] compares with the
    solver's stored bounds within the tolerance. *)
Theorem get_active_set_spec cfg d x_opt A_times (A_c A_b : list ActiveType) x Ax :
  let r := get_active_set cfg d x_opt A_times A_c A_b (Some x) (Some Ax) in
  (forall i, (i < nVar_QP_ cfg)%nat -> (i < length A_b)%nat ->
     exists t, r.2 !! i = Some t ∧ activity_spec (qd_lb d).[i] (qd_ub d).[i] x.[i] t) ∧
  (QPsolverChoice_ cfg = QORE -> forall i, (i < nConstr_QP_ cfg)%nat -> (i < length A_c)%nat ->
     exists t, r.1 !! i = Some t ∧
       activity_spec (qd_lb d).[i + nVar_QP_ cfg] (qd_ub d).[i + nVar_QP_ cfg] Ax.[i] t).
Proof.
  cbv zeta. unfold get_active_set. simpl. split.
  - intros i Hn Hl. eexists. split; [by apply tag_loop_entry|]. apply tag_activity_spec.
  - intros Hq i Hn Hl. rewrite decide_True by done. eexists.
    split; [by apply tag_loop_entry|]. apply tag_activity_spec.
Qed.

Lemma get_active_set_spec_witness :
  exists t, (get_active_set (QPhandler_new 1 1 QORE) ex_as_data [] (fun _ => [])
     [INACTIVE] [INACTIVE; INACTIVE; INACTIVE] (Some [0; 1; 0]) (Some [1])).2 !! 0%nat = Some t ∧
    activity_spec (qd_lb ex_as_data).[0] (qd_ub ex_as_data).[0] [0; 1; 0].[0] t.
Proof.
  destruct (get_active_set_spec (QPhandler_new 1 1 QORE) ex_as_data [] (fun _ => [])
              [INACTIVE] [INACTIVE; INACTIVE; INACTIVE] [0; 1; 0] [1]) as [Hb _].
  apply Hb; simpl; lia.
Defined.

(** C19: For qpOASES, Gurobi and CPLEX [get_active_set] reads the lower
    constraint bounds from [getUbA()], so a constraint row at its lower
    bound and away from its upper bound is tagged [INACTIVE], where the
    rule of the code applied to [lbA] gives [ACTIVE_BELOW]. *)
Theorem get_active_set_misses_lower_constraint cfg d x_opt A_times (A_c A_b : list ActiveType) x Ax i :
  QPsolverChoice_ cfg ≠ QORE -> (i < nConstr_QP_ cfg)%nat -> (i < length A_c)%nat ->
  Qabs (Ax.[i] - (qd_lbA d).[i]) < sqrt_m_eps -> ~ (Qabs ((qd_ubA d).[i] - Ax.[i]) < sqrt_m_eps) ->
  (get_active_set cfg d x_opt A_times A_c A_b (Some x) (Some Ax)).1 !! i = Some INACTIVE ∧
  tag_activity (qd_lbA d).[i] (qd_ubA d).[i] Ax.[i] = ACTIVE_BELOW.
Proof.
  intros Hq Hn Hl Hlo Hup. unfold get_active_set. simpl. rewrite decide_False by done.
  rewrite tag_loop_entry by done. unfold tag_activity.
  assert (Qabs ((qd_ubA d).[i] - Ax.[i]) == Qabs (Ax.[i] - (qd_ubA d).[i])) as Hs
    by (rewrite <- Qabs_opp; apply Qabs_wd; ring).
  destruct (Qltb_spec (Qabs ((qd_ubA d).[i] - Ax.[i])) sqrt_m_eps); [done|].
  destruct (Qltb_spec (Qabs (Ax.[i] - (qd_ubA d).[i])) sqrt_m_eps); [rewrite <- Hs in *; done|].
  destruct (Qltb_spec (Qabs (Ax.[i] - (qd_lbA d).[i])) sqrt_m_eps); done.
Qed.

(** For qpOASES the constraint value [1] sits on [lbA = 1], away from
    [ubA = 2]. *)
Lemma get_active_set_misses_lower_constraint_witness :
  (get_active_set (QPhandler_new 1 1 QPOASES) ex_as_data [] (fun _ => [])
     [INACTIVE] [INACTIVE; INACTIVE; INACTIVE] (Some [0; 1; 0]) (Some [1])).1 !! 0%nat = Some INACTIVE ∧
  tag_activity (qd_lbA ex_as_data).[0] (qd_ubA ex_as_data).[0] [1].[0] = ACTIVE_BELOW.
Proof.
  apply get_active_set_misses_lower_constraint; [done | simpl; lia | simpl; lia | reflexivity |].
  intros H. vm_compute in H. discriminate.
Defined.

(** C20: [GetWorkingSet] writes the tags of the bound working set into
    [W_constr] and those of the constraint working set into [W_bounds]:
    the two arrays are swapped. *)
Theorem GetWorkingSet_swaps nVar_QP nConstr_QP tmp_W_c tmp_W_b W_constr W_bounds :
  (forall i, (i < nVar_QP)%nat -> exists t, tmp_W_b !! i ≫= active_of_wset = Some t) ->
  (forall i, (i < nConstr_QP)%nat -> exists t, tmp_W_c !! i ≫= active_of_wset = Some t) ->
  exists Wc Wb, GetWorkingSet nVar_QP nConstr_QP tmp_W_c tmp_W_b W_constr W_bounds = Some (Wc, Wb) ∧
    (forall i, (i < nVar_QP)%nat -> (i < length W_constr)%nat ->
       Wc !! i = tmp_W_b !! i ≫= active_of_wset) ∧
    (forall i, (i < nConstr_QP)%nat -> (i < length W_bounds)%nat ->
       Wb !! i = tmp_W_c !! i ≫= active_of_wset).
Proof.
  intros Hb Hc.
  destruct (wset_loop_ok nVar_QP tmp_W_b W_constr Hb) as (Wc & HWc & Hlc).
  destruct (wset_loop_ok nConstr_QP tmp_W_c W_bounds Hc) as (Wb & HWb & Hlb).
  exists Wc, Wb. unfold GetWorkingSet. rewrite HWc. simpl. rewrite HWb. split; [done|].
  split; intros i Hn Hl.
  - rewrite Hlc, decide_True by done. destruct (Hb i Hn) as [t Ht]. rewrite Ht.
    by destruct (lookup_lt_is_Some_2 W_constr i Hl) as [y ->].
  - rewrite Hlb, decide_True by done. destruct (Hc i Hn) as [t Ht]. rewrite Ht.
    by destruct (lookup_lt_is_Some_2 W_bounds i Hl) as [y ->].
Qed.

Lemma GetWorkingSet_swaps_witness :
  exists Wc Wb, GetWorkingSet 3 1 [1%Z] [0%Z; (-1)%Z; 1%Z] [INACTIVE] [INACTIVE; INACTIVE; INACTIVE]
                  = Some (Wc, Wb) ∧
    (forall i, (i < 3)%nat -> (i < 1)%nat -> Wc !! i = [0%Z; (-1)%Z; 1%Z] !! i ≫= active_of_wset) ∧
    (forall i, (i < 1)%nat -> (i < 3)%nat -> Wb !! i = [1%Z] !! i ≫= active_of_wset).
Proof.
  apply GetWorkingSet_swaps; intros i Hi;
    (destruct i as [|[|[|i]]]; first [eexists; reflexivity | lia]).
Defined.
