(* ===== verification/Algorithm.v ===== *)
(** * The SQP driver: state, oracles and the step routines (Algorithm.cpp)

    [Algorithm] of Algorithm.cpp keeps its iterate, its trial point, the
    last step, the radius [delta_], the penalty [rho_], the dirty flags
    [QPinfoFlag_] and the exit flag as members.  The model gathers them in
    the record [AlgState] (one field per member, with a setter per member)
    and keeps what does not change during [Optimize] (options, sizes,
    bounds, constraint kinds, the two QP builders' configurations) in the
    record [Env], together with the collaborators the sources only call:
    the NLP oracle ([Eval_f], [Eval_constraints], [Eval_gradient],
    [Eval_Jacobian], [Eval_Hessian]), the QP and LP solves of the handlers
    (the engine followed by the handler's own optimality re-check; a
    failure carries the status [get_status()] reports) and the clock.  The
    QP builder's solver interface is the reference instance [QpData] of
    [SolverInterface]: by the simulation lemmas of [QPhandler] every
    lawful interface holds the same data.

    A C++ exception is the [Throw] value of the result type [Res], with
    the state at the throw; [OutOfFuel] is the value of a [while] loop
    that did not stop within the fuel it was given.  This file holds the
    routines of one iteration: [cal_infea], [get_trial_point_info],
    [get_search_direction], [get_multipliers], [ratio_test],
    [update_radius], [setupQP] and [setupLP], with their theorems. *)

From S2P Require Import Prelude SqpTypes DenseVector SparseMatrix SolverInterface QPhandler.
Local Open Scope Q_scope.

(** ** Options, oracles and state *)

(** The options [Algorithm] reads (class [Options]). *)
Record Options := mkOptions {
  eta_c : Q; eta_s : Q; eta_e : Q; gamma_c : Q; gamma_e : Q;
  delta_0 : Q; delta_min : Q; delta_max : Q; tol : Q;
  rho_0 : Q; rho_max : Q; increase_parm : Q; eps1_0 : Q; eps2 : Q; eps1_change_parm : Q;
  penalty_update_tol : Q; opt_prim_fea_tol : Q; opt_dual_fea_tol : Q;
  opt_compl_tol : Q; opt_stat_tol : Q; active_set_tol : Q; time_max : Q;
  iter_max : nat; penalty_iter_max : nat;
  penalty_update : bool; do_second_order_correction : bool;
  QPsolverChoice : Solver
}.

(** What stays fixed during [Optimize]: the options, the sizes, the
    bounds and kinds read by [initialization], the configurations of
    [myQP_] and [myLP_], and the external collaborators. *)
Record Env := mkEnv {
  options : Options;
  nVar : nat; nCon : nat;
  x_l : list Q; x_u : list Q; c_l : list Q; c_u : list Q;
  cons_type : list ConstraintType; bound_cons_type : list ConstraintType;
  QPcfg : QPhandlerCfg; LPcfg : QPhandlerCfg;
  eval_f : list Q -> Q;
  eval_constraints : list Q -> list Q;
  eval_gradient : list Q -> list Q;
  eval_jacobian : list Q -> SpTripletMat;
  eval_hessian : list Q -> list Q -> SpTripletMat;
  (** [myQP_->solveQP] and [myLP_->solveLP] on the data of the builder. *)
  solve_QP : QpData -> QpResult;
  solve_LP : QpData -> QpResult;
  (** [clock() - iter_time_] of iteration [k], in seconds. *)
  iter_time : nat -> Q
}.

(** [OptimalityStatus] of the NLP optimality test. *)
Record OptimalityStatus := mkOptimalityStatus {
  primal_violation : Q; dual_violation : Q; compl_violation : Q;
  stationarity_violation : Q; KKT_error : Q;
  primal_feasibility : bool; dual_feasibility : bool; complementarity : bool;
  stationarity : bool; first_order_opt : bool
}.

(** The members of [Algorithm] that change during [Optimize]. *)
Record AlgState := mkAlg {
  x_k : list Q;
  c_k : list Q;
  obj_value : Q;
  grad_f : list Q;
  jacobian : SpTripletMat;
  hessian : SpTripletMat;
  infea_measure : Q;
  multiplier_cons : list Q;
  multiplier_vars : list Q;
  x_trial : list Q;
  c_trial : list Q;
  obj_value_trial : Q;
  infea_measure_trial : Q;
  p_k : list Q;
  qp_obj : Q;
  norm_p_k : Q;
  infea_measure_model : Q;
  actual_reduction : Q;
  pred_reduction : Q;
  delta : Q;
  rho : Q;
  eps1 : Q;
  isaccept : bool;
  QPinfoFlag : UpdateFlags;
  exitflag : Exitflag;
  iter : nat;
  penalty_change_trial : nat;
  total_time : Q;
  myQP : QpData;
  qp_sol : QpSolution;
  myLP : QpData;
  lp_sol : QpSolution;
  W_constr : list ActiveType;
  W_bounds : list ActiveType;
  opt_status : OptimalityStatus
}.

(** One setter per member, as the assignments of the code. *)
Definition set_x_k (s : AlgState) (v : list Q) : AlgState :=
  mkAlg v (c_k s) (obj_value s) (grad_f s) (jacobian s) (hessian s) (infea_measure s)
    (multiplier_cons s) (multiplier_vars s) (x_trial s) (c_trial s) (obj_value_trial s)
    (infea_measure_trial s) (p_k s) (qp_obj s) (norm_p_k s) (infea_measure_model s)
    (actual_reduction s) (pred_reduction s) (delta s) (rho s) (eps1 s) (isaccept s) (QPinfoFlag
    s) (exitflag s) (iter s) (penalty_change_trial s) (total_time s) (myQP s) (qp_sol s) (myLP
    s) (lp_sol s) (W_constr s) (W_bounds s) (opt_status s).
Definition set_c_k (s : AlgState) (v : list Q) : AlgState :=
  mkAlg (x_k s) v (obj_value s) (grad_f s) (jacobian s) (hessian s) (infea_measure s)
    (multiplier_cons s) (multiplier_vars s) (x_trial s) (c_trial s) (obj_value_trial s)
    (infea_measure_trial s) (p_k s) (qp_obj s) (norm_p_k s) (infea_measure_model s)
    (actual_reduction s) (pred_reduction s) (delta s) (rho s) (eps1 s) (isaccept s) (QPinfoFlag
    s) (exitflag s) (iter s) (penalty_change_trial s) (total_time s) (myQP s) (qp_sol s) (myLP
    s) (lp_sol s) (W_constr s) (W_bounds s) (opt_status s).
Definition set_obj_value (s : AlgState) (v : Q) : AlgState :=
  mkAlg (x_k s) (c_k s) v (grad_f s) (jacobian s) (hessian s) (infea_measure s)
    (multiplier_cons s) (multiplier_vars s) (x_trial s) (c_trial s) (obj_value_trial s)
    (infea_measure_trial s) (p_k s) (qp_obj s) (norm_p_k s) (infea_measure_model s)
    (actual_reduction s) (pred_reduction s) (delta s) (rho s) (eps1 s) (isaccept s) (QPinfoFlag
    s) (exitflag s) (iter s) (penalty_change_trial s) (total_time s) (myQP s) (qp_sol s) (myLP
    s) (lp_sol s) (W_constr s) (W_bounds s) (opt_status s).
Definition set_grad_f (s : AlgState) (v : list Q) : AlgState :=
  mkAlg (x_k s) (c_k s) (obj_value s) v (jacobian s) (hessian s) (infea_measure s)
    (multiplier_cons s) (multiplier_vars s) (x_trial s) (c_trial s) (obj_value_trial s)
    (infea_measure_trial s) (p_k s) (qp_obj s) (norm_p_k s) (infea_measure_model s)
    (actual_reduction s) (pred_reduction s) (delta s) (rho s) (eps1 s) (isaccept s) (QPinfoFlag
    s) (exitflag s) (iter s) (penalty_change_trial s) (total_time s) (myQP s) (qp_sol s) (myLP
    s) (lp_sol s) (W_constr s) (W_bounds s) (opt_status s).
Definition set_jacobian (s : AlgState) (v : SpTripletMat) : AlgState :=
  mkAlg (x_k s) (c_k s) (obj_value s) (grad_f s) v (hessian s) (infea_measure s)
    (multiplier_cons s) (multiplier_vars s) (x_trial s) (c_trial s) (obj_value_trial s)
    (infea_measure_trial s) (p_k s) (qp_obj s) (norm_p_k s) (infea_measure_model s)
    (actual_reduction s) (pred_reduction s) (delta s) (rho s) (eps1 s) (isaccept s) (QPinfoFlag
    s) (exitflag s) (iter s) (penalty_change_trial s) (total_time s) (myQP s) (qp_sol s) (myLP
    s) (lp_sol s) (W_constr s) (W_bounds s) (opt_status s).
Definition set_hessian (s : AlgState) (v : SpTripletMat) : AlgState :=
  mkAlg (x_k s) (c_k s) (obj_value s) (grad_f s) (jacobian s) v (infea_measure s)
    (multiplier_cons s) (multiplier_vars s) (x_trial s) (c_trial s) (obj_value_trial s)
    (infea_measure_trial s) (p_k s) (qp_obj s) (norm_p_k s) (infea_measure_model s)
    (actual_reduction s) (pred_reduction s) (delta s) (rho s) (eps1 s) (isaccept s) (QPinfoFlag
    s) (exitflag s) (iter s) (penalty_change_trial s) (total_time s) (myQP s) (qp_sol s) (myLP
    s) (lp_sol s) (W_constr s) (W_bounds s) (opt_status s).
Definition set_infea_measure (s : AlgState) (v : Q) : AlgState :=
  mkAlg (x_k s) (c_k s) (obj_value s) (grad_f s) (jacobian s) (hessian s) v (multiplier_cons s)
    (multiplier_vars s) (x_trial s) (c_trial s) (obj_value_trial s) (infea_measure_trial s)
    (p_k s) (qp_obj s) (norm_p_k s) (infea_measure_model s) (actual_reduction s)
    (pred_reduction s) (delta s) (rho s) (eps1 s) (isaccept s) (QPinfoFlag s) (exitflag s)
    (iter s) (penalty_change_trial s) (total_time s) (myQP s) (qp_sol s) (myLP s) (lp_sol s)
    (W_constr s) (W_bounds s) (opt_status s).
Definition set_multiplier_cons (s : AlgState) (v : list Q) : AlgState :=
  mkAlg (x_k s) (c_k s) (obj_value s) (grad_f s) (jacobian s) (hessian s) (infea_measure s) v
    (multiplier_vars s) (x_trial s) (c_trial s) (obj_value_trial s) (infea_measure_trial s)
    (p_k s) (qp_obj s) (norm_p_k s) (infea_measure_model s) (actual_reduction s)
    (pred_reduction s) (delta s) (rho s) (eps1 s) (isaccept s) (QPinfoFlag s) (exitflag s)
    (iter s) (penalty_change_trial s) (total_time s) (myQP s) (qp_sol s) (myLP s) (lp_sol s)
    (W_constr s) (W_bounds s) (opt_status s).
Definition set_multiplier_vars (s : AlgState) (v : list Q) : AlgState :=
  mkAlg (x_k s) (c_k s) (obj_value s) (grad_f s) (jacobian s) (hessian s) (infea_measure s)
    (multiplier_cons s) v (x_trial s) (c_trial s) (obj_value_trial s) (infea_measure_trial s)
    (p_k s) (qp_obj s) (norm_p_k s) (infea_measure_model s) (actual_reduction s)
    (pred_reduction s) (delta s) (rho s) (eps1 s) (isaccept s) (QPinfoFlag s) (exitflag s)
    (iter s) (penalty_change_trial s) (total_time s) (myQP s) (qp_sol s) (myLP s) (lp_sol s)
    (W_constr s) (W_bounds s) (opt_status s).
Definition set_x_trial (s : AlgState) (v : list Q) : AlgState :=
  mkAlg (x_k s) (c_k s) (obj_value s) (grad_f s) (jacobian s) (hessian s) (infea_measure s)
    (multiplier_cons s) (multiplier_vars s) v (c_trial s) (obj_value_trial s)
    (infea_measure_trial s) (p_k s) (qp_obj s) (norm_p_k s) (infea_measure_model s)
    (actual_reduction s) (pred_reduction s) (delta s) (rho s) (eps1 s) (isaccept s) (QPinfoFlag
    s) (exitflag s) (iter s) (penalty_change_trial s) (total_time s) (myQP s) (qp_sol s) (myLP
    s) (lp_sol s) (W_constr s) (W_bounds s) (opt_status s).
Definition set_c_trial (s : AlgState) (v : list Q) : AlgState :=
  mkAlg (x_k s) (c_k s) (obj_value s) (grad_f s) (jacobian s) (hessian s) (infea_measure s)
    (multiplier_cons s) (multiplier_vars s) (x_trial s) v (obj_value_trial s)
    (infea_measure_trial s) (p_k s) (qp_obj s) (norm_p_k s) (infea_measure_model s)
    (actual_reduction s) (pred_reduction s) (delta s) (rho s) (eps1 s) (isaccept s) (QPinfoFlag
    s) (exitflag s) (iter s) (penalty_change_trial s) (total_time s) (myQP s) (qp_sol s) (myLP
    s) (lp_sol s) (W_constr s) (W_bounds s) (opt_status s).
Definition set_obj_value_trial (s : AlgState) (v : Q) : AlgState :=
  mkAlg (x_k s) (c_k s) (obj_value s) (grad_f s) (jacobian s) (hessian s) (infea_measure s)
    (multiplier_cons s) (multiplier_vars s) (x_trial s) (c_trial s) v (infea_measure_trial s)
    (p_k s) (qp_obj s) (norm_p_k s) (infea_measure_model s) (actual_reduction s)
    (pred_reduction s) (delta s) (rho s) (eps1 s) (isaccept s) (QPinfoFlag s) (exitflag s)
    (iter s) (penalty_change_trial s) (total_time s) (myQP s) (qp_sol s) (myLP s) (lp_sol s)
    (W_constr s) (W_bounds s) (opt_status s).
Definition set_infea_measure_trial (s : AlgState) (v : Q) : AlgState :=
  mkAlg (x_k s) (c_k s) (obj_value s) (grad_f s) (jacobian s) (hessian s) (infea_measure s)
    (multiplier_cons s) (multiplier_vars s) (x_trial s) (c_trial s) (obj_value_trial s) v (p_k
    s) (qp_obj s) (norm_p_k s) (infea_measure_model s) (actual_reduction s) (pred_reduction s)
    (delta s) (rho s) (eps1 s) (isaccept s) (QPinfoFlag s) (exitflag s) (iter s)
    (penalty_change_trial s) (total_time s) (myQP s) (qp_sol s) (myLP s) (lp_sol s) (W_constr
    s) (W_bounds s) (opt_status s).
Definition set_p_k (s : AlgState) (v : list Q) : AlgState :=
  mkAlg (x_k s) (c_k s) (obj_value s) (grad_f s) (jacobian s) (hessian s) (infea_measure s)
    (multiplier_cons s) (multiplier_vars s) (x_trial s) (c_trial s) (obj_value_trial s)
    (infea_measure_trial s) v (qp_obj s) (norm_p_k s) (infea_measure_model s) (actual_reduction
    s) (pred_reduction s) (delta s) (rho s) (eps1 s) (isaccept s) (QPinfoFlag s) (exitflag s)
    (iter s) (penalty_change_trial s) (total_time s) (myQP s) (qp_sol s) (myLP s) (lp_sol s)
    (W_constr s) (W_bounds s) (opt_status s).
Definition set_qp_obj (s : AlgState) (v : Q) : AlgState :=
  mkAlg (x_k s) (c_k s) (obj_value s) (grad_f s) (jacobian s) (hessian s) (infea_measure s)
    (multiplier_cons s) (multiplier_vars s) (x_trial s) (c_trial s) (obj_value_trial s)
    (infea_measure_trial s) (p_k s) v (norm_p_k s) (infea_measure_model s) (actual_reduction s)
    (pred_reduction s) (delta s) (rho s) (eps1 s) (isaccept s) (QPinfoFlag s) (exitflag s)
    (iter s) (penalty_change_trial s) (total_time s) (myQP s) (qp_sol s) (myLP s) (lp_sol s)
    (W_constr s) (W_bounds s) (opt_status s).
Definition set_norm_p_k (s : AlgState) (v : Q) : AlgState :=
  mkAlg (x_k s) (c_k s) (obj_value s) (grad_f s) (jacobian s) (hessian s) (infea_measure s)
    (multiplier_cons s) (multiplier_vars s) (x_trial s) (c_trial s) (obj_value_trial s)
    (infea_measure_trial s) (p_k s) (qp_obj s) v (infea_measure_model s) (actual_reduction s)
    (pred_reduction s) (delta s) (rho s) (eps1 s) (isaccept s) (QPinfoFlag s) (exitflag s)
    (iter s) (penalty_change_trial s) (total_time s) (myQP s) (qp_sol s) (myLP s) (lp_sol s)
    (W_constr s) (W_bounds s) (opt_status s).
Definition set_infea_measure_model (s : AlgState) (v : Q) : AlgState :=
  mkAlg (x_k s) (c_k s) (obj_value s) (grad_f s) (jacobian s) (hessian s) (infea_measure s)
    (multiplier_cons s) (multiplier_vars s) (x_trial s) (c_trial s) (obj_value_trial s)
    (infea_measure_trial s) (p_k s) (qp_obj s) (norm_p_k s) v (actual_reduction s)
    (pred_reduction s) (delta s) (rho s) (eps1 s) (isaccept s) (QPinfoFlag s) (exitflag s)
    (iter s) (penalty_change_trial s) (total_time s) (myQP s) (qp_sol s) (myLP s) (lp_sol s)
    (W_constr s) (W_bounds s) (opt_status s).
Definition set_actual_reduction (s : AlgState) (v : Q) : AlgState :=
  mkAlg (x_k s) (c_k s) (obj_value s) (grad_f s) (jacobian s) (hessian s) (infea_measure s)
    (multiplier_cons s) (multiplier_vars s) (x_trial s) (c_trial s) (obj_value_trial s)
    (infea_measure_trial s) (p_k s) (qp_obj s) (norm_p_k s) (infea_measure_model s) v
    (pred_reduction s) (delta s) (rho s) (eps1 s) (isaccept s) (QPinfoFlag s) (exitflag s)
    (iter s) (penalty_change_trial s) (total_time s) (myQP s) (qp_sol s) (myLP s) (lp_sol s)
    (W_constr s) (W_bounds s) (opt_status s).
Definition set_pred_reduction (s : AlgState) (v : Q) : AlgState :=
  mkAlg (x_k s) (c_k s) (obj_value s) (grad_f s) (jacobian s) (hessian s) (infea_measure s)
    (multiplier_cons s) (multiplier_vars s) (x_trial s) (c_trial s) (obj_value_trial s)
    (infea_measure_trial s) (p_k s) (qp_obj s) (norm_p_k s) (infea_measure_model s)
    (actual_reduction s) v (delta s) (rho s) (eps1 s) (isaccept s) (QPinfoFlag s) (exitflag s)
    (iter s) (penalty_change_trial s) (total_time s) (myQP s) (qp_sol s) (myLP s) (lp_sol s)
    (W_constr s) (W_bounds s) (opt_status s).
Definition set_delta (s : AlgState) (v : Q) : AlgState :=
  mkAlg (x_k s) (c_k s) (obj_value s) (grad_f s) (jacobian s) (hessian s) (infea_measure s)
    (multiplier_cons s) (multiplier_vars s) (x_trial s) (c_trial s) (obj_value_trial s)
    (infea_measure_trial s) (p_k s) (qp_obj s) (norm_p_k s) (infea_measure_model s)
    (actual_reduction s) (pred_reduction s) v (rho s) (eps1 s) (isaccept s) (QPinfoFlag s)
    (exitflag s) (iter s) (penalty_change_trial s) (total_time s) (myQP s) (qp_sol s) (myLP s)
    (lp_sol s) (W_constr s) (W_bounds s) (opt_status s).
Definition set_rho (s : AlgState) (v : Q) : AlgState :=
  mkAlg (x_k s) (c_k s) (obj_value s) (grad_f s) (jacobian s) (hessian s) (infea_measure s)
    (multiplier_cons s) (multiplier_vars s) (x_trial s) (c_trial s) (obj_value_trial s)
    (infea_measure_trial s) (p_k s) (qp_obj s) (norm_p_k s) (infea_measure_model s)
    (actual_reduction s) (pred_reduction s) (delta s) v (eps1 s) (isaccept s) (QPinfoFlag s)
    (exitflag s) (iter s) (penalty_change_trial s) (total_time s) (myQP s) (qp_sol s) (myLP s)
    (lp_sol s) (W_constr s) (W_bounds s) (opt_status s).
Definition set_eps1 (s : AlgState) (v : Q) : AlgState :=
  mkAlg (x_k s) (c_k s) (obj_value s) (grad_f s) (jacobian s) (hessian s) (infea_measure s)
    (multiplier_cons s) (multiplier_vars s) (x_trial s) (c_trial s) (obj_value_trial s)
    (infea_measure_trial s) (p_k s) (qp_obj s) (norm_p_k s) (infea_measure_model s)
    (actual_reduction s) (pred_reduction s) (delta s) (rho s) v (isaccept s) (QPinfoFlag s)
    (exitflag s) (iter s) (penalty_change_trial s) (total_time s) (myQP s) (qp_sol s) (myLP s)
    (lp_sol s) (W_constr s) (W_bounds s) (opt_status s).
Definition set_isaccept (s : AlgState) (v : bool) : AlgState :=
  mkAlg (x_k s) (c_k s) (obj_value s) (grad_f s) (jacobian s) (hessian s) (infea_measure s)
    (multiplier_cons s) (multiplier_vars s) (x_trial s) (c_trial s) (obj_value_trial s)
    (infea_measure_trial s) (p_k s) (qp_obj s) (norm_p_k s) (infea_measure_model s)
    (actual_reduction s) (pred_reduction s) (delta s) (rho s) (eps1 s) v (QPinfoFlag s)
    (exitflag s) (iter s) (penalty_change_trial s) (total_time s) (myQP s) (qp_sol s) (myLP s)
    (lp_sol s) (W_constr s) (W_bounds s) (opt_status s).
Definition set_QPinfoFlag (s : AlgState) (v : UpdateFlags) : AlgState :=
  mkAlg (x_k s) (c_k s) (obj_value s) (grad_f s) (jacobian s) (hessian s) (infea_measure s)
    (multiplier_cons s) (multiplier_vars s) (x_trial s) (c_trial s) (obj_value_trial s)
    (infea_measure_trial s) (p_k s) (qp_obj s) (norm_p_k s) (infea_measure_model s)
    (actual_reduction s) (pred_reduction s) (delta s) (rho s) (eps1 s) (isaccept s) v (exitflag
    s) (iter s) (penalty_change_trial s) (total_time s) (myQP s) (qp_sol s) (myLP s) (lp_sol s)
    (W_constr s) (W_bounds s) (opt_status s).
Definition set_exitflag (s : AlgState) (v : Exitflag) : AlgState :=
  mkAlg (x_k s) (c_k s) (obj_value s) (grad_f s) (jacobian s) (hessian s) (infea_measure s)
    (multiplier_cons s) (multiplier_vars s) (x_trial s) (c_trial s) (obj_value_trial s)
    (infea_measure_trial s) (p_k s) (qp_obj s) (norm_p_k s) (infea_measure_model s)
    (actual_reduction s) (pred_reduction s) (delta s) (rho s) (eps1 s) (isaccept s) (QPinfoFlag
    s) v (iter s) (penalty_change_trial s) (total_time s) (myQP s) (qp_sol s) (myLP s) (lp_sol
    s) (W_constr s) (W_bounds s) (opt_status s).
Definition set_iter (s : AlgState) (v : nat) : AlgState :=
  mkAlg (x_k s) (c_k s) (obj_value s) (grad_f s) (jacobian s) (hessian s) (infea_measure s)
    (multiplier_cons s) (multiplier_vars s) (x_trial s) (c_trial s) (obj_value_trial s)
    (infea_measure_trial s) (p_k s) (qp_obj s) (norm_p_k s) (infea_measure_model s)
    (actual_reduction s) (pred_reduction s) (delta s) (rho s) (eps1 s) (isaccept s) (QPinfoFlag
    s) (exitflag s) v (penalty_change_trial s) (total_time s) (myQP s) (qp_sol s) (myLP s)
    (lp_sol s) (W_constr s) (W_bounds s) (opt_status s).
Definition set_penalty_change_trial (s : AlgState) (v : nat) : AlgState :=
  mkAlg (x_k s) (c_k s) (obj_value s) (grad_f s) (jacobian s) (hessian s) (infea_measure s)
    (multiplier_cons s) (multiplier_vars s) (x_trial s) (c_trial s) (obj_value_trial s)
    (infea_measure_trial s) (p_k s) (qp_obj s) (norm_p_k s) (infea_measure_model s)
    (actual_reduction s) (pred_reduction s) (delta s) (rho s) (eps1 s) (isaccept s) (QPinfoFlag
    s) (exitflag s) (iter s) v (total_time s) (myQP s) (qp_sol s) (myLP s) (lp_sol s) (W_constr
    s) (W_bounds s) (opt_status s).
Definition set_total_time (s : AlgState) (v : Q) : AlgState :=
  mkAlg (x_k s) (c_k s) (obj_value s) (grad_f s) (jacobian s) (hessian s) (infea_measure s)
    (multiplier_cons s) (multiplier_vars s) (x_trial s) (c_trial s) (obj_value_trial s)
    (infea_measure_trial s) (p_k s) (qp_obj s) (norm_p_k s) (infea_measure_model s)
    (actual_reduction s) (pred_reduction s) (delta s) (rho s) (eps1 s) (isaccept s) (QPinfoFlag
    s) (exitflag s) (iter s) (penalty_change_trial s) v (myQP s) (qp_sol s) (myLP s) (lp_sol s)
    (W_constr s) (W_bounds s) (opt_status s).
Definition set_myQP (s : AlgState) (v : QpData) : AlgState :=
  mkAlg (x_k s) (c_k s) (obj_value s) (grad_f s) (jacobian s) (hessian s) (infea_measure s)
    (multiplier_cons s) (multiplier_vars s) (x_trial s) (c_trial s) (obj_value_trial s)
    (infea_measure_trial s) (p_k s) (qp_obj s) (norm_p_k s) (infea_measure_model s)
    (actual_reduction s) (pred_reduction s) (delta s) (rho s) (eps1 s) (isaccept s) (QPinfoFlag
    s) (exitflag s) (iter s) (penalty_change_trial s) (total_time s) v (qp_sol s) (myLP s)
    (lp_sol s) (W_constr s) (W_bounds s) (opt_status s).
Definition set_qp_sol (s : AlgState) (v : QpSolution) : AlgState :=
  mkAlg (x_k s) (c_k s) (obj_value s) (grad_f s) (jacobian s) (hessian s) (infea_measure s)
    (multiplier_cons s) (multiplier_vars s) (x_trial s) (c_trial s) (obj_value_trial s)
    (infea_measure_trial s) (p_k s) (qp_obj s) (norm_p_k s) (infea_measure_model s)
    (actual_reduction s) (pred_reduction s) (delta s) (rho s) (eps1 s) (isaccept s) (QPinfoFlag
    s) (exitflag s) (iter s) (penalty_change_trial s) (total_time s) (myQP s) v (myLP s)
    (lp_sol s) (W_constr s) (W_bounds s) (opt_status s).
Definition set_myLP (s : AlgState) (v : QpData) : AlgState :=
  mkAlg (x_k s) (c_k s) (obj_value s) (grad_f s) (jacobian s) (hessian s) (infea_measure s)
    (multiplier_cons s) (multiplier_vars s) (x_trial s) (c_trial s) (obj_value_trial s)
    (infea_measure_trial s) (p_k s) (qp_obj s) (norm_p_k s) (infea_measure_model s)
    (actual_reduction s) (pred_reduction s) (delta s) (rho s) (eps1 s) (isaccept s) (QPinfoFlag
    s) (exitflag s) (iter s) (penalty_change_trial s) (total_time s) (myQP s) (qp_sol s) v
    (lp_sol s) (W_constr s) (W_bounds s) (opt_status s).
Definition set_lp_sol (s : AlgState) (v : QpSolution) : AlgState :=
  mkAlg (x_k s) (c_k s) (obj_value s) (grad_f s) (jacobian s) (hessian s) (infea_measure s)
    (multiplier_cons s) (multiplier_vars s) (x_trial s) (c_trial s) (obj_value_trial s)
    (infea_measure_trial s) (p_k s) (qp_obj s) (norm_p_k s) (infea_measure_model s)
    (actual_reduction s) (pred_reduction s) (delta s) (rho s) (eps1 s) (isaccept s) (QPinfoFlag
    s) (exitflag s) (iter s) (penalty_change_trial s) (total_time s) (myQP s) (qp_sol s) (myLP
    s) v (W_constr s) (W_bounds s) (opt_status s).
Definition set_W_constr (s : AlgState) (v : list ActiveType) : AlgState :=
  mkAlg (x_k s) (c_k s) (obj_value s) (grad_f s) (jacobian s) (hessian s) (infea_measure s)
    (multiplier_cons s) (multiplier_vars s) (x_trial s) (c_trial s) (obj_value_trial s)
    (infea_measure_trial s) (p_k s) (qp_obj s) (norm_p_k s) (infea_measure_model s)
    (actual_reduction s) (pred_reduction s) (delta s) (rho s) (eps1 s) (isaccept s) (QPinfoFlag
    s) (exitflag s) (iter s) (penalty_change_trial s) (total_time s) (myQP s) (qp_sol s) (myLP
    s) (lp_sol s) v (W_bounds s) (opt_status s).
Definition set_W_bounds (s : AlgState) (v : list ActiveType) : AlgState :=
  mkAlg (x_k s) (c_k s) (obj_value s) (grad_f s) (jacobian s) (hessian s) (infea_measure s)
    (multiplier_cons s) (multiplier_vars s) (x_trial s) (c_trial s) (obj_value_trial s)
    (infea_measure_trial s) (p_k s) (qp_obj s) (norm_p_k s) (infea_measure_model s)
    (actual_reduction s) (pred_reduction s) (delta s) (rho s) (eps1 s) (isaccept s) (QPinfoFlag
    s) (exitflag s) (iter s) (penalty_change_trial s) (total_time s) (myQP s) (qp_sol s) (myLP
    s) (lp_sol s) (W_constr s) v (opt_status s).
Definition set_opt_status (s : AlgState) (v : OptimalityStatus) : AlgState :=
  mkAlg (x_k s) (c_k s) (obj_value s) (grad_f s) (jacobian s) (hessian s) (infea_measure s)
    (multiplier_cons s) (multiplier_vars s) (x_trial s) (c_trial s) (obj_value_trial s)
    (infea_measure_trial s) (p_k s) (qp_obj s) (norm_p_k s) (infea_measure_model s)
    (actual_reduction s) (pred_reduction s) (delta s) (rho s) (eps1 s) (isaccept s) (QPinfoFlag
    s) (exitflag s) (iter s) (penalty_change_trial s) (total_time s) (myQP s) (qp_sol s) (myLP
    s) (lp_sol s) (W_constr s) (W_bounds s) v.

(** ** Exceptions *)

(** The exceptions [Algorithm] throws or catches. *)
Inductive Exn := QP_UNCHANGED | QP_NOT_OPTIMAL | LP_NOT_OPTIMAL | SMALL_TRUST_REGION.

#[export] Instance Exn_eq_dec : EqDecision Exn.
Proof. solve_decision. Defined.

(** A routine returns its value, throws with the state at the throw, or
    (a [while] loop only) runs out of the fuel of the model. *)
Inductive Res (A : Type) :=
| Ok (a : A)
| Throw (e : Exn) (s : AlgState)
| OutOfFuel.
Arguments Ok {A} a.
Arguments Throw {A} e s.
Arguments OutOfFuel {A}.

#[export] Instance Res_ret : MRet Res := fun A a => Ok a.
#[export] Instance Res_bind : MBind Res := fun A B f m =>
  match m with Ok a => f a | Throw e s => Throw e s | OutOfFuel => OutOfFuel end.

Lemma Res_bind_Ok {A B} (f : A -> Res B) (a : A) : (Ok a ≫= f) = f a.
Proof. done. Qed.

Lemma Res_bind_Throw {A B} (f : A -> Res B) e s : (Throw e s ≫= f) = Throw e s.
Proof. done. Qed.

#[export] Hint Rewrite @Res_bind_Ok @Res_bind_Throw : sqp_rw.

(** Whether any block of the QP is marked as changed. *)
Definition any_flag (f : UpdateFlags) : bool :=
  Update_g f || Update_H f || Update_A f || Update_bounds f || Update_delta f || Update_penalty f.

Section Steps.
Variable env : Env.
Let o := options env.

(** ** The routines of one iteration *)

(** [cal_infea(c_k, c_l, c_u, x_k, x_l, x_u)]: the one-norm of the
    bound violations; the loops run over the sizes of the members
    [c_k_] and [x_k_]; the variable part is present when [x_k] is not
    [nullptr]. *)
Definition cal_infea (c c_lo c_up : list Q) (ox : option (list Q * list Q * list Q)) : Q :=
  let infea := for_range 0 (nCon env) (fun i infea =>
    if Qltb c.[i] c_lo.[i] then infea + (c_lo.[i] - c.[i])
    else if Qltb c_up.[i] c.[i] then infea + (c.[i] - c_up.[i])
    else infea) 0 in
  match ox with
  | None => infea
  | Some (x, x_lo, x_up) =>
      for_range 0 (nVar env) (fun i infea =>
        if Qltb x.[i] x_lo.[i] then infea + (x_lo.[i] - x.[i])
        else if Qltb x_up.[i] x.[i] then infea + (x.[i] - x_up.[i])
        else infea) infea
  end.

(** [get_trial_point_info()] (without [NEW_FORMULATION]). *)
Definition get_trial_point_info (s : AlgState) : AlgState :=
  let xt := add_vector (copy_vector (x_trial s) (x_k s)) (p_k s) in
  let s := set_x_trial s xt in
  let s := set_obj_value_trial s (eval_f env xt) in
  let s := set_c_trial s (eval_constraints env xt) in
  set_infea_measure_trial s (cal_infea (c_trial s) (c_l env) (c_u env) None).

(** [get_search_direction()] and [get_obj_QP()]: the step and the
    objective of the last QP solution. *)
Definition get_search_direction (s : AlgState) : AlgState :=
  set_p_k s (copy_vector (p_k s) (x_qp (qp_sol s))).

Definition get_obj_QP (s : AlgState) : Q := qp_obj_value (qp_sol s).

(** [get_multipliers()]. *)
Definition get_multipliers (s : AlgState) : AlgState :=
  if decide (QPsolverChoice o = QORE ∨ QPsolverChoice o = QPOASES) then
    let s := set_multiplier_cons s (copy_vector (multiplier_cons s) (y_constr (qp_sol s))) in
    set_multiplier_vars s (copy_vector (multiplier_vars s) (y_bounds (qp_sol s)))
  else if decide (QPsolverChoice o = GUROBI ∨ QPsolverChoice o = CPLEX) then
    let s := set_multiplier_cons s (copy_vector (multiplier_cons s) (y_constr (qp_sol s))) in
    let tmp_vec_nVar := SpTripletMat.transposed_times (jacobian s) (multiplier_cons s) in
    let mv := SpTripletMat.times (hessian s) (p_k s) in
    let mv := add_vector mv (grad_f s) in
    set_multiplier_vars s (subtract_vector mv tmp_vec_nVar)
  else s.

(** [ratio_test()] (the [#if 1] branch). *)
Definition ratio_test (s : AlgState) : AlgState :=
  let P1_x := obj_value s + rho s * infea_measure s in
  let P1_x_trial := obj_value_trial s + rho s * infea_measure_trial s in
  let s := set_actual_reduction s (P1_x - P1_x_trial) in
  let s := set_pred_reduction s (rho s * infea_measure s - get_obj_QP s) in
  if Qleb (eta_s o * pred_reduction s) (actual_reduction s)
     && Qleb (- tol o) (actual_reduction s) then
    let s := set_infea_measure s (infea_measure_trial s) in
    let s := set_obj_value s (obj_value_trial s) in
    let s := set_x_k s (copy_vector (x_k s) (x_trial s)) in
    let s := set_c_k s (copy_vector (c_k s) (c_trial s)) in
    let s := get_multipliers s in
    let s := set_grad_f s (eval_gradient env (x_k s)) in
    let s := set_jacobian s (eval_jacobian env (x_k s)) in
    let s := set_hessian s (eval_hessian env (x_k s) (multiplier_cons s)) in
    let f := QPinfoFlag s in
    let f := set_Update_g (set_Update_bounds (set_Update_H (set_Update_A f true) true) true) true in
    set_isaccept (set_QPinfoFlag s f) true
  else set_isaccept s false.

(** [update_radius()]: throws [SMALL_TRUST_REGION] with the exit flag
    [TRUST_REGION_TOO_SMALL] when the radius falls below [delta_min]. *)
Definition update_radius (s : AlgState) : Res AlgState :=
  let s :=
    if Qltb (actual_reduction s) (eta_c o * pred_reduction s) then
      set_QPinfoFlag (set_delta s (gamma_c o * delta s)) (set_Update_delta (QPinfoFlag s) true)
    else if Qltb (eta_e o * pred_reduction s) (actual_reduction s)
            && Qltb (Qabs (delta s - getInfNorm (p_k s))) (tol o) then
      set_QPinfoFlag (set_delta s (Qmin (gamma_e o * delta s) (delta_max o)))
                     (set_Update_delta (QPinfoFlag s) true)
    else s in
  if Qltb (delta s) (delta_min o) then Throw SMALL_TRUST_REGION (set_exitflag s TRUST_REGION_TOO_SMALL)
  else Ok s.

(** The incremental part of [setupQP()]: each dirty block is pushed to
    the builder and its flag cleared, in the order of the code. *)
Definition setupQP_updates (s : AlgState) : AlgState :=
  let cfg := QPcfg env in
  let s := if Update_A (QPinfoFlag s) then
             set_QPinfoFlag (set_myQP s (update_A cfg (jacobian s) (myQP s)))
                            (set_Update_A (QPinfoFlag s) false) else s in
  let s := if Update_H (QPinfoFlag s) then
             set_QPinfoFlag (set_myQP s (update_H (hessian s) (myQP s)))
                            (set_Update_H (QPinfoFlag s) false) else s in
  let s := if Update_bounds (QPinfoFlag s) then
             set_QPinfoFlag
               (set_myQP s (update_bounds cfg (delta s) (x_l env) (x_u env) (x_k s)
                              (c_l env) (c_u env) (c_k s) (myQP s)))
               (set_Update_delta (set_Update_bounds (QPinfoFlag s) false) false)
           else if Update_delta (QPinfoFlag s) then
             set_QPinfoFlag
               (set_myQP s (update_delta cfg (delta s) (x_l env) (x_u env) (x_k s) (myQP s)))
               (set_Update_delta (QPinfoFlag s) false)
           else s in
  let s := if Update_penalty (QPinfoFlag s) then
             set_QPinfoFlag (set_myQP s (update_penalty cfg (rho s) (myQP s)))
                            (set_Update_penalty (QPinfoFlag s) false) else s in
  if Update_g (QPinfoFlag s) then
    set_QPinfoFlag (set_myQP s (update_grad cfg (grad_f s) (myQP s)))
                   (set_Update_g (QPinfoFlag s) false)
  else s.

(** The first QP: [set_A], [set_H], [set_bounds], [set_g]. *)
Definition setupQP_first (s : AlgState) : AlgState :=
  let cfg := QPcfg env in
  let d := set_A cfg (jacobian s) (myQP s) in
  let d := set_H cfg (hessian s) d in
  let d := set_bounds cfg (delta s) (x_l env) (x_u env) (x_k s) (c_l env) (c_u env) (c_k s) d in
  set_myQP s (set_g_QP cfg (grad_f s) (rho s) d).

(** [setupQP()]: throws [QP_UNCHANGED] when, after the first
    iteration, no block is dirty. *)
Definition setupQP (s : AlgState) : Res AlgState :=
  if Nat.eqb (iter s) 0 then Ok (setupQP_first s)
  else if negb (any_flag (QPinfoFlag s)) then Throw QP_UNCHANGED s
  else Ok (setupQP_updates s).

(** [setupLP()]: [set_bounds], [set_g(rho)], [set_A] on [myLP_]. *)
Definition setupLP (s : AlgState) : AlgState :=
  let cfg := LPcfg env in
  let d := set_bounds cfg (delta s) (x_l env) (x_u env) (x_k s) (c_l env) (c_u env) (c_k s) (myLP s) in
  let d := set_g_LP cfg (rho s) d in
  set_myLP s (set_A cfg (jacobian s) d).
End Steps.

(** ** Classifying the constraints *)

(** [Algorithm::classify_constraints_types]: the two loops over the
    [nCon_] constraints and the [nVar_] variables write one tag each into
    [cons_type_] and [bound_cons_type_]. *)
Definition classify_constraints_types (nCon nVar : nat) (c_l c_u x_l x_u : list Q)
    (cons_type bound_cons_type : list ConstraintType) : list ConstraintType * list ConstraintType :=
  (for_range 0 nCon (fun i a => <[i := classify_single_constraint c_l.[i] c_u.[i]]> a) cons_type,
   for_range 0 nVar (fun i a => <[i := classify_single_constraint x_l.[i] x_u.[i]]> a) bound_cons_type).

(** ** Infeasibility measure *)

(** The violation of one bound pair, as the loop of [cal_infea] adds it. *)
Definition infea_term (c c_lo c_up : list Q) (i : nat) : Q :=
  if Qltb c.[i] c_lo.[i] then c_lo.[i] - c.[i]
  else if Qltb c_up.[i] c.[i] then c.[i] - c_up.[i] else 0.

Lemma infea_term_nonneg c c_lo c_up i : 0 <= infea_term c c_lo c_up i.
Proof. unfold infea_term. qcase; lra. Qed.

Lemma infea_term_zero_iff c c_lo c_up i :
  infea_term c c_lo c_up i == 0 <-> c_lo.[i] <= c.[i] /\ c.[i] <= c_up.[i].
Proof. unfold infea_term. qcase; split; intros; lra. Qed.

Lemma cal_infea_sum env c c_lo c_up :
  cal_infea env c c_lo c_up None == sumQ (map (infea_term c c_lo c_up) (seq 0 (nCon env))).
Proof.
  unfold cal_infea. rewrite (for_range_Qsum _ _ _ (infea_term c c_lo c_up)); [lra|].
  intros i acc _. unfold infea_term. qcase; lra.
Qed.

#[export] Hint Resolve infea_term_nonneg : sqp.

(** the infeasibility measure of [cal_infea] is never negative and
    is zero exactly when every constraint value lies between its bounds. *)
Theorem cal_infea_zero_iff env c c_lo c_up :
  0 <= cal_infea env c c_lo c_up None /\
  (cal_infea env c c_lo c_up None == 0 <->
   forall i, (i < nCon env)%nat -> c_lo.[i] <= c.[i] /\ c.[i] <= c_up.[i]).
Proof.
  rewrite !cal_infea_sum. split.
  - apply sumQ_nonneg, Forall_fmap, Forall_forall. intros; apply infea_term_nonneg.
  - rewrite sumQ_seq_zero_iff by auto with sqp.
    setoid_rewrite infea_term_zero_iff. split; intros H i Hi; apply H; lia.
Qed.

(** ** Ratio test *)

(** The multipliers are the only members [get_multipliers] writes. *)
Ltac get_multipliers_cases := unfold get_multipliers; repeat case_decide; simpl.

(** [get_multipliers] writes only the two multiplier vectors. *)
Lemma get_multipliers_keeps env s :
  exists mc mv, get_multipliers env s = set_multiplier_vars (set_multiplier_cons s mc) mv.
Proof.
  unfold get_multipliers. repeat case_decide; eauto.
  exists (multiplier_cons s), (multiplier_vars s). by destruct s.
Qed.

(** Replace every [get_multipliers] of the goal by the two setters. *)
Ltac gm_frame :=
  repeat match goal with
  | |- context [get_multipliers ?e ?t] =>
      let mc := fresh "mc" in let mv := fresh "mv" in
      destruct (get_multipliers_keeps e t) as (mc & mv & ->)
  end.

(** The value of the merit function [P_1(x; rho) = f(x) + rho * infea(x)]
    at the iterate. *)
Definition merit (s : AlgState) : Q := obj_value s + rho s * infea_measure s.

(** C5: the ratio test accepts exactly when the actual reduction of the
    l1 merit function is at least [eta_s] times the reduction the QP
    predicts and not below [-tol]; the reductions it records are the
    differences of the merit function and of the model. *)
Theorem ratio_test_accept_iff env s :
  actual_reduction (ratio_test env s) ==
    merit s - (obj_value_trial s + rho s * infea_measure_trial s) /\
  pred_reduction (ratio_test env s) == rho s * infea_measure s - get_obj_QP s /\
  (isaccept (ratio_test env s) = true <->
   eta_s (options env) * (rho s * infea_measure s - get_obj_QP s)
     <= merit s - (obj_value_trial s + rho s * infea_measure_trial s) /\
   - tol (options env) <= merit s - (obj_value_trial s + rho s * infea_measure_trial s)).
Proof.
  unfold ratio_test, merit, get_obj_QP. simpl.
  qcase; simpl; get_multipliers_cases; (split; [lra|split; [lra|]]);
    split; intros; try done; lra.
Qed.

(** an accepted trial point becomes the iterate: [x_k], [c_k], the
    objective and the infeasibility are those of the trial point, the
    gradient, Jacobian and Hessian are re-evaluated there (the Hessian
    with the new multipliers), the four blocks A, H, bounds and g of the
    QP are marked dirty, and the radius and the penalty are unchanged. *)
Theorem ratio_test_accept_commits env s :
  isaccept (ratio_test env s) = true ->
  let s' := ratio_test env s in
  x_k s' = copy_vector (x_k s) (x_trial s) /\ c_k s' = copy_vector (c_k s) (c_trial s) /\
  obj_value s' = obj_value_trial s /\ infea_measure s' = infea_measure_trial s /\
  grad_f s' = eval_gradient env (x_k s') /\ jacobian s' = eval_jacobian env (x_k s') /\
  hessian s' = eval_hessian env (x_k s') (multiplier_cons s') /\
  Update_A (QPinfoFlag s') && Update_H (QPinfoFlag s') && Update_bounds (QPinfoFlag s')
    && Update_g (QPinfoFlag s') = true /\
  delta s' = delta s /\ rho s' = rho s.
Proof.
  unfold ratio_test. simpl.
  destruct (_ && _); simpl; [|done]. intros _. get_multipliers_cases; done.
Qed.

(** a rejected trial point leaves the iterate, its derivatives, its
    multipliers and the dirty flags as they were. *)
Theorem ratio_test_reject_keeps env s :
  isaccept (ratio_test env s) = false ->
  let s' := ratio_test env s in
  x_k s' = x_k s /\ c_k s' = c_k s /\ obj_value s' = obj_value s /\
  infea_measure s' = infea_measure s /\ grad_f s' = grad_f s /\ jacobian s' = jacobian s /\
  hessian s' = hessian s /\ multiplier_cons s' = multiplier_cons s /\
  multiplier_vars s' = multiplier_vars s /\ QPinfoFlag s' = QPinfoFlag s.
Proof.
  unfold ratio_test. simpl.
  destruct (_ && _); simpl; [|done]. get_multipliers_cases; done.
Qed.

(** C6: an accepted step never increases the merit function by more than
    [tol], and does not increase it at all when the QP predicts a
    reduction and [eta_s] is nonnegative. *)
Theorem ratio_test_merit_decrease env s :
  isaccept (ratio_test env s) = true ->
  merit (ratio_test env s) <= merit s + tol (options env) /\
  (0 <= eta_s (options env) -> 0 <= pred_reduction (ratio_test env s) ->
   merit (ratio_test env s) <= merit s).
Proof.
  intros Hacc. pose proof (ratio_test_accept_iff env s) as (Ha & Hp & Hiff).
  apply Hiff in Hacc as [H1 H2].
  pose proof (ratio_test_accept_commits env s) as Hc. rewrite (proj2 (Hiff)) in Hc by done.
  destruct (Hc eq_refl) as (_ & _ & Hobj & Hinf & _ & _ & _ & _ & _ & Hrho).
  unfold merit in *. rewrite Hobj, Hinf, Hrho. rewrite Hp. split; [lra|].
  intros He Hpred. assert (0 <= eta_s (options env) * (rho s * infea_measure s - get_obj_QP s))
    by (apply Qmult_le_0_compat; lra). lra.
Qed.

(** ** Trust-region radius *)

(** The state a routine leaves, whether it returns or throws. *)
Definition res_state (r : Res AlgState) : option AlgState :=
  match r with Ok s => Some s | Throw _ s => Some s | OutOfFuel => None end.

Lemma update_radius_state env s :
  exists s', res_state (update_radius env s) = Some s' /\
  (update_radius env s = Ok s' /\ delta_min (options env) <= delta s' \/
   update_radius env s = Throw SMALL_TRUST_REGION s' /\
   exitflag s' = TRUST_REGION_TOO_SMALL /\ delta s' < delta_min (options env)).
Proof.
  unfold update_radius. match goal with |- context [if Qltb (delta ?t) _ then _ else _] =>
    destruct (Qltb_spec (delta t) (delta_min (options env))) end; eexists; cbn [res_state].
  - split; [done|]. right. auto.
  - split; [done|]. left. split; [done|lra].
Qed.

(** C7: the radius update keeps the radius inside [[delta_min, delta_max]]
    when it returns, and throws [SMALL_TRUST_REGION] with the exit flag
    [TRUST_REGION_TOO_SMALL] exactly when the new radius is below
    [delta_min]; it never leaves [delta_max] when started inside. *)
Theorem update_radius_bounds env s :
  0 <= gamma_c (options env) <= 1 -> 0 <= delta s <= delta_max (options env) ->
  match update_radius env s with
  | Ok s' => delta_min (options env) <= delta s' <= delta_max (options env)
  | Throw e s' => e = SMALL_TRUST_REGION /\ exitflag s' = TRUST_REGION_TOO_SMALL /\
                  delta s' < delta_min (options env)
  | OutOfFuel => False
  end.
Proof.
  intros Hg Hd. destruct (update_radius_state env s) as (s' & Hs & [[-> Hmin] | (-> & Hf & Hlt)]);
    [|done]. split; [done|].
  revert Hs. unfold update_radius. qcase; simpl; intros Hs; injection Hs as <-; simpl; try lra.
  all: try nra; qlin.
Qed.

(** C8: with [0 < gamma_c < 1 < gamma_e] and a radius strictly inside
    [(0, delta_max)], the radius shrinks exactly when the actual
    reduction is below [eta_c] times the predicted one, grows exactly
    when it is above [eta_e] times the predicted one and the step
    reached the trust-region boundary up to [tol], and every change of
    the radius marks the step bounds of the QP dirty. *)
Theorem update_radius_shrink_grow env s s' :
  0 < gamma_c (options env) < 1 -> 1 < gamma_e (options env) ->
  0 < delta s < delta_max (options env) ->
  res_state (update_radius env s) = Some s' ->
  (delta s' < delta s <-> actual_reduction s < eta_c (options env) * pred_reduction s) /\
  (delta s < delta s' <->
     ~ actual_reduction s < eta_c (options env) * pred_reduction s /\
     eta_e (options env) * pred_reduction s < actual_reduction s /\
     Qabs (delta s - getInfNorm (p_k s)) < tol (options env)) /\
  (~ delta s' == delta s -> Update_delta (QPinfoFlag s') = true).
Proof.
  intros Hc He Hd. unfold update_radius.
  qcase; simpl; intros Hs; injection Hs as <-; simpl;
    (split; [|split]); try (split; intros); destruct_and?; try done; try qnra.
Qed.

(** ** Setting up the QP *)

(** The incremental set-up writes only the QP data and clears every flag. *)
Lemma setupQP_updates_frame env s :
  exists d, setupQP_updates env s = set_QPinfoFlag (set_myQP s d) no_flags.
Proof.
  destruct s. unfold setupQP_updates. simpl.
  destruct QPinfoFlag0 as [[] [] [] [] [] []]; simpl; eexists; reflexivity.
Qed.

(** C13: after the first iteration, [setupQP] throws [QP_UNCHANGED] exactly
    when no block of the QP is dirty; otherwise it changes nothing but
    the QP data and leaves every dirty flag cleared. *)
Theorem setupQP_flags env s :
  iter s ≠ 0%nat ->
  (setupQP env s = Throw QP_UNCHANGED s <-> QPinfoFlag s = no_flags) /\
  (forall s', setupQP env s = Ok s' ->
   exists d, s' = set_QPinfoFlag (set_myQP s d) no_flags).
Proof.
  intros Hit. unfold setupQP. apply Nat.eqb_neq in Hit. rewrite Hit.
  destruct (QPinfoFlag s) as [[] [] [] [] [] []] eqn:Hf; simpl;
    (split; [split; intros H; done|]); intros s' H; simplify_eq;
    apply setupQP_updates_frame.
Qed.

(** two set-ups in a row after the first iteration, with nothing in
    between, are refused: the second throws [QP_UNCHANGED]. *)
Theorem setupQP_twice_unchanged env s s' :
  iter s ≠ 0%nat -> setupQP env s = Ok s' -> setupQP env s' = Throw QP_UNCHANGED s'.
Proof.
  intros Hit Hs. destruct (setupQP_flags env s Hit) as [_ Hok].
  destruct (Hok s' Hs) as [d ->].
  apply (setupQP_flags env (set_QPinfoFlag (set_myQP s d) no_flags)); done.
Qed.

(** ** A concrete run

    The problem [min x^2 s.t. x = 1, -10 <= x <= 10] at the iterate
    [x_k = 2] with the options of [setDefaultOption] (and [tol =
    delta_min = 1e-8]); the QP step is [p = -1] with objective
    [1/2 * 2 + 4 * (-1) = -3]. *)
Definition ex_options : Options :=
  mkOptions (1 # 4) (1 # 100000000) (3 # 4) (1 # 2) 2
            1 (1 # 100000000) (10 ^ 8) (1 # 100000000)
            1 (10 ^ 6) 10 (3 # 10) (1 # 1000000) (1 # 10)
            (1 # 100000000) (1 # 100000) (1 # 1000000)
            (1 # 1000000) (1 # 100000) (1 # 100000) 3600
            10 10 true true QPOASES.

Definition ex_jacobian : SpTripletMat := mkSpTripletMat 1 1 false [1%nat] [1%nat] [1].
Definition ex_hessian : SpTripletMat := mkSpTripletMat 1 1 true [1%nat] [1%nat] [2].

Definition ex_qp_solution : QpSolution := mkQpSolution [-1; 0; 0] [0; 0; 0] [2] (-3).

Definition ex_env : Env :=
  mkEnv ex_options 1 1 [-10] [10] [1] [1] [EQUAL] [BOUNDED]
    (QPhandler_new 1 1 QPOASES) (QPhandler_new 1 1 QPOASES)
    (fun x => x.[0] * x.[0]) (fun x => [x.[0]]) (fun x => [2 * x.[0]])
    (fun _ => ex_jacobian) (fun _ _ => ex_hessian)
    (fun _ => QpSolved ex_qp_solution) (fun _ => QpSolved ex_qp_solution)
    (fun _ => 1).

Definition ex_empty_qp : QpData := mkQpData [0; 0; 0] [0; 0; 0] [0] [0] [0; 0; 0] None None.

Definition ex_opt_status : OptimalityStatus := mkOptimalityStatus 0 0 0 0 0 false false false false false.

(** The state after the QP of iteration 1 and [get_trial_point_info]. *)
Definition ex_state : AlgState :=
  mkAlg [2] [2] 4 [4] ex_jacobian ex_hessian 1 [0] [0]
        [1] [1] 1 0
        [-1] (-3) 1 0 0 0
        1 1 (3 # 10)
        false no_flags UNKNOWN 1 0 0
        ex_empty_qp ex_qp_solution ex_empty_qp ex_qp_solution
        [INACTIVE] [INACTIVE] ex_opt_status.

Lemma ratio_test_accept_commits_witness :
  isaccept (ratio_test ex_env ex_state) = true /\
  obj_value (ratio_test ex_env ex_state) = obj_value_trial ex_state.
Proof.
  split; [vm_compute; reflexivity|].
  apply (ratio_test_accept_commits ex_env ex_state). vm_compute. reflexivity.
Defined.

(** With a trial point that increases the merit function the step is
    rejected. *)
Definition ex_bad_trial : AlgState := set_obj_value_trial ex_state 9.

Lemma ratio_test_reject_keeps_witness :
  isaccept (ratio_test ex_env ex_bad_trial) = false /\
  x_k (ratio_test ex_env ex_bad_trial) = x_k ex_bad_trial.
Proof.
  split; [vm_compute; reflexivity|].
  apply (ratio_test_reject_keeps ex_env ex_bad_trial). vm_compute. reflexivity.
Defined.

Lemma ratio_test_merit_decrease_witness :
  merit (ratio_test ex_env ex_state) <= merit ex_state + tol (options ex_env) /\
  (0 <= eta_s (options ex_env) -> 0 <= pred_reduction (ratio_test ex_env ex_state) ->
   merit (ratio_test ex_env ex_state) <= merit ex_state).
Proof. apply (ratio_test_merit_decrease ex_env ex_state). vm_compute. reflexivity. Defined.

Lemma update_radius_bounds_witness :
  match update_radius ex_env (ratio_test ex_env ex_state) with
  | Ok s' => delta_min ex_options <= delta s' <= delta_max ex_options
  | Throw e s' => e = SMALL_TRUST_REGION /\ exitflag s' = TRUST_REGION_TOO_SMALL /\
                  delta s' < delta_min ex_options
  | OutOfFuel => False
  end.
Proof.
  apply (update_radius_bounds ex_env (ratio_test ex_env ex_state));
    vm_compute; repeat split; discriminate.
Defined.

(** The full step [p = -1] reaches the boundary of the unit radius and
    the actual reduction equals the predicted one: the radius doubles. *)
Lemma update_radius_shrink_grow_witness :
  res_state (update_radius ex_env (ratio_test ex_env ex_state)) =
    Some (set_QPinfoFlag (set_delta (ratio_test ex_env ex_state) 2)
            (set_Update_delta (QPinfoFlag (ratio_test ex_env ex_state)) true)) /\
  (1 < delta (set_QPinfoFlag (set_delta (ratio_test ex_env ex_state) 2)
            (set_Update_delta (QPinfoFlag (ratio_test ex_env ex_state)) true)) <->
   ~ actual_reduction (ratio_test ex_env ex_state) <
       eta_c (options ex_env) * pred_reduction (ratio_test ex_env ex_state) /\
   eta_e (options ex_env) * pred_reduction (ratio_test ex_env ex_state) <
       actual_reduction (ratio_test ex_env ex_state) /\
   Qabs (delta (ratio_test ex_env ex_state) - getInfNorm (p_k (ratio_test ex_env ex_state)))
     < tol (options ex_env)).
Proof.
  assert (H : res_state (update_radius ex_env (ratio_test ex_env ex_state)) =
    Some (set_QPinfoFlag (set_delta (ratio_test ex_env ex_state) 2)
            (set_Update_delta (QPinfoFlag (ratio_test ex_env ex_state)) true)))
    by (vm_compute; reflexivity).
  split; [exact H|].
  apply (update_radius_shrink_grow ex_env (ratio_test ex_env ex_state) _);
    [vm_compute; split; reflexivity | vm_compute; reflexivity
    | vm_compute; split; reflexivity | exact H].
Defined.

Lemma setupQP_flags_witness :
  setupQP ex_env (ratio_test ex_env ex_state) ≠ Throw QP_UNCHANGED (ratio_test ex_env ex_state).
Proof.
  intros H. apply (setupQP_flags ex_env (ratio_test ex_env ex_state)) in H;
    [vm_compute in H; discriminate | vm_compute; discriminate].
Defined.

Lemma setupQP_twice_unchanged_witness :
  setupQP ex_env (setupQP_updates ex_env (ratio_test ex_env ex_state)) =
  Throw QP_UNCHANGED (setupQP_updates ex_env (ratio_test ex_env ex_state)).
Proof.
  apply (setupQP_twice_unchanged ex_env (ratio_test ex_env ex_state));
    [vm_compute; discriminate | vm_compute; reflexivity].
Defined.
