(* ===== verification/Optimality.v ===== *)
(** * The KKT test of the driver ([Algorithm::check_optimality])

    [check_optimality] refreshes the multipliers from the QP solution,
    tags the active bounds, adds up the four violations of the KKT
    conditions (primal infeasibility, dual sign, complementarity,
    stationarity [J^T y_c + y_b - grad f]) and sets [OPTIMAL] when each is
    below its tolerance.  The active-set loop of the constraints sits
    under [if (multiplier_vars_ == nullptr)] without braces: the model
    keeps the test, which is false for the always allocated vector.
    The theorems prove that a KKT point is reported [OPTIMAL], how the
    activity tags are computed, and that the constraint tags are never
    computed. *)

From S2P Require Import Prelude SqpTypes DenseVector SparseMatrix SolverInterface QPhandler Algorithm.
Local Open Scope Q_scope.

(** The kind of constraint [i] ([cons_type_[i]]). *)
Definition kind_of (types : list ConstraintType) (i : nat) : ConstraintType :=
  default UNBOUNDED (types !! i).

(** [multiplier_vars_ == nullptr]: the vector is allocated by
    [allocate_memory] and never reset. *)
Definition multiplier_vars_is_null (s : AlgState) : bool := false.

Section CheckOptimality.
Variable env : Env.
Let o := options env.

(** One pass of the "Identify Active Set" loop over [n] entries with
    kinds [types], bounds [lo], [up] and values [v]; entries whose test
    fails keep their old tag, except for the [BOUNDED] and [UNBOUNDED]
    kinds, which are set [INACTIVE]. *)
Definition identify_active (types : list ConstraintType) (lo up v : list Q) (n : nat)
    (W : list ActiveType) : list ActiveType :=
  for_range 0 n (fun i W =>
    match kind_of types i with
    | BOUNDED_ABOVE =>
        if Qltb (Qabs (up.[i] - v.[i])) (active_set_tol o) then <[i:=ACTIVE_ABOVE]> W else W
    | BOUNDED_BELOW =>
        if Qltb (Qabs (v.[i] - lo.[i])) (active_set_tol o) then <[i:=ACTIVE_BELOW]> W else W
    | EQUAL =>
        if Qltb (Qabs (up.[i] - v.[i])) (active_set_tol o)
           && Qltb (Qabs (v.[i] - lo.[i])) (active_set_tol o)
        then <[i:=ACTIVE_BOTH_SIDE]> W else W
    | _ => <[i:=INACTIVE]> W
    end) W.

(** The dual feasibility loop over one group of multipliers. *)
Definition dual_violation_loop (types : list ConstraintType) (y : list Q) (n : nat) (acc : Q) : Q :=
  for_range 0 n (fun i acc =>
    match kind_of types i with
    | BOUNDED_ABOVE => acc + Qmax y.[i] 0
    | BOUNDED_BELOW => acc + - Qmin y.[i] 0
    | _ => acc
    end) acc.

(** The complementarity loop over one group. *)
Definition compl_violation_loop (types : list ConstraintType) (y lo up v : list Q) (n : nat)
    (acc : Q) : Q :=
  for_range 0 n (fun i acc =>
    match kind_of types i with
    | BOUNDED_ABOVE => acc + Qabs (y.[i] * (up.[i] - v.[i]))
    | BOUNDED_BELOW => acc + Qabs (y.[i] * (v.[i] - lo.[i]))
    | UNBOUNDED => acc + Qabs y.[i]
    | _ => acc
    end) acc.

(** The stationarity residual [J^T y_c + y_b - grad f]. *)
Definition stationarity_difference (s : AlgState) : list Q :=
  subtract_vector (add_vector (SpTripletMat.transposed_times (jacobian s) (multiplier_cons s))
                              (multiplier_vars s)) (grad_f s).

(** [check_optimality()]. *)
Definition check_optimality (s : AlgState) : AlgState :=
  let s := get_multipliers env s in
  let s := if multiplier_vars_is_null s
           then set_W_constr s (identify_active (cons_type env) (c_l env) (c_u env) (c_k s)
                                  (nCon env) (W_constr s))
           else s in
  let s := set_W_bounds s (identify_active (bound_cons_type env) (x_l env) (x_u env) (x_k s)
                             (nVar env) (W_bounds s)) in
  let primal := 0 + infea_measure s in
  let dual := dual_violation_loop (cons_type env) (multiplier_cons s) (nCon env)
                (dual_violation_loop (bound_cons_type env) (multiplier_vars s) (nVar env) 0) in
  let compl := compl_violation_loop (bound_cons_type env) (multiplier_vars s) (x_l env)
                 (x_u env) (x_k s) (nVar env)
                 (compl_violation_loop (cons_type env) (multiplier_cons s) (c_l env) (c_u env)
                    (c_k s) (nCon env) 0) in
  let stat := getOneNorm (stationarity_difference s) in
  let pf := Qltb primal (opt_prim_fea_tol o) in
  let df := Qltb dual (opt_dual_fea_tol o) in
  let cf := Qltb compl (opt_compl_tol o) in
  let sf := Qltb stat (opt_stat_tol o) in
  let optimal := pf && df && cf && sf in
  let st := mkOptimalityStatus primal dual compl stat (dual + primal + compl + stat)
              pf df cf sf (optimal || first_order_opt (opt_status s)) in
  let s := set_opt_status s st in
  if optimal then set_exitflag s OPTIMAL else s.
End CheckOptimality.

(** ** The conditions of a KKT point, one entry at a time *)

(** Dual feasibility of the multiplier of an entry of kind [k]. *)
Definition dual_sign_ok (k : ConstraintType) (y : Q) : Prop :=
  match k with BOUNDED_ABOVE => y <= 0 | BOUNDED_BELOW => 0 <= y | _ => True end.

(** Complementarity of an entry of kind [k] with value [v]. *)
Definition compl_ok (k : ConstraintType) (y lo up v : Q) : Prop :=
  match k with
  | BOUNDED_ABOVE => y * (up - v) == 0
  | BOUNDED_BELOW => y * (v - lo) == 0
  | UNBOUNDED => y == 0
  | _ => True
  end.

(** The tag the active-set loop gives entry [i] whose old tag is [old]. *)
Definition active_tag (env : Env) (types : list ConstraintType) (lo up v : list Q) (i : nat)
    (old : ActiveType) : ActiveType :=
  let t := active_set_tol (options env) in
  match kind_of types i with
  | BOUNDED_ABOVE => if Qltb (Qabs (up.[i] - v.[i])) t then ACTIVE_ABOVE else old
  | BOUNDED_BELOW => if Qltb (Qabs (v.[i] - lo.[i])) t then ACTIVE_BELOW else old
  | EQUAL => if Qltb (Qabs (up.[i] - v.[i])) t && Qltb (Qabs (v.[i] - lo.[i])) t
             then ACTIVE_BOTH_SIDE else old
  | _ => INACTIVE
  end.

(** The terms the violation loops add. *)
Definition dual_term (types : list ConstraintType) (y : list Q) (i : nat) : Q :=
  match kind_of types i with
  | BOUNDED_ABOVE => Qmax y.[i] 0
  | BOUNDED_BELOW => - Qmin y.[i] 0
  | _ => 0
  end.

Definition compl_term (types : list ConstraintType) (y lo up v : list Q) (i : nat) : Q :=
  match kind_of types i with
  | BOUNDED_ABOVE => Qabs (y.[i] * (up.[i] - v.[i]))
  | BOUNDED_BELOW => Qabs (y.[i] * (v.[i] - lo.[i]))
  | UNBOUNDED => Qabs y.[i]
  | _ => 0
  end.

(** ** Lemmas *)

Lemma identify_active_lookup env types lo up v n W k :
  identify_active env types lo up v n W !! k =
  if decide (k < n)%nat then active_tag env types lo up v k <$> W !! k else W !! k.
Proof.
  unfold identify_active.
  apply (for_range_local_lookup _ _ (fun i o => active_tag env types lo up v i <$> o)).
  - intros i w j Hj. unfold active_tag.
    destruct (kind_of types i); repeat case_match; by rewrite ?list_lookup_insert_ne.
  - intros i w. unfold active_tag.
    destruct (kind_of types i); repeat case_match; rewrite ?list_lookup_insert_self;
      by destruct (w !! i).
Qed.

Lemma dual_violation_loop_sum types y n acc :
  dual_violation_loop types y n acc == acc + sumQ (map (dual_term types y) (seq 0 n)).
Proof.
  apply for_range_Qsum. intros i a _. unfold dual_term. destruct (kind_of types i); lra.
Qed.

Lemma compl_violation_loop_sum types y lo up v n acc :
  compl_violation_loop types y lo up v n acc ==
  acc + sumQ (map (compl_term types y lo up v) (seq 0 n)).
Proof.
  apply for_range_Qsum. intros i a _. unfold compl_term. destruct (kind_of types i); lra.
Qed.

Lemma dual_term_zero types y i :
  dual_sign_ok (kind_of types i) y.[i] -> dual_term types y i == 0.
Proof. unfold dual_term, dual_sign_ok. destruct (kind_of types i); intros; qlin. Qed.

Lemma compl_term_zero types y lo up v i :
  compl_ok (kind_of types i) y.[i] lo.[i] up.[i] v.[i] -> compl_term types y lo up v i == 0.
Proof.
  unfold compl_term, compl_ok. destruct (kind_of types i); intros H; try lra;
    rewrite H; reflexivity.
Qed.

(** A sum over an index range whose terms all vanish is zero. *)
Lemma sumQ_seq_all_zero (t : nat -> Q) n :
  (forall i, (i < n)%nat -> t i == 0) -> sumQ (map t (seq 0 n)) == 0.
Proof.
  intros H. induction n as [|n IH]; [reflexivity|].
  rewrite seq_S, map_app, sumQ_app, IH by (intros; apply H; lia).
  unfold sumQ. cbn [map fold_right]. rewrite H by lia. lra.
Qed.

(** The one-norm of a vector whose entries all vanish is zero. *)
Lemma getOneNorm_zero (v : list Q) : (forall k x, v !! k = Some x -> x == 0) -> getOneNorm v == 0.
Proof.
  unfold getOneNorm. induction v as [|x v IH]; intros H; [reflexivity|].
  change (sumQ (map Qabs (x :: v))) with (Qabs x + sumQ (map Qabs v)).
  rewrite (H 0%nat x), IH by (done || (intros k y Hk; by apply (H (S k)))). reflexivity.
Qed.

Lemma Qltb_of_zero (x t : Q) : x == 0 -> 0 < t -> Qltb x t = true.
Proof. intros Hx Ht. destruct (Qltb_spec x t); [done|lra]. Qed.

#[export] Hint Resolve dual_term_zero compl_term_zero : sqp.

(** The stationarity residual vanishes when [J^T y_c + y_b = grad f]. *)
Lemma stationarity_zero (s : AlgState) :
  (forall i, (i < ColNum (jacobian s))%nat ->
     (SpTripletMat.transposed_times (jacobian s) (multiplier_cons s)).[i] + (multiplier_vars s).[i]
     == (grad_f s).[i]) ->
  getOneNorm (stationarity_difference s) == 0.
Proof.
  intros H. apply getOneNorm_zero. intros k x. unfold stationarity_difference.
  rewrite subtract_vector_lookup, add_vector_lookup.
  destruct (SpTripletMat.transposed_times (jacobian s) (multiplier_cons s) !! k) as [y|] eqn:Hy; [|done].
  simpl. intros [= <-]. pose proof (lookup_lt_Some _ _ _ Hy) as Hk.
  rewrite length_transposed_times in Hk. apply vget_lookup in Hy. subst y.
  specialize (H k Hk). lra.
Qed.

(** ** Theorems *)

(** C4: a KKT point is reported optimal: when the iterate is feasible,
    the multipliers the QP returns have the right signs, are
    complementary to every bound and constraint, and satisfy
    [J^T y_c + y_b = grad f], and the tolerances are positive,
    [check_optimality] sets the exit flag [OPTIMAL]. *)
Theorem check_optimality_kkt env s :
  0 < opt_prim_fea_tol (options env) -> 0 < opt_dual_fea_tol (options env) ->
  0 < opt_compl_tol (options env) -> 0 < opt_stat_tol (options env) ->
  infea_measure s == 0 ->
  (forall i, (i < nVar env)%nat ->
     dual_sign_ok (kind_of (bound_cons_type env) i) (multiplier_vars (get_multipliers env s)).[i] /\
     compl_ok (kind_of (bound_cons_type env) i) (multiplier_vars (get_multipliers env s)).[i]
       (x_l env).[i] (x_u env).[i] (x_k s).[i]) ->
  (forall i, (i < nCon env)%nat ->
     dual_sign_ok (kind_of (cons_type env) i) (multiplier_cons (get_multipliers env s)).[i] /\
     compl_ok (kind_of (cons_type env) i) (multiplier_cons (get_multipliers env s)).[i]
       (c_l env).[i] (c_u env).[i] (c_k s).[i]) ->
  (forall i, (i < ColNum (jacobian s))%nat ->
     (SpTripletMat.transposed_times (jacobian s) (multiplier_cons (get_multipliers env s))).[i]
     + (multiplier_vars (get_multipliers env s)).[i] == (grad_f s).[i]) ->
  exitflag (check_optimality env s) = OPTIMAL /\
  first_order_opt (opt_status (check_optimality env s)) = true.
Proof.
  intros Hp Hd Hc Hs Hinf Hb Hk Hst.
  destruct (get_multipliers_keeps env s) as (mc & mv & Hg).
  rewrite Hg in Hb, Hk, Hst. simpl in Hb, Hk, Hst.
  unfold check_optimality. rewrite Hg. simpl.
  rewrite (Qltb_of_zero (0 + infea_measure s)) by (done || lra).
  rewrite (Qltb_of_zero (dual_violation_loop _ _ _ _)).
  2: { rewrite !dual_violation_loop_sum, !sumQ_seq_all_zero; [lra| |];
       intros i Hi; apply dual_term_zero; [apply Hk | apply Hb]; done. }
  2: done.
  rewrite (Qltb_of_zero (compl_violation_loop _ _ _ _ _ _ _)).
  2: { rewrite !compl_violation_loop_sum, !sumQ_seq_all_zero; [lra| |];
       intros i Hi; apply compl_term_zero; [apply Hb | apply Hk]; done. }
  2: done.
  rewrite (Qltb_of_zero (getOneNorm _)); [done| |done].
  by apply stationarity_zero.
Qed.

(** C23: the activity tags of the variable bounds after [check_optimality]:
    entry [k] gets [active_tag] of its old tag, so a two-sided
    ([BOUNDED]) variable is always [INACTIVE], even at a bound, and a
    one-sided bound that is no longer active keeps its old tag. *)
Theorem check_optimality_bound_tags env s k w :
  (k < nVar env)%nat -> W_bounds s !! k = Some w ->
  W_bounds (check_optimality env s) !! k =
  Some (active_tag env (bound_cons_type env) (x_l env) (x_u env) (x_k s) k w).
Proof.
  intros Hk Hw. destruct (get_multipliers_keeps env s) as (mc & mv & Hg).
  unfold check_optimality. rewrite Hg. simpl.
  destruct (_ && _ && _ && _); simpl;
    rewrite identify_active_lookup, decide_True, Hw by done; done.
Qed.

(** ** The concrete run of [Algorithm] continued *)

(** After the accepted step the iterate [x = 1] is the solution of
    [min x^2 s.t. x = 1], with [y_c = 2]. *)
Definition ex_accepted : AlgState := ratio_test ex_env ex_state.

Ltac ex_hyps :=
  repeat split; intros;
  try match goal with H : (?i < _)%nat |- _ => destruct i; [|vm_compute in H; lia] end;
  vm_compute; try split; try reflexivity; try discriminate; auto.

Lemma check_optimality_kkt_witness :
  exitflag (check_optimality ex_env ex_accepted) = OPTIMAL /\
  first_order_opt (opt_status (check_optimality ex_env ex_accepted)) = true.
Proof. apply check_optimality_kkt; ex_hyps. Defined.

Lemma check_optimality_bound_tags_witness :
  W_bounds (check_optimality ex_env ex_accepted) !! 0%nat =
  Some (active_tag ex_env (bound_cons_type ex_env) (x_l ex_env) (x_u ex_env) (x_k ex_accepted)
          0 INACTIVE).
Proof. apply check_optimality_bound_tags; vm_compute; [lia | reflexivity]. Defined.

(** The equality constraint holds at [x = 1], so the loop of the
    constraints would tag it [ACTIVE_BOTH_SIDE]; [check_optimality]
    leaves it [INACTIVE]. *)
Example check_optimality_misses_active_constraint :
  identify_active ex_env (cons_type ex_env) (c_l ex_env) (c_u ex_env) (c_k ex_accepted) 1
    (W_constr ex_accepted) = [ACTIVE_BOTH_SIDE] /\
  W_constr (check_optimality ex_env ex_accepted) = [INACTIVE].
Proof. split; vm_compute; reflexivity. Qed.

(** A two-sided bound reached by the iterate is tagged [INACTIVE]. *)
Example check_optimality_bounded_at_bound_inactive :
  W_bounds (check_optimality ex_env (set_x_k ex_accepted [10])) = [INACTIVE].
Proof. vm_compute. reflexivity. Qed.
