(* ===== verification/Penalty.v ===== *)
(** * The penalty update of the driver ([Algorithm::update_penalty_parameter])

    When the QP step leaves the linearised constraints violated
    ([infea_measure_model_ > penalty_update_tol]), the driver solves an
    LP for the best achievable model infeasibility and then raises a
    trial penalty [rho_trial] by the factor [increase_parm] (capped at
    [rho_max]), re-solving the QP after each raise, in one of two
    [while] loops.  The trial is kept when it passes the [eps2] test.

    Each [while] loop is the fuel-indexed [penalty_loop]; running out of
    fuel is [OutOfFuel].  [penalty_fuel] is the fuel the driver gives: the
    theorems show it is enough whenever [rho_ > 0] and
    [increase_parm > 1], and that without these the first loop of the
    code does not stop at all. *)

From S2P Require Import Prelude SqpTypes DenseVector SparseMatrix SolverInterface QPhandler Algorithm.
From Stdlib Require Import Qround.
Local Open Scope Q_scope.

Section Penalty.
Variable env : Env.
Let o := options env.

(** The body of both loops after the [rho_trial >= rho_max] test: raise
    the trial penalty, count the trial, push it to the QP and re-solve;
    [false] is the [break] of a failed solve (with [exitflag_] set to
    the solver's status). *)
Definition penalty_trial (rho_trial : Q) (s : AlgState) : bool * Q * AlgState :=
  let rho_trial := Qmin (rho_max o) (rho_trial * increase_parm o) in
  let s := set_penalty_change_trial s (S (penalty_change_trial s)) in
  let s := set_myQP s (update_penalty (QPcfg env) rho_trial (myQP s)) in
  match solve_QP env (myQP s) with
  | QpUnsolved st => (false, rho_trial, set_exitflag s st)
  | QpSolved sol =>
      let s := set_qp_sol s sol in
      (true, rho_trial,
       set_infea_measure_model s (get_infea_measure_model (QPcfg env) (x_qp sol)))
  end.

(** [while (cond) { if (rho_trial >= rho_max) break; ... }]. *)
Fixpoint penalty_loop (cond : AlgState -> bool) (fuel : nat) (rho_trial : Q) (s : AlgState)
  : Res (Q * AlgState) :=
  if cond s then
    match fuel with
    | O => OutOfFuel
    | S fuel =>
        if Qleb (rho_max o) rho_trial then Ok (rho_trial, s)
        else
          let '(cont, rho_trial, s) := penalty_trial rho_trial s in
          if cont then penalty_loop cond fuel rho_trial s else Ok (rho_trial, s)
    end
  else Ok (rho_trial, s).

(** The conditions of the two loops: the model infeasibility is above
    the tolerance; the decrease of the infeasibility is below the
    fraction [eps1] of the decrease the LP achieves, and fewer than
    [penalty_iter_max] trials have been made in the run. *)
Definition cond_infeasible (s : AlgState) : bool :=
  Qltb (penalty_update_tol o) (infea_measure_model s).

Definition cond_insufficient (infea_measure_infty : Q) (s : AlgState) : bool :=
  Qltb (infea_measure s - infea_measure_model s)
       (eps1 s * (infea_measure s - infea_measure_infty))
  && Nat.ltb (penalty_change_trial s) (penalty_iter_max o).

(** The fuel the driver gives a loop: enough raises to reach [rho_max]
    from [rho_] in steps of at least [rho_ * (increase_parm - 1)], or
    to exhaust the trial budget. *)
Definition penalty_fuel (s : AlgState) : nat :=
  (Z.to_nat (Qceiling ((rho_max o - rho s) / (rho s * (increase_parm o - 1)))) + 1
   + (penalty_iter_max o - penalty_change_trial s) + 1)%nat.

(** [update_penalty_parameter()]. *)
Definition update_penalty_parameter (s : AlgState) : Res AlgState :=
  if penalty_update o then
    let s := set_infea_measure_model s (get_infea_measure_model (QPcfg env) (x_qp (qp_sol s))) in
    if Qltb (penalty_update_tol o) (infea_measure_model s) then
      let infea_measure_model_tmp := infea_measure_model s in
      let fuel := penalty_fuel s in
      let s := setupLP env s in
      match solve_LP env (myLP s) with
      | QpUnsolved st => Throw LP_NOT_OPTIMAL (set_exitflag s st)
      | QpSolved lsol =>
          let s := set_lp_sol s lsol in
          let infea_measure_infty := get_infea_measure_model (LPcfg env) (x_qp lsol) in
          r ← (if Qleb infea_measure_infty (penalty_update_tol o)
               then penalty_loop cond_infeasible fuel (rho s) s
               else penalty_loop (cond_insufficient infea_measure_infty) fuel (rho s) s);
          let '(rho_trial, s) := r in
          if Qltb (rho s) rho_trial then
            if Qleb (eps2 o * rho_trial * (infea_measure s - infea_measure_model s))
                    (rho_trial * infea_measure s - get_obj_QP s) then
              let s := set_eps1 s (eps1 s + (1 - eps1 s) * eps1_change_parm o) in
              let s := get_search_direction s in
              let s := set_rho s rho_trial in
              let s := get_trial_point_info env s in
              let s := set_qp_obj s (get_obj_QP s) in
              let P1_x := obj_value s + rho s * infea_measure s in
              let P1_x_trial := obj_value_trial s + rho s * infea_measure_trial s in
              let s := set_actual_reduction s (P1_x - P1_x_trial) in
              Ok (set_pred_reduction s (rho s * infea_measure s - get_obj_QP s))
            else
              let s := set_infea_measure_model s infea_measure_model_tmp in
              Ok (set_QPinfoFlag s (set_Update_penalty (QPinfoFlag s) true))
          else Ok s
      end
    else Ok s
  else Ok s.
End Penalty.

(** ** Lemmas *)

(** A natural number as a rational. *)
Definition nQ (n : nat) : Q := inject_Z (Z.of_nat n).

Lemma nQ_S n : nQ (S n) == nQ n + 1.
Proof. unfold nQ. rewrite Nat2Z.inj_succ, <- Z.add_1_r, inject_Z_plus. reflexivity. Qed.

Lemma nQ_nonneg n : 0 <= nQ n.
Proof. unfold nQ. change 0 with (inject_Z 0). rewrite <- Zle_Qle. lia. Qed.

Lemma nQ_Z_to_nat z : inject_Z z <= nQ (Z.to_nat z).
Proof.
  unfold nQ. rewrite <- Zle_Qle. destruct (Z.le_gt_cases 0 z); [rewrite Z2Nat.id; lia | lia].
Qed.

Section Trial.
Variable env : Env.

(** What one trial writes: the new penalty, the counter, and the members
    of the QP; the penalty of the driver and the iterate stay. *)
Lemma penalty_trial_spec rho_trial s :
  let '(_, r, s') := penalty_trial env rho_trial s in
  r = Qmin (rho_max (options env)) (rho_trial * increase_parm (options env)) /\
  rho s' = rho s /\ penalty_change_trial s' = S (penalty_change_trial s) /\
  infea_measure s' = infea_measure s /\ eps1 s' = eps1 s /\
  iter s' = iter s /\ delta s' = delta s.
Proof. unfold penalty_trial. by destruct (solve_QP env _). Qed.

(** The loop leaves the driver's penalty and the iterate alone and
    returns the starting penalty or one at most [rho_max]. *)
Lemma penalty_loop_spec cond fuel rho_trial s r s' :
  penalty_loop env cond fuel rho_trial s = Ok (r, s') ->
  rho s' = rho s /\ infea_measure s' = infea_measure s /\
  iter s' = iter s /\ delta s' = delta s /\
  (r = rho_trial \/ r <= rho_max (options env)).
Proof.
  revert rho_trial s. induction fuel as [|fuel IH]; intros rho_trial s; simpl.
  - destruct (cond s); [done|]. intros [= <- <-]. repeat split; auto.
  - destruct (cond s); [|intros [= <- <-]; repeat split; auto].
    destruct (Qleb _ _); [intros [= <- <-]; repeat split; auto|].
    pose proof (penalty_trial_spec rho_trial s) as Hs.
    destruct (penalty_trial env rho_trial s) as [[[] r1] s1];
      destruct Hs as (-> & Hr & _ & Hi & _ & Hit & Hd).
    + intros H. destruct (IH _ _ H) as (Hr' & Hi' & Hit' & Hd' & Hb). rewrite Hr', Hi', Hit', Hd'.
      repeat split; try done. right. destruct Hb as [->|]; [qlin|done].
    + intros [= <- <-]. repeat split; try done. right. qlin.
Qed.

(** The first loop stops within [fuel] rounds when the remaining gap to
    [rho_max] is covered by [fuel - 1] raises of at least
    [r0 * (increase_parm - 1)]. *)
Lemma penalty_loop_stops_by_growth cond r0 fuel rho_trial s :
  0 < r0 -> 1 < increase_parm (options env) -> r0 <= rho_trial -> (1 ≤ fuel)%nat ->
  rho_max (options env) <= rho_trial + nQ (fuel - 1) * (r0 * (increase_parm (options env) - 1)) ->
  penalty_loop env cond fuel rho_trial s ≠ OutOfFuel.
Proof.
  intros Hr0 Hip. revert rho_trial s. induction fuel as [|fuel IH]; intros rho_trial s Hr Hf Hb;
    [lia|]. simpl. destruct (cond s); [|done].
  destruct (Qleb_spec (rho_max (options env)) rho_trial); [done|].
  pose proof (penalty_trial_spec rho_trial s) as Hs.
  destruct (penalty_trial env rho_trial s) as [[[] r1] s1]; destruct Hs as (-> & _); [|done].
  destruct fuel as [|fuel].
  { exfalso. change (nQ (1 - 1)) with 0 in Hb. nra. }
  apply IH; [qnra | lia|].
  replace (S (S fuel) - 1)%nat with (S fuel) in Hb by lia.
  replace (S fuel - 1)%nat with fuel by lia. rewrite nQ_S in Hb. pose proof (nQ_nonneg fuel).
  assert (0 <= nQ fuel * (r0 * (increase_parm (options env) - 1))) by
    (apply Qmult_le_0_compat; [done | nra]).
  qabstract; nra.
Qed.

(** The second loop stops once the trial budget is spent. *)
Lemma penalty_loop_stops_by_budget infty fuel rho_trial s :
  (penalty_iter_max (options env) - penalty_change_trial s < fuel)%nat ->
  penalty_loop env (cond_insufficient env infty) fuel rho_trial s ≠ OutOfFuel.
Proof.
  revert rho_trial s. induction fuel as [|fuel IH]; intros rho_trial s Hf; [lia|]. simpl.
  destruct (cond_insufficient env infty s) eqn:Hc; [|done].
  destruct (Qleb _ _); [done|].
  pose proof (penalty_trial_spec rho_trial s) as Hs.
  destruct (penalty_trial env rho_trial s) as [[[] r1] s1]; destruct Hs as (_ & _ & Hn & _); [|done].
  apply IH. unfold cond_insufficient in Hc. apply andb_true_iff in Hc as [_ Hc].
  apply Nat.ltb_lt in Hc. lia.
Qed.
End Trial.

Lemma nQ_le n m : (n ≤ m)%nat -> nQ n <= nQ m.
Proof. intros H. unfold nQ. rewrite <- Zle_Qle. lia. Qed.

Lemma bind_not_out {A B} (m : Res A) (k : A -> Res B) :
  m ≠ OutOfFuel -> (forall a, k a ≠ OutOfFuel) -> (m ≫= k) ≠ OutOfFuel.
Proof. destruct m; simpl; done || auto. Qed.

(** [penalty_fuel] covers the growth of the trial penalty from [rho_]
    to [rho_max]. *)
Lemma penalty_fuel_growth env s :
  0 < rho s -> 1 < increase_parm (options env) ->
  rho_max (options env) <=
  rho s + nQ (penalty_fuel env s - 1) * (rho s * (increase_parm (options env) - 1)).
Proof.
  intros Hr Hip. set (d := rho s * (increase_parm (options env) - 1)).
  assert (Hd : 0 < d) by (unfold d; nra).
  set (x := (rho_max (options env) - rho s) / d).
  assert (Hx : x * d == rho_max (options env) - rho s).
  { unfold x. rewrite Qmult_comm. apply Qmult_div_r. lra. }
  assert (Hc : x <= nQ (penalty_fuel env s - 1)).
  { eapply Qle_trans; [apply Qle_ceiling|]. eapply Qle_trans; [apply nQ_Z_to_nat|].
    apply nQ_le. unfold penalty_fuel. fold d. fold x. lia. }
  assert (x * d <= nQ (penalty_fuel env s - 1) * d) by (apply Qmult_le_compat_r; lra).
  lra.
Qed.

(** ** Theorems *)

(** The penalty update always finishes when the penalty is positive
    and the growth factor exceeds one: with the fuel [penalty_fuel]
    neither [while] loop runs out, whatever the QP and LP solves return. *)
Theorem update_penalty_parameter_terminates env s :
  0 < rho s -> 1 < increase_parm (options env) ->
  update_penalty_parameter env s ≠ OutOfFuel.
Proof.
  intros Hr Hip. unfold update_penalty_parameter.
  destruct (penalty_update (options env)); [|done].
  destruct (Qltb _ _); [|done].
  destruct (solve_LP env _) as [lsol|st]; [|done].
  apply bind_not_out.
  - destruct (Qleb _ _).
    + apply (penalty_loop_stops_by_growth _ _ (rho s)); simpl; try lra.
      * unfold penalty_fuel. lia.
      * exact (penalty_fuel_growth env (set_infea_measure_model s _) Hr Hip).
    + apply penalty_loop_stops_by_budget. simpl. unfold penalty_fuel. simpl. lia.
  - intros [r s2]. repeat case_match; done.
Qed.

(** The penalty update never lowers the penalty and never raises it
    above [rho_max] when it started at most [rho_max]. *)
Theorem update_penalty_parameter_rho env s s' :
  update_penalty_parameter env s = Ok s' ->
  rho s <= rho s' /\ (rho s <= rho_max (options env) -> rho s' <= rho_max (options env)).
Proof.
  unfold update_penalty_parameter.
  destruct (penalty_update (options env)); [|intros [= <-]; cbn [rho set_infea_measure_model]; split; [lra|intros; lra]].
  destruct (Qltb _ _); [|intros [= <-]; cbn [rho set_infea_measure_model]; split; [lra|intros; lra]].
  destruct (solve_LP env _) as [lsol|st]; [|done].
  match goal with |- (?m ≫= _) = _ -> _ => destruct m as [[r s2]| |] eqn:Hl end; [|done|done].
  assert (Hs : rho s2 = rho s /\ (r = rho s \/ r <= rho_max (options env))).
  { destruct (Qleb _ _); apply penalty_loop_spec in Hl; destruct Hl as (Hr & _ & _ & _ & Hb); split; done. }
  destruct Hs as [Hr Hb]. simpl. rewrite Hr.
  destruct (Qltb_spec (rho s) r); [|intros [= <-]; rewrite Hr; split; [lra|intros; lra]].
  match goal with |- (if Qleb ?a ?b then _ else _) = _ -> _ => destruct (Qleb a b) end;
    intros [= <-]; simpl; [|rewrite Hr; split; [lra|intros; lra]].
  destruct Hb as [->|Hb]; (split; [lra|intros; lra]).
Qed.

(** The penalty update leaves the iteration count and the radius alone. *)
Lemma update_penalty_parameter_frame env s s' :
  update_penalty_parameter env s = Ok s' -> iter s' = iter s /\ delta s' = delta s.
Proof.
  unfold update_penalty_parameter.
  destruct (penalty_update (options env)); [|by intros [= <-]].
  destruct (Qltb _ _); [|by intros [= <-]].
  destruct (solve_LP env _) as [lsol|st]; [|done].
  match goal with |- (?m ≫= _) = _ -> _ => destruct m as [[r s2]| |] eqn:Hl end; [|done|done].
  assert (Hs : iter s2 = iter s /\ delta s2 = delta s).
  { destruct (Qleb _ _); apply penalty_loop_spec in Hl; destruct Hl as (_ & _ & Hi & Hd & _);
      split; done. }
  destruct Hs as [Hi Hd]. simpl. rewrite <- Hi, <- Hd.
  repeat case_match; intros [= <-]; done.
Qed.

(** With a zero penalty the first loop never stops as long as every QP
    leaves the model infeasible: [rho_trial * increase_parm] stays zero. *)
Lemma penalty_loop_zero_diverges env fuel rho_trial s :
  0 < rho_max (options env) -> rho_trial == 0 ->
  (forall d, exists sol, solve_QP env d = QpSolved sol /\
     penalty_update_tol (options env) < get_infea_measure_model (QPcfg env) (x_qp sol)) ->
  cond_infeasible env s = true ->
  penalty_loop env (cond_infeasible env) fuel rho_trial s = OutOfFuel.
Proof.
  intros Hmax. revert rho_trial s. induction fuel as [|fuel IH]; intros rho_trial s Hz Hsolve Hc;
    simpl; rewrite Hc; [done|].
  destruct (Qleb_spec (rho_max (options env)) rho_trial); [lra|].
  unfold penalty_trial.
  destruct (Hsolve (update_penalty (QPcfg env) (Qmin (rho_max (options env))
              (rho_trial * increase_parm (options env))) (myQP s))) as (sol & Hsol & Hm).
  simpl. rewrite Hsol. apply IH; [|done|].
  - rewrite Hz. qlin.
  - unfold cond_infeasible. simpl. by apply Qltb_true_iff.
Qed.

(** C10: with a zero penalty, a QP step that leaves the linearisation
    infeasible, an LP showing that the linearisation can be satisfied and
    QP solves that keep leaving it infeasible, the first [while] loop of
    [update_penalty_parameter] does not terminate: no fuel is enough.
    The code has no guard on [rho_ > 0]. *)
Theorem update_penalty_parameter_diverges env s :
  penalty_update (options env) = true -> 0 < rho_max (options env) -> rho s == 0 ->
  penalty_update_tol (options env) < get_infea_measure_model (QPcfg env) (x_qp (qp_sol s)) ->
  (forall d, exists lsol, solve_LP env d = QpSolved lsol /\
     get_infea_measure_model (LPcfg env) (x_qp lsol) <= penalty_update_tol (options env)) ->
  (forall d, exists sol, solve_QP env d = QpSolved sol /\
     penalty_update_tol (options env) < get_infea_measure_model (QPcfg env) (x_qp sol)) ->
  update_penalty_parameter env s = OutOfFuel.
Proof.
  intros Hon Hmax Hz Hm Hlp Hqp. unfold update_penalty_parameter. rewrite Hon. simpl.
  destruct (Qltb_spec (penalty_update_tol (options env))
              (get_infea_measure_model (QPcfg env) (x_qp (qp_sol s)))); [|lra].
  match goal with |- match solve_LP env ?d with _ => _ end = _ =>
    destruct (Hlp d) as (lsol & -> & Hl) end.
  destruct (Qleb_spec (get_infea_measure_model (LPcfg env) (x_qp lsol))
              (penalty_update_tol (options env))); [|lra].
  rewrite penalty_loop_zero_diverges; try done.
  unfold cond_infeasible. simpl. by apply Qltb_true_iff.
Qed.

(** ** The concrete run continued *)

(** The problem of [Algorithm] with other QP and LP solvers. *)
Definition ex_env_solvers (qp lp : QpData -> QpResult) : Env :=
  mkEnv (options ex_env) (nVar ex_env) (nCon ex_env) (x_l ex_env) (x_u ex_env)
    (c_l ex_env) (c_u ex_env) (cons_type ex_env) (bound_cons_type ex_env)
    (QPcfg ex_env) (LPcfg ex_env) (eval_f ex_env) (eval_constraints ex_env)
    (eval_gradient ex_env) (eval_jacobian ex_env) (eval_hessian ex_env) qp lp (iter_time ex_env).

(** A QP step with slack [u = 1]; with a slack weight of at least 10 the
    QP can satisfy the linearisation. *)
Definition ex_infeasible_solution : QpSolution := mkQpSolution [-1; 1; 0] [0; 0; 0] [2] (-2).

Definition ex_penalty_env : Env :=
  ex_env_solvers
    (fun d => if Qle_bool 10 (qd_g d).[1] then QpSolved ex_qp_solution
              else QpSolved ex_infeasible_solution)
    (fun _ => QpSolved ex_qp_solution).

Definition ex_penalty_state : AlgState := set_qp_sol ex_state ex_infeasible_solution.

(** The state the penalty update returns (the penalty becomes 10). *)
Definition ex_penalty_result : AlgState :=
  match update_penalty_parameter ex_penalty_env ex_penalty_state with
  | Ok s => s | _ => ex_penalty_state
  end.

Example ex_penalty_raised : rho ex_penalty_result = 10.
Proof. vm_compute. reflexivity. Qed.

(** Every QP leaves the linearisation infeasible, the LP does not. *)
Definition ex_stuck_env : Env :=
  ex_env_solvers (fun _ => QpSolved ex_infeasible_solution) (fun _ => QpSolved ex_qp_solution).

Lemma update_penalty_parameter_diverges_witness :
  update_penalty_parameter ex_stuck_env (set_rho ex_penalty_state 0) = OutOfFuel.
Proof.
  apply update_penalty_parameter_diverges; try qdecide;
    intros d; eexists; (split; [reflexivity | qdecide]).
Defined.
