(* ===== verification/Driver.v ===== *)
(** * The main loop of the driver ([Algorithm::Optimize]) and the
      second-order correction

    One iteration of [Optimize] sets up the QP, solves it (a failure
    ends the run with the solver's status), takes the step, updates the
    penalty, evaluates the trial point, runs the ratio test and the
    second-order correction, counts the iteration, checks the KKT
    conditions and updates the radius.  [iteration] returns whether the
    loop goes on; [optimize_loop] is the [while] on fuel, and [Optimize]
    gives it [iter_max - iter] rounds, which the theorems show is enough
    because every round that goes on counts one iteration.  An exception
    the code does not catch ([QP_UNCHANGED], [LP_NOT_OPTIMAL], the
    [QP_NOT_OPTIMAL] of the correction) ends [Optimize] as [Throw]. *)

From S2P Require Import Prelude SqpTypes DenseVector SparseMatrix SolverInterface QPhandler Algorithm.
From S2P Require Import Optimality Penalty.
Local Open Scope Q_scope.

Section Driver.
Variable env : Env.
Let o := options env.

(** [second_order_correction()]. *)
Definition second_order_correction (s : AlgState) : Res AlgState :=
  if negb (isaccept s) && do_second_order_correction o then
    let s := set_isaccept s false in
    let p_k_tmp := copy_vector (replicate (nVar env) 0) (p_k s) in
    let norm_p_k_tmp := norm_p_k s in
    let qp_obj_tmp := qp_obj s in
    let Hp := add_vector (SpTripletMat.times (hessian s) (p_k s)) (grad_f s) in
    let s := set_myQP s (update_grad (QPcfg env) Hp (myQP s)) in
    let s := set_myQP s (update_bounds (QPcfg env) (delta s) (x_l env) (x_u env) (x_trial s)
                           (c_l env) (c_u env) (c_trial s) (myQP s)) in
    let s := set_norm_p_k s (getInfNorm (p_k s)) in
    match solve_QP env (myQP s) with
    | QpUnsolved st => Throw QP_NOT_OPTIMAL (set_exitflag s st)
    | QpSolved sol =>
        let s := set_qp_sol s sol in
        let tmp_sol := copy_vector (replicate (nVar env + 2 * nCon env) 0) (x_qp sol) in
        let s_k := copy_vector (replicate (nVar env) 0) tmp_sol in
        let s := set_qp_obj s (get_obj_QP s + (qp_obj_tmp - rho s * infea_measure_model s)) in
        let s := set_p_k s (add_vector (p_k s) s_k) in
        let s := get_trial_point_info env s in
        let s := ratio_test env s in
        if negb (isaccept s) then
          let s := set_p_k s (copy_vector (p_k s) p_k_tmp) in
          let s := set_qp_obj s qp_obj_tmp in
          let s := set_norm_p_k s norm_p_k_tmp in
          let s := set_myQP s (update_grad (QPcfg env) (grad_f s) (myQP s)) in
          Ok (set_myQP s (update_bounds (QPcfg env) (delta s) (x_l env) (x_u env) (x_k s)
                            (c_l env) (c_u env) (c_k s) (myQP s)))
        else Ok s
    end
  else Ok s.

(** The end of an iteration after the KKT test: the radius update (a
    too small radius ends the run after a last KKT test) and the clock. *)
Definition finish_iteration (s : AlgState) : Res (bool * AlgState) :=
  if bool_decide (exitflag s ≠ UNKNOWN) then Ok (false, s)
  else
    match update_radius env s with
    | Throw SMALL_TRUST_REGION s => Ok (false, check_optimality env s)
    | Throw e s => Throw e s
    | OutOfFuel => OutOfFuel
    | Ok s =>
        let s := set_total_time s (total_time s + iter_time env (iter s)) in
        if Qltb (time_max o) (total_time s) then Ok (false, set_exitflag s EXCEED_TIME_LIMITS)
        else Ok (true, s)
    end.

(** The body of the [while] loop of [Optimize]; [false] is a [break]. *)
Definition iteration (s : AlgState) : Res (bool * AlgState) :=
  s ← setupQP env s;
  match solve_QP env (myQP s) with
  | QpUnsolved st => Ok (false, set_exitflag s st)
  | QpSolved sol =>
      let s := set_qp_sol s sol in
      let s := get_search_direction s in
      let s := set_qp_obj s (get_obj_QP s) in
      s ← update_penalty_parameter env s;
      let s := set_norm_p_k s (getInfNorm (p_k s)) in
      let s := get_trial_point_info env s in
      let s := ratio_test env s in
      s ← second_order_correction s;
      let s := set_iter s (S (iter s)) in
      finish_iteration (check_optimality env s)
  end.

(** [while (iter < iter_max && exitflag_ == UNKNOWN)]. *)
Fixpoint optimize_loop (fuel : nat) (s : AlgState) : Res AlgState :=
  if Nat.ltb (iter s) (iter_max o) && bool_decide (exitflag s = UNKNOWN) then
    match fuel with
    | O => OutOfFuel
    | S fuel =>
        match iteration s with
        | Ok (cont, s) => if cont then optimize_loop fuel s else Ok s
        | Throw e s => Throw e s
        | OutOfFuel => OutOfFuel
        end
    end
  else Ok s.

(** [Optimize()]: the loop, then [EXCEED_MAX_ITER] when the iteration
    count reached [iter_max]. *)
Definition Optimize (s : AlgState) : Res AlgState :=
  s ← optimize_loop (iter_max o - iter s) s;
  Ok (if Nat.eqb (iter s) (iter_max o) then set_exitflag s EXCEED_MAX_ITER else s).
(** [initialization(nlp, name)] after [allocate_memory]: the radius and
    the penalty from the options, the (shifted) starting point [x0] and
    multipliers [y0] the NLP gives, the function values at [x0] and its
    infeasibility; every other member is as [allocate_memory] and the
    constructors leave it (zero vectors, [INACTIVE] tags, [UNKNOWN]). *)
Definition initialization (x0 y0 : list Q) : AlgState :=
  let n := nVar env in
  let m := nCon env in
  let nQP := (nVar env + 2 * nCon env)%nat in
  let c := eval_constraints env x0 in
  let qp0 := mkQpData (replicate nQP 0) (replicate nQP 0) (replicate m 0) (replicate m 0)
                      (replicate nQP 0) None None in
  let sol0 := mkQpSolution (replicate nQP 0) (replicate nQP 0) (replicate m 0) 0 in
  mkAlg x0 c (eval_f env x0) (eval_gradient env x0) (eval_jacobian env x0)
    (eval_hessian env x0 y0) (cal_infea env c (c_l env) (c_u env) None)
    y0 (replicate n 0)
    (replicate n 0) (replicate m 0) 0 0
    (replicate n 0) 0 0 0 0 0
    (delta_0 o) (rho_0 o) (eps1_0 o)
    false no_flags UNKNOWN 0 0 0
    qp0 sol0 qp0 sol0
    (replicate m INACTIVE) (replicate n INACTIVE)
    (mkOptimalityStatus 0 0 0 0 0 false false false false false).

End Driver.

(** ** What each step leaves alone *)

Lemma setupQP_frame env s s' :
  setupQP env s = Ok s' ->
  rho s' = rho s /\ iter s' = iter s /\ delta s' = delta s /\ exitflag s' = exitflag s.
Proof.
  unfold setupQP. destruct (Nat.eqb _ _); [by intros [= <-]|].
  destruct (negb _); [done|]. intros [= <-].
  destruct (setupQP_updates_frame env s) as [d ->]. done.
Qed.

Lemma ratio_test_frame env s :
  let s' := ratio_test env s in
  rho s' = rho s /\ iter s' = iter s /\ delta s' = delta s /\ exitflag s' = exitflag s.
Proof. unfold ratio_test. simpl. destruct (_ && _); simpl; gm_frame; done. Qed.

Lemma check_optimality_frame env s :
  let s' := check_optimality env s in
  rho s' = rho s /\ iter s' = iter s /\ delta s' = delta s /\
  (exitflag s' = OPTIMAL \/ exitflag s' = exitflag s).
Proof. unfold check_optimality. gm_frame. simpl. destruct (_ && _ && _ && _); simpl; auto. Qed.

Lemma update_radius_frame env s :
  match update_radius env s with
  | Ok s' => rho s' = rho s /\ iter s' = iter s /\ exitflag s' = exitflag s
  | Throw e s' => e = SMALL_TRUST_REGION /\ rho s' = rho s /\ iter s' = iter s /\
                  exitflag s' = TRUST_REGION_TOO_SMALL
  | OutOfFuel => False
  end.
Proof. unfold update_radius. qcase; simpl; repeat split. Qed.

Lemma second_order_correction_frame env s :
  match second_order_correction env s with
  | Ok s' => rho s' = rho s /\ iter s' = iter s /\ delta s' = delta s /\ exitflag s' = exitflag s
  | Throw e s' => e = QP_NOT_OPTIMAL
  | OutOfFuel => False
  end.
Proof.
  unfold second_order_correction. destruct (negb _ && _); [|done].
  destruct (solve_QP env _) as [sol|st]; [|done]. simpl.
  match goal with |- context [ratio_test env ?t] =>
    destruct (ratio_test_frame env t) as (Hr & Hi & Hd & He);
    destruct (isaccept (ratio_test env t)) end; simpl; rewrite ?Hr, ?Hi, ?Hd, ?He; done.
Qed.

(** The end of an iteration goes on only with an unknown exit flag and
    stops only with a known one. *)
Lemma finish_iteration_spec env s :
  match finish_iteration env s with
  | Ok (cont, s') => rho s' = rho s /\ iter s' = iter s /\
      (if cont then exitflag s' = UNKNOWN else exitflag s' ≠ UNKNOWN)
  | _ => False
  end.
Proof.
  unfold finish_iteration. case_bool_decide as Hu; [done|].
  pose proof (update_radius_frame env s) as Hf.
  destruct (update_radius env s) as [s1|e s1|]; [|destruct Hf as (-> & Hr & Hi & He)|done].
  - destruct Hf as (Hr & Hi & He).
    destruct (Qltb _ _); simpl; rewrite ?Hr, ?Hi; repeat split; try done.
    rewrite He. destruct (decide (exitflag s = UNKNOWN)); [done|contradiction].
  - destruct (check_optimality_frame env s1) as (Hr' & Hi' & _ & Hx).
    rewrite Hr', Hi'. repeat split; try done. destruct Hx as [-> | ->]; [done|]. rewrite He. done.
Qed.

Lemma setupQP_not_out env s : setupQP env s ≠ OutOfFuel.
Proof. unfold setupQP. by repeat case_match. Qed.

(** One iteration: the penalty never decreases nor passes [rho_max]; an
    iteration that goes on counts one more iteration with an unknown exit
    flag; one that stops has counted at most one iteration and has a
    known exit flag or the status of a failed QP solve; with a positive
    penalty and a growth factor above one it does not run out of fuel. *)
Lemma iteration_spec env s :
  match iteration env s with
  | Ok (cont, s') =>
      rho s <= rho s' /\ (rho s <= rho_max (options env) -> rho s' <= rho_max (options env)) /\
      (if cont then iter s' = S (iter s) /\ exitflag s' = UNKNOWN
       else (iter s' ≤ S (iter s))%nat /\
            (exitflag s' ≠ UNKNOWN \/ exists d, solve_QP env d = QpUnsolved (exitflag s')))
  | Throw _ _ => True
  | OutOfFuel => 0 < rho s -> 1 < increase_parm (options env) -> False
  end.
Proof.
  unfold iteration.
  pose proof (setupQP_frame env s) as F1. pose proof (setupQP_not_out env s) as N1.
  destruct (setupQP env s) as [s1|e s1|]; [rewrite Res_bind_Ok|simpl; done|by exfalso].
  destruct (F1 _ eq_refl) as (R1 & I1 & _ & _).
  destruct (solve_QP env (myQP s1)) as [sol|st] eqn:Hq.
  2: { simpl. rewrite R1, I1. repeat split; [lra|intros; lra|lia|]. right. eauto. }
  cbn beta iota zeta.
  set (t := set_qp_obj _ _).
  assert (Rt : rho t = rho s1) by reflexivity.
  assert (It : iter t = iter s1) by reflexivity.
  pose proof (update_penalty_parameter_rho env t) as F2.
  pose proof (update_penalty_parameter_frame env t) as G2.
  pose proof (update_penalty_parameter_terminates env t) as N2.
  destruct (update_penalty_parameter env t) as [s3|e s3|];
    [rewrite Res_bind_Ok; cbn beta zeta|simpl; done|].
  2: { simpl. intros Hr Hip. apply N2; [rewrite Rt, R1; lra|done|done]. }
  destruct (F2 _ eq_refl) as [R2 M2]. destruct (G2 _ eq_refl) as [I2 _].
  set (v := get_trial_point_info env _).
  assert (Rv : rho v = rho s3) by reflexivity.
  assert (Iv : iter v = iter s3) by reflexivity.
  destruct (ratio_test_frame env v) as (R4 & I4 & _ & _).
  set (u := ratio_test env v) in *.
  pose proof (second_order_correction_frame env u) as F3.
  destruct (second_order_correction env u) as [s5|e s5|];
    [rewrite Res_bind_Ok; cbn beta zeta|simpl; done|destruct F3].
  destruct F3 as (R5 & I5 & _ & _).
  destruct (check_optimality_frame env (set_iter s5 (S (iter s5)))) as (R6 & I6 & _ & _).
  set (w := check_optimality env _) in *.
  pose proof (finish_iteration_spec env w) as F6.
  destruct (finish_iteration env w) as [[cont s6]| |]; [|done|done].
  destruct F6 as (R7 & I7 & Hc).
  assert (Hr : rho s6 = rho s3) by (rewrite R7, R6; simpl; rewrite R5, R4, Rv; done).
  rewrite Hr. rewrite Rt, R1 in R2, M2.
  assert (Hit : iter s6 = S (iter s)).
  { rewrite I7, I6. simpl. rewrite I5, I4, Iv, I2, It, I1. done. }
  repeat split; [lra|intros; apply M2; lra|].
  destruct cont; [by split|]. split; [lia|by left].
Qed.

(** What holds of the state [s'] the [while] loop stops in, started
    from [s]. *)
Definition loop_post (env : Env) (s s' : AlgState) : Prop :=
  rho s <= rho s' /\ (rho s <= rho_max (options env) -> rho s' <= rho_max (options env)) /\
  ((iter s ≤ iter_max (options env))%nat ->
   (iter s' ≤ iter_max (options env))%nat /\
   (exitflag s' ≠ UNKNOWN \/ iter s' = iter_max (options env) \/
    exists d, solve_QP env d = QpUnsolved (exitflag s'))).

Lemma loop_post_stop env s :
  ~ (iter s < iter_max (options env))%nat \/ exitflag s ≠ UNKNOWN -> loop_post env s s.
Proof.
  intros H. unfold loop_post. split; [lra|]. split; [intros; lra|]. intros Hle. split; [lia|].
  destruct H; [right; left; lia|by left].
Qed.

Lemma loop_post_trans env s s1 s2 :
  rho s <= rho s1 -> (rho s <= rho_max (options env) -> rho s1 <= rho_max (options env)) ->
  iter s1 = S (iter s) -> (iter s < iter_max (options env))%nat ->
  loop_post env s1 s2 -> loop_post env s s2.
Proof.
  intros R M I Hlt (R' & M' & H'). split; [lra|]. split; [intros; auto|]. intros _. apply H'. lia.
Qed.

(** The [while] loop keeps the penalty monotone and bounded, never
    passes [iter_max], and stops with a known exit flag, the status of a
    failed QP solve, or [iter = iter_max]; [iter_max - iter] rounds are
    enough when the penalty is positive and grows. *)
Lemma optimize_loop_spec env fuel s :
  match optimize_loop env fuel s with
  | Ok s' => loop_post env s s'
  | Throw _ _ => True
  | OutOfFuel => 0 < rho s -> 1 < increase_parm (options env) ->
                 (iter_max (options env) - iter s ≤ fuel)%nat -> False
  end.
Proof.
  revert s. induction fuel as [|fuel IH]; intros s; simpl;
    (destruct (Nat.ltb_spec (iter s) (iter_max (options env))) as [Hlt|Hge];
     case_bool_decide as Hu; simpl; try (apply loop_post_stop; (right; done) || (left; lia)));
    [intros; lia|].
  pose proof (iteration_spec env s) as Hi.
  destruct (iteration env s) as [[[] s1]|e s1|]; [|destruct Hi as (R & M & I & E)|done|].
  - destruct Hi as (R & M & I & E). specialize (IH s1).
    destruct (optimize_loop env fuel s1) as [s2| |]; [|done|].
    + by apply (loop_post_trans env s s1).
    + intros Hr Hip Hf. apply IH; [lra|done|lia].
  - split; [lra|]. split; [intros; auto|]. intros _. split; [lia|].
    destruct E as [E|E]; [by left|right; right; done].
  - intros Hr Hip _. by apply Hi.
Qed.



(** ** Theorems *)

(** C1: [Optimize] always finishes when the penalty starts positive and
    the penalty growth factor exceeds one: [iter_max - iter] rounds of
    the loop and the fuel of the penalty loops are enough, whatever the
    oracle, the QP and LP solvers and the clock return. *)
Theorem Optimize_terminates env s :
  0 < rho s -> 1 < increase_parm (options env) -> Optimize env s ≠ OutOfFuel.
Proof.
  intros Hr Hip. unfold Optimize. pose proof (optimize_loop_spec env (iter_max (options env) - iter s) s) as H.
  destruct (optimize_loop env _ s); simpl; [done|done|]. intros _. by apply H.
Qed.

(** C2: when [Optimize] returns, its exit flag is known ([UNKNOWN] is
    never reported), provided the QP solver reports known statuses and
    the run starts within the iteration budget. *)
Theorem Optimize_exit_known env s s' :
  (forall d st, solve_QP env d = QpUnsolved st -> st ≠ UNKNOWN) ->
  (iter s ≤ iter_max (options env))%nat ->
  Optimize env s = Ok s' -> exitflag s' ≠ UNKNOWN.
Proof.
  intros Hst Hle. unfold Optimize. pose proof (optimize_loop_spec env (iter_max (options env) - iter s) s) as H.
  destruct (optimize_loop env _ s) as [s1| |]; simpl; [|done|done]. intros [= <-].
  destruct (Nat.eqb_spec (iter s1) (iter_max (options env))); [done|].
  destruct H as (_ & _ & H). destruct (H Hle) as [_ [E|[E|(d & E)]]]; [done|done|].
  by apply (Hst d).
Qed.

(** C9: over a whole run the penalty never decreases, and it stays at
    most [rho_max] when it starts there. *)
Theorem Optimize_rho_monotone env s s' :
  Optimize env s = Ok s' ->
  rho s <= rho s' /\ (rho s <= rho_max (options env) -> rho s' <= rho_max (options env)).
Proof.
  unfold Optimize. pose proof (optimize_loop_spec env (iter_max (options env) - iter s) s) as H.
  destruct (optimize_loop env _ s) as [s1| |]; simpl; [|done|done]. intros [= <-].
  destruct H as (R & M & _). by destruct (Nat.eqb _ _).
Qed.

(** C3: a run that ends after [iter_max] iterations reports
    [EXCEED_MAX_ITER], whatever the last iteration found: an [OPTIMAL]
    found by the KKT test of the last iteration is overwritten. *)
Theorem Optimize_exceed_max_iter env s s' :
  Optimize env s = Ok s' -> iter s' = iter_max (options env) -> exitflag s' = EXCEED_MAX_ITER.
Proof.
  unfold Optimize. destruct (optimize_loop env _ s) as [s1| |]; simpl; [|done|done].
  intros [= <-]. destruct (Nat.eqb_spec (iter s1) (iter_max (options env))); simpl; [done|].
  intros E. contradiction.
Qed.

(** With [iter_max = 0] no QP is set up or solved: [Optimize] only
    sets [EXCEED_MAX_ITER]. *)
Theorem Optimize_iter_max_zero env s :
  iter_max (options env) = 0%nat -> iter s = 0%nat ->
  Optimize env s = Ok (set_exitflag s EXCEED_MAX_ITER).
Proof.
  intros Hm Hi. unfold Optimize. rewrite Hm, Hi. simpl. rewrite ?Hm, ?Hi. simpl. rewrite ?Hm, ?Hi. done.
Qed.

(** ** The concrete run of [Optimize] *)

(** The options of the concrete run with another iteration budget. *)
Definition with_iter_max (o : Options) (n : nat) : Options :=
  mkOptions (eta_c o) (eta_s o) (eta_e o) (gamma_c o) (gamma_e o) (delta_0 o) (delta_min o)
    (delta_max o) (tol o) (rho_0 o) (rho_max o) (increase_parm o) (eps1_0 o) (eps2 o)
    (eps1_change_parm o) (penalty_update_tol o) (opt_prim_fea_tol o) (opt_dual_fea_tol o)
    (opt_compl_tol o) (opt_stat_tol o) (active_set_tol o) (time_max o) n (penalty_iter_max o)
    (penalty_update o) (do_second_order_correction o) (QPsolverChoice o).

Definition ex_env_budget (n : nat) : Env :=
  mkEnv (with_iter_max (options ex_env) n) (nVar ex_env) (nCon ex_env) (x_l ex_env) (x_u ex_env)
    (c_l ex_env) (c_u ex_env) (cons_type ex_env) (bound_cons_type ex_env)
    (QPcfg ex_env) (LPcfg ex_env) (eval_f ex_env) (eval_constraints ex_env)
    (eval_gradient ex_env) (eval_jacobian ex_env) (eval_hessian ex_env)
    (solve_QP ex_env) (solve_LP ex_env) (iter_time ex_env).

(** The start of the run at [x_0 = 2]: nothing solved yet. *)
Definition ex_start : AlgState := set_iter ex_state 0.

(** The whole run from [initialization] at [x0 = 2]. *)
Example Optimize_ex_from_initialization :
  match Optimize ex_env (initialization ex_env [2] [0]) with
  | Ok s => exitflag s = OPTIMAL /\ x_k s = [1] /\ iter s = 1%nat
  | _ => False
  end.
Proof. vm_compute. repeat split. Qed.

Definition ex_result (e : Env) : AlgState :=
  match Optimize e ex_start with Ok s => s | _ => ex_start end.

(** With ten iterations allowed, the first QP step reaches the solution
    [x = 1] and the run stops [OPTIMAL] after one iteration. *)
Example Optimize_ex_optimal :
  Optimize ex_env ex_start = Ok (ex_result ex_env) /\
  exitflag (ex_result ex_env) = OPTIMAL /\ iter (ex_result ex_env) = 1%nat /\
  x_k (ex_result ex_env) = [1].
Proof. vm_compute. repeat split. Qed.

(** With one iteration allowed, the same run reports [EXCEED_MAX_ITER]
    although the KKT test of its only iteration found the point optimal. *)
Example Optimize_ex_optimal_overwritten :
  exitflag (check_optimality (ex_env_budget 1)
     (set_iter (ratio_test (ex_env_budget 1)
        (get_trial_point_info (ex_env_budget 1) (set_norm_p_k (get_search_direction
           (set_qp_sol (setupQP_first (ex_env_budget 1) ex_start) ex_qp_solution)) 1)))
      1)) = OPTIMAL /\
  exitflag (ex_result (ex_env_budget 1)) = EXCEED_MAX_ITER.
Proof. vm_compute. split; reflexivity. Qed.

Lemma Optimize_terminates_witness : Optimize ex_env ex_start ≠ OutOfFuel.
Proof. apply Optimize_terminates; qdecide. Defined.

Lemma Optimize_exit_known_witness : exitflag (ex_result ex_env) ≠ UNKNOWN.
Proof.
  apply (Optimize_exit_known ex_env ex_start);
    [intros d st H; vm_compute in H; discriminate | vm_compute; lia | vm_compute; reflexivity].
Defined.

Lemma Optimize_rho_monotone_witness :
  rho ex_start <= rho (ex_result ex_env) /\
  (rho ex_start <= rho_max (options ex_env) -> rho (ex_result ex_env) <= rho_max (options ex_env)).
Proof. apply Optimize_rho_monotone. vm_compute. reflexivity. Defined.

Lemma Optimize_exceed_max_iter_witness : exitflag (ex_result (ex_env_budget 1)) = EXCEED_MAX_ITER.
Proof.
  apply (Optimize_exceed_max_iter (ex_env_budget 1) ex_start); vm_compute; reflexivity.
Defined.

Lemma Optimize_iter_max_zero_witness :
  Optimize (ex_env_budget 0) ex_start = Ok (set_exitflag ex_start EXCEED_MAX_ITER).
Proof. apply Optimize_iter_max_zero; reflexivity. Defined.
