(* ===== verification/TrustRegion.v ===== *)
(** * Progress of the trust-region radius under rejected steps

    Every iteration of [Algorithm::Optimize] (src/src/Algorithm.cpp) ends
    with [update_radius()], which multiplies [delta_] by [gamma_c] when the
    ratio test rejects the step and throws [SMALL_TRUST_REGION] as soon as
    the radius drops below [delta_min].  [radius_run n next s] runs [n]
    iterations: [next] is the part of an iteration before [update_radius]
    (the QP, the trial point and the ratio test), which does not write
    [delta_]; the run stops at the first throw.

    The theorem of this file is a liveness property: when every step is
    rejected, the run reaches [TRUST_REGION_TOO_SMALL] within a number of
    iterations bounded by [delta / ((1 - gamma_c) * delta_min)], whatever
    the rest of the iteration does.  The loop's other exits (a failed QP,
    an optimal point, the time and iteration limits) can only end the run
    earlier; the [catch] that follows the throw runs [check_optimality]
    and leaves the loop (Driver.v models the whole loop). *)

From Stdlib Require Import Qround.
From S2P Require Import Prelude SqpTypes DenseVector SparseMatrix SolverInterface QPhandler Algorithm.
Local Open Scope Q_scope.

Section Run.
Variable env : Env.
(** The rest of one iteration, before [update_radius]. *)
Variable next : AlgState -> AlgState.

(** [n] iterations, each [next] followed by [update_radius], stopping at
    the first exception. *)
Fixpoint radius_run (n : nat) (s : AlgState) : Res AlgState :=
  match n with
  | O => Ok s
  | S n => update_radius env (next s) ≫= radius_run n
  end.

End Run.

(** The number of iterations after which the radius has collapsed, for a
    radius [d]: [d / ((1 - gamma_c) delta_min)] rounded up, plus one. *)
Definition collapse_bound (o : Options) (d : Q) : nat :=
  S (Z.to_nat (Qceiling (d / ((1 - gamma_c o) * delta_min o)))).

(** ** Lemmas *)

Section Rejected.
Variable env : Env.
Variable next : AlgState -> AlgState.
Let o := options env.
Hypothesis Hgamma : 0 <= gamma_c o < 1.
Hypothesis Hmin : 0 < delta_min o.
(** [next] keeps the radius and the ratio test rejects its step. *)
Hypothesis Hkeep : forall s, delta (next s) = delta s.
Hypothesis Hreject : forall s,
  Qltb (actual_reduction (next s)) (eta_c o * pred_reduction (next s)) = true.

(** One rejected iteration: the radius is multiplied by [gamma_c]. *)
Lemma update_radius_rejected s :
  update_radius env (next s) =
    let t := set_QPinfoFlag (set_delta (next s) (gamma_c o * delta s))
                            (set_Update_delta (QPinfoFlag (next s)) true) in
    if Qltb (delta t) (delta_min o) then
      Throw SMALL_TRUST_REGION (set_exitflag t TRUST_REGION_TOO_SMALL)
    else Ok t.
Proof. unfold update_radius. fold o. by rewrite Hreject, Hkeep. Qed.

(** A throw stops the run. *)
Lemma radius_run_throw n e t :
  (Throw e t ≫= radius_run env next n) = Throw e t.
Proof. done. Qed.

(** The measure: while the radius is below [delta_min + k (1 - gamma_c)
    delta_min], [k + 1] iterations reach the throw. *)
Lemma radius_run_collapse k s :
  delta s < delta_min o + inject_Z (Z.of_nat k) * ((1 - gamma_c o) * delta_min o) ->
  exists t, radius_run env next (S k) s = Throw SMALL_TRUST_REGION t ∧
            exitflag t = TRUST_REGION_TOO_SMALL.
Proof.
  set (c := (1 - gamma_c o) * delta_min o).
  revert s. induction k as [|k IH]; intros s Hs; cbn [radius_run];
    rewrite update_radius_rejected; cbv zeta; simpl delta;
    destruct (Qltb_spec (gamma_c o * delta s) (delta_min o)) as [Hl|Hl]; try by eexists.
  - exfalso. change (inject_Z (Z.of_nat 0)) with 0 in Hs.
    rewrite Qmult_0_l, Qplus_0_r in Hs.
    destruct (Qlt_le_dec (delta s) 0); nra.
  - simpl. apply IH. simpl.
    rewrite Nat2Z.inj_succ, <- Z.add_1_r, inject_Z_plus in Hs. change (inject_Z 1) with 1 in Hs.
    assert (Hpos : 0 < delta s) by nra.
    assert (Hge : delta_min o <= delta s) by nra.
    assert (Hstep : gamma_c o * delta s <= delta s - c) by (subst c; nra).
    lra.
Qed.

End Rejected.

(** ** Theorems *)

(** C12: when no step is accepted, the trust region collapses: with [0 <=
    gamma_c < 1], [0 < delta_min] and a nonnegative radius, if the part of
    every iteration before [update_radius] keeps [delta_] and ends with a
    rejected ratio test, the run of [collapse_bound] iterations throws
    [SMALL_TRUST_REGION] with the exit flag [TRUST_REGION_TOO_SMALL]. *)
Theorem rejected_steps_collapse env next s :
  0 <= gamma_c (options env) < 1 -> 0 < delta_min (options env) -> 0 <= delta s ->
  (forall t, delta (next t) = delta t) ->
  (forall t, Qltb (actual_reduction (next t))
                  (eta_c (options env) * pred_reduction (next t)) = true) ->
  exists t, radius_run env next (collapse_bound (options env) (delta s)) s =
              Throw SMALL_TRUST_REGION t ∧ exitflag t = TRUST_REGION_TOO_SMALL.
Proof.
  intros Hg Hm Hd Hk Hr. unfold collapse_bound. apply radius_run_collapse; try done.
  set (c := (1 - gamma_c (options env)) * delta_min (options env)).
  assert (Hc : 0 < c) by (subst c; nra).
  assert (Hx : 0 <= delta s / c).
  { unfold Qdiv. apply Qmult_le_0_compat; [done|]. apply Qinv_le_0_compat. lra. }
  assert (Hz : (0 <= Qceiling (delta s / c))%Z).
  { change 0%Z with (Qceiling 0). by apply Qceiling_resp_le. }
  rewrite Z2Nat.id by done.
  assert (Hq : delta s / c <= inject_Z (Qceiling (delta s / c))) by apply Qle_ceiling.
  assert (He : delta s / c * c == delta s) by (field; lra).
  nra.
Qed.

(** Witness: the options of the concrete run ([gamma_c = 1/2],
    [delta_min = 1e-8]) from the radius [1], with an iteration whose
    trial point always increases the objective. *)
Lemma rejected_steps_collapse_witness :
  exists t, radius_run ex_env (fun s => set_pred_reduction (set_actual_reduction s (-1)) 1)
              (collapse_bound ex_options 1) ex_state =
            Throw SMALL_TRUST_REGION t ∧ exitflag t = TRUST_REGION_TOO_SMALL.
Proof.
  apply (rejected_steps_collapse ex_env (fun s => set_pred_reduction (set_actual_reduction s (-1)) 1)
           ex_state); [simpl; lra | simpl; lra | simpl; lra | reflexivity | reflexivity].
Defined.
