(* ===== verification/DefaultOptions.v ===== *)
(** * The option registry of the driver (Algorithm::setDefaultOption)

    [Algorithm::setDefaultOption] (src/src/Algorithm.cpp) registers the
    options of the solver with Ipopt's [RegisteredOptions]: a sequence of
    [SetRegisteringCategory] and [Add*Option] calls.  [setDefaultOption]
    is that sequence, argument by argument, with the adjacent string
    literals of the source joined as the C++ compiler joins them;
    [register] is the registry the calls build (each option under the
    category set last), a fold over the calls.

    The theorems: no name is registered twice, and the numeric defaults
    of the trust-region parameters satisfy the hypotheses of the radius
    theorems of Algorithm.v and TrustRegion.v.  The registration of
    [second_order_correction] lacks a comma after its short description;
    the transcription keeps the joined literal as the compiler builds it. *)

From Stdlib Require Import String.
From S2P Require Import Prelude.
Local Open Scope string_scope.
Local Open Scope Q_scope.

(** The three [Add*Option] forms of Ipopt's [RegisteredOptions], with
    their arguments in order ([AddStringOption2(name, short_description,
    default_value, setting1, description1, setting2, description2,
    long_description)]). *)
Inductive RegisteredOption :=
| NumberOption (name short_description : string) (default_value : Q) (long_description : string)
| IntegerOption (name short_description : string) (default_value : Z) (long_description : string)
| StringOption2 (name short_description default_value setting1 description1 setting2 description2
                 long_description : string).

Inductive RegCall :=
| SetRegisteringCategory (category : string)
| AddOption (o : RegisteredOption).

(** [Algorithm::setDefaultOption()]: the calls on [roptions], in order. *)
Definition setDefaultOption : list RegCall := [
  SetRegisteringCategory "trust-region";
  AddOption (NumberOption "eta_c" "trust-region parameter for the ratio test." (1 # 4) "If ratio<=eta_c, then the trust-region radius for the next iteration will be decreased for the next iteration.");
  AddOption (NumberOption "eta_s" "trust-region parameter for the ratio test." (1 # 100000000) "The trial point will be accepted if ratio>= eta_s. ");
  AddOption (NumberOption "eta_e" "trust-region parameter for the ratio test." (3 # 4) "If ratio>=eta_e and the search direction hits the  trust-region boundary, the trust-region radius will  be increased for the next iteration.");
  AddOption (NumberOption "gamma_c" "radius update parameter" (1 # 2) "If the trust-region radius is going to be decreased, then it will be set as gamma_c*delta, where delta is current trust-region radius.");
  AddOption (NumberOption "gamma_e" "radius update parameter" 2 "If the trust-region radius is going to be increased, then it will be set as gamma_e*delta,where delta is current trust-region radius.");
  AddOption (NumberOption "delta_0" "initial trust-region radius value" 1 EmptyString);
  AddOption (NumberOption "delta_max" "the maximum value of trust-region radius allowed for the radius update" 100000000 EmptyString);
  SetRegisteringCategory "Penalty Update";
  AddOption (NumberOption "eps1" "penalty update parameter" (3 # 10) EmptyString);
  AddOption (NumberOption "eps2" "penalty update parameter" (1 # 1000000) EmptyString);
  AddOption (NumberOption "print_level_penalty_update" "print level for penalty update" 0 EmptyString);
  AddOption (NumberOption "rho_max" "maximum value of penalty parameter" 1000000 EmptyString);
  AddOption (NumberOption "increase_parm" "the number which will be use for scaling the new penalty parameter" 10 EmptyString);
  AddOption (IntegerOption "penalty_iter_max" "maximum number of penalty paramter update allowed in a single iteration in the main algorithm" 10%Z EmptyString);
  AddOption (IntegerOption "penalty_iter_max_total" "maximum number of penalty paramter update allowed in total" 100%Z EmptyString);
  SetRegisteringCategory "Optimality Test";
  AddOption (IntegerOption "testOption_NLP" "Level of Optimality test for NLP" 0%Z EmptyString);
  AddOption (StringOption2 "auto_gen_tol" "Tell the algorithm to automaticallygenerate the tolerance level for optimality test based on information from NLP" "no" "no" "will use user-defined values of tolerance for the optimality test" "yes" "will automatically generate the tolerance level for the optimality test" EmptyString);
  AddOption (NumberOption "opt_tol" EmptyString (1 # 100000) EmptyString);
  AddOption (NumberOption "active_set_tol" EmptyString (1 # 100000) EmptyString);
  AddOption (NumberOption "opt_compl_tol" EmptyString (1 # 1000000) EmptyString);
  AddOption (NumberOption "opt_dual_fea_tol" " " (1 # 1000000) EmptyString);
  AddOption (NumberOption "opt_prim_fea_tol" " " (1 # 100000) EmptyString);
  AddOption (NumberOption "opt_second_tol" " " (1 # 100000000) EmptyString);
  SetRegisteringCategory "General";
  AddOption (NumberOption "step_size_tol" "the smallest stepsize can be acceptedbefore concluding convergence" (1 # 1000000000000000) EmptyString);
  AddOption (NumberOption "iter_max" "maximum number of iteration for the algorithm" 10 EmptyString);
  AddOption (NumberOption "print_level" "print level for main algorithm" 2 EmptyString);
  AddOption (StringOption2 "second_order_correction" "Tells the algorithm to calculate the second-order correction step during the main iterationyes" "no" "not calculate the soc steps" "yes" "will calculate the soc steps" EmptyString EmptyString);
  SetRegisteringCategory "QPsolver";
  AddOption (IntegerOption "testOption_QP" "Level of Optimality test for QP" (-99)%Z EmptyString);
  AddOption (NumberOption "iter_max_qp" "maximum number of iteration for the QP solver in solving each QP" 100 EmptyString);
  AddOption (NumberOption "print_level_qp" "print level for QP solver" 0 EmptyString);
  SetRegisteringCategory "LPsolver";
  AddOption (IntegerOption "testOption_LP" "Level of Optimality test for LP" (-99)%Z EmptyString);
  AddOption (NumberOption "iter_max_lp" "maximum number of iteration for the LP solver in solving each LP" 100 EmptyString);
  AddOption (NumberOption "print_level_lp" "print level for LP solver" 0 EmptyString)].

Definition option_name (o : RegisteredOption) : string :=
  match o with
  | NumberOption n _ _ _ | IntegerOption n _ _ _ | StringOption2 n _ _ _ _ _ _ _ => n
  end.

(** The registry the calls build: each added option with the category
    current at its registration. *)
Fixpoint register (category : string) (cs : list RegCall) : list (string * RegisteredOption) :=
  match cs with
  | [] => []
  | SetRegisteringCategory c :: cs => register c cs
  | AddOption o :: cs => (category, o) :: register category cs
  end.

Definition registry : list (string * RegisteredOption) := register EmptyString setDefaultOption.

Definition lookup_option (n : string) : option (string * RegisteredOption) :=
  find (fun co => String.eqb (option_name co.2) n) registry.

(** The default of a number option. *)
Definition number_default (n : string) : option Q :=
  match lookup_option n with Some (_, NumberOption _ _ v _) => Some v | _ => None end.

(** The settings a string option accepts. *)
Definition valid_settings (o : RegisteredOption) : list string :=
  match o with StringOption2 _ _ _ s1 _ s2 _ _ => [s1; s2] | _ => [] end.

(** ** Theorems *)

(** Every option is registered once: Ipopt refuses a second
    registration of a name, and [setDefaultOption] never makes one. *)
Theorem registry_names_unique : List.NoDup (map (fun co => option_name co.2) registry).
Proof.
  vm_compute. repeat (apply List.NoDup_cons; [simpl; intuition discriminate|]). apply List.NoDup_nil.
Qed.

(** The registered defaults of the trust-region parameters satisfy
    [0 < eta_s < eta_c < eta_e < 1], [0 < gamma_c < 1 < gamma_e] and
    [0 < delta_0 <= delta_max]: the hypotheses of the radius theorems
    hold for the default options. *)
Theorem trust_region_defaults :
  exists es ec ee gc ge d0 dm,
    number_default "eta_s" = Some es ∧ number_default "eta_c" = Some ec ∧
    number_default "eta_e" = Some ee ∧ number_default "gamma_c" = Some gc ∧
    number_default "gamma_e" = Some ge ∧ number_default "delta_0" = Some d0 ∧
    number_default "delta_max" = Some dm ∧
    0 < es < ec ∧ ec < ee < 1 ∧ 0 < gc < 1 ∧ 1 < ge ∧ 0 < d0 <= dm.
Proof.
  do 7 eexists. do 7 (split; [vm_compute; reflexivity|]).
  vm_compute. repeat split; discriminate.
Qed.
