(* ===== verification/QpSolve.v ===== *)
(** * Solving the QP through the builder (QPhandler::solveQP)

    [QPhandler::solveQP] (src/src/QPhandler.cpp) calls [optimizeQP] of its
    solver interface, then [test_optimality], which stores the optimality
    status of the interface and returns its verdict; a negative verdict
    throws [QP_NOT_OPTIMAL].  The driver then reads the step through
    [QPhandler::get_optimal_solution], that is the buffer [x_qp_] of the
    interface.  Here the interface is the qpOASES one of SolverInterface.v;
    the test of the interface (declared in QPsolverInterface.hpp, which is
    not among the sources) is a parameter.  The theorems about the
    solves themselves are those of SolverInterface.v. *)

From S2P Require Import Prelude SqpTypes DenseVector SparseMatrix SolverInterface.
Local Open Scope Q_scope.

Section SolveQP.
Context {E : Type}.
Variable engine : SolverCall -> nat -> QpData -> E -> EngineRun * E.
Variables qp_maxiter lp_maxiter : nat.
(** [qpsolverInterface->test_optimality(W_c, W_b)] on the interface state. *)
Variable interface_test_optimality : qpOASESInterface -> bool.

(** What [solveQP] leaves: it returns, or throws [QP_NOT_OPTIMAL]; in
    both cases with the interface, the engine and the statistics. *)
Inductive SolveQPOutcome :=
| QPSolved (s : qpOASESInterface) (e : E) (qp_iter : nat)
| QPNotOptimal (s : qpOASESInterface) (e : E) (qp_iter : nat).

(** [QPhandler::test_optimality(solverInterface_, ...)]. *)
Definition test_optimality (s : qpOASESInterface) : bool := interface_test_optimality s.

(** [QPhandler::solveQP(stats, options)]: the DEBUG comparison of
    backends is not compiled. *)
Definition solveQP (s : qpOASESInterface) (e : E) (it : nat) : SolveQPOutcome :=
  match optimizeQP engine qp_maxiter lp_maxiter s e it with
  | SolveOk s e it _ => if test_optimality s then QPSolved s e it else QPNotOptimal s e it
  | SolveNotOptimal _ s e it => QPNotOptimal s e it
  end.
End SolveQP.

Arguments SolveQPOutcome : clear implicits.

(** [QPhandler::solveLP(stats)] (QPhandler.hpp): the LP goes to
    [optimizeLP] of the interface; its outcome is not tested. *)
Definition solveLP {E} (engine : SolverCall -> nat -> QpData -> E -> EngineRun * E)
    (lp_maxiter : nat) (s : qpOASESInterface) (e : E) (it : nat) : SolveOutcome E :=
  optimizeLP engine lp_maxiter s e it.

(** The getters the driver reads the QP solution through. *)
Module Getters.

(** [QPhandler::get_optimal_solution()] and
    [qpOASESInterface::get_optimal_solution()]: the buffer [x_qp_]. *)
Definition get_optimal_solution (s : qpOASESInterface) : list Q := x_qp_ s.

(** [get_multipliers()] of the interface: the buffer [y_qp_]. *)
Definition get_multipliers (s : qpOASESInterface) : list Q := y_qp_ s.

End Getters.

(** ** Theorems *)
